(** * The withdrawal stage state machine of contestbk

    A shallow embedding of the request handlers that create, resume and
    advance a withdrawal (controllers/withdrawalController.js,
    controllers/authController.js, controllers/paymentController.js and
    controllers/adminController.js) over an explicit store, and the
    properties of the stage state machine stated over it.

    Modelling conventions.
    - A JavaScript string is a Rocq [string]; its characters are read as
      UTF-16 code units below 256.
    - A JavaScript Number is a binary64 [float] (Rocq's primitive floats),
      so [*], [/] and [<] are the IEEE operations the handlers run.
    - The two Mongoose collections are the [State]: the users by [_id] and
      the withdrawals as a list, most recently created first, so that
      [findOne({user}).sort({createdAt: -1})] is the first entry of the
      user: requests are served one at a time and the clock does not run
      backwards.  [save()] stores the declared paths of a document as the
      handler holds them; a sub-document keeps the fields its schema
      declares; the two [Mixed] paths of a user, which the handlers change
      in place, are stored as Mongoose tracks them (see the store).
    - [new Date()] / [Date.now()] is the [now] of the request, the ObjectId
      of a new document its [newId], and the outcome of each Cloudinary
      upload is given by the request's [upload] function.
    - The one regular expression of the handlers is modelled by a matcher
      for stage names without pattern characters; what the RegExp
      constructor makes of any other stage is a parameter, the [engine].
    - Outbound e-mail ([sendAdminEmail]) is fire-and-forget and touches no
      stored document; it is left out. *)

From Stdlib Require Import Floats ZArith Ascii String List Bool Lia.
From Stdlib Require Uint63.
From stdpp Require Import gmap strings list pretty.
Import ListNotations.

Set Default Proof Using "Type".
(* 0.01 is read as the closest binary64 number, as JavaScript reads it. *)
Set Warnings "-inexact-float".
Local Open Scope string_scope.

(** * The model *)

(** ** JavaScript strings and the character classes of RegExp *)

Module JS.

Definition code (c : ascii) : N := N_of_ascii c.

Definition between (lo hi : N) (c : ascii) : bool :=
  ((lo <=? code c) && (code c <=? hi))%N.

(** [\d] *)
Definition is_digit (c : ascii) : bool := between 48 57 c.

(** [\w], that is [[A-Za-z0-9_]] *)
Definition is_word (c : ascii) : bool :=
  is_digit c || between 65 90 c || between 97 122 c || (code c =? 95)%N.

(** [\s] restricted to code units below 256: TAB, LF, VT, FF, CR, SPACE
    and NBSP. *)
Definition is_space (c : ascii) : bool :=
  between 9 13 c || (code c =? 32)%N || (code c =? 160)%N.

(** Canonicalize of ECMA-262 for the [i] flag without the [u] flag: the
    upper-case mapping when it is a single code unit, except that a
    non-ASCII character is never mapped to an ASCII one.  Below 256 the
    characters with a single-unit upper case inside the range are [a-z]
    and U+00E0..U+00FE without U+00F7. *)
Definition canonicalize (c : ascii) : ascii :=
  if between 97 122 c || (between 224 254 c && negb (code c =? 247)%N)
  then ascii_of_N (code c - 32) else c.

(** [String.prototype.toLowerCase] below 256. *)
Definition lower_char (c : ascii) : ascii :=
  if between 65 90 c || (between 192 222 c && negb (code c =? 215)%N)
  then ascii_of_N (code c + 32) else c.

Definition chars (s : string) : list ascii := list_ascii_of_string s.
Definition str (l : list ascii) : string := string_of_list_ascii l.

Definition toLowerCase (s : string) : string := str (map lower_char (chars s)).

(** Truthiness of a string value: the empty string is falsy. *)
Definition truthy (s : string) : bool := negb (String.eqb s "").

Fixpoint prefix_of (p s : list ascii) : bool :=
  match p, s with
  | [], _ => true
  | a :: p', c :: s' => Ascii.eqb a c && prefix_of p' s'
  | _ :: _, [] => false
  end.

(** [String.prototype.includes] *)
Fixpoint includes_chars (s p : list ascii) : bool :=
  prefix_of p s || match s with [] => false | _ :: s' => includes_chars s' p end.

Definition includes (s p : string) : bool := includes_chars (chars s) (chars p).

(** [/^\d{n}$/.test(s)] *)
Definition all_digits (n : nat) (s : string) : bool :=
  (length (chars s) =? n)%nat && forallb is_digit (chars s).

(** *** Numbers *)

Local Open Scope float_scope.

Definition two52 : float := 4503599627370496.

(** [Math.floor]: an integral number is returned as it is; below 2^52 in
    magnitude, adding and subtracting 2^52 rounds to an integer, from which
    one is taken when it lies above [x]; every larger binary64 number is
    integral. *)
Definition Math_floor (x : float) : float :=
  if abs x <? two52 then
    let r := if 0 <=? x then (x + two52) - two52 else (x - two52) + two52 in
    if r =? x then x else if x <? r then r - 1 else r
  else x.

(** [Math.round]: an integral or non-finite number is returned as it is;
    otherwise the closest integral number, the one closer to [+Infinity]
    on a tie, and [-0] for [-0.5 <= x < 0]. *)
Definition Math_round (x : float) : float :=
  let f := Math_floor x in
  if f =? x then x
  else if (x <? 0) && (-0.5 <=? x) then -0
  else if 0.5 <=? x - f then f + 1 else f.

(** [Number(x || 0)] for a number [x]: zero and NaN are falsy. *)
Definition or_zero (x : float) : float :=
  if (x =? 0) || is_nan x then 0 else x.

End JS.

(** ** The notification pattern of confirmStagePin

    [new RegExp(`\\b${stage}\\b[^\\d]{0,25}(?:pin|code|is)[:\\s\\-]*?(\\d{4})`, 'i')]
    run by [regex.exec(text)].  The stage is spliced into the pattern
    source; the matcher below reads it as literal characters, which is what
    the constructor does for a stage without the pattern characters of
    [regex_literal].  The result is the capture [m[1]] of the first match
    in backtracking order: leftmost start, longest gap first, the
    alternatives in order, shortest separator first. *)

Module Regex.
Import JS.

Definition metachars : list ascii := chars "\^$.|?*+()[]{}".

Definition regex_literal (stage : string) : bool :=
  forallb (fun c => negb (existsb (Ascii.eqb c) metachars)) (chars stage).

(** [\b] between a previous character (none at the start) and the rest. *)
Definition boundary (prev : option ascii) (s : list ascii) : bool :=
  xorb (from_option is_word false prev) (from_option is_word false (head s)).

(** The literal [p] under the [i] flag; yields the last character consumed
    and the rest. *)
Fixpoint literal_ci (p : list ascii) (prev : option ascii) (s : list ascii)
  : option (option ascii * list ascii) :=
  match p with
  | [] => Some (prev, s)
  | a :: p' =>
      match s with
      | c :: s' =>
          if Ascii.eqb (canonicalize a) (canonicalize c)
          then literal_ci p' (Some c) s' else None
      | [] => None
      end
  end.

(** [(\d{4})] *)
Definition digits4 (s : list ascii) : option (list ascii) :=
  match s with
  | a :: b :: c :: d :: _ =>
      if is_digit a && is_digit b && is_digit c && is_digit d
      then Some [a; b; c; d] else None
  | _ => None
  end.

(** [[:\s\-]] *)
Definition is_sep (c : ascii) : bool :=
  Ascii.eqb c ":" || is_space c || Ascii.eqb c "-".

(** [[:\s\-]*?(\d{4})], lazy: the digits are tried before one more
    separator is taken. *)
Fixpoint separator (s : list ascii) : option (list ascii) :=
  match digits4 s with
  | Some d => Some d
  | None =>
      match s with
      | c :: s' => if is_sep c then separator s' else None
      | [] => None
      end
  end.

Definition alternative (k : string) (s : list ascii) : option (list ascii) :=
  match literal_ci (chars k) None s with
  | Some (_, rest) => separator rest
  | None => None
  end.

(** [(?:pin|code|is)] followed by the separator and the digits. *)
Definition keyword (s : list ascii) : option (list ascii) :=
  match alternative "pin" s with
  | Some d => Some d
  | None =>
      match alternative "code" s with
      | Some d => Some d
      | None => alternative "is" s
      end
  end.

(** [[^\d]{0,n}], greedy: one more character is taken before the keyword
    is tried. *)
Fixpoint gap (n : nat) (s : list ascii) : option (list ascii) :=
  match n, s with
  | S n', c :: s' =>
      if is_digit c then keyword s
      else match gap n' s' with
           | Some d => Some d
           | None => keyword s
           end
  | _, _ => keyword s
  end.

(** The whole pattern tried at one position. *)
Definition match_here (stage : list ascii) (prev : option ascii) (s : list ascii)
  : option (list ascii) :=
  if boundary prev s then
    match literal_ci stage prev s with
    | Some (prev', rest) => if boundary prev' rest then gap 25 rest else None
    | None => None
    end
  else None.

Fixpoint exec_from (stage : list ascii) (prev : option ascii) (s : list ascii)
  : option (list ascii) :=
  match match_here stage prev s with
  | Some d => Some d
  | None =>
      match s with
      | c :: s' => exec_from stage (Some c) s'
      | [] => None
      end
  end.

(** [m && m[1]] for [m = regex.exec(text)]. *)
Definition exec (stage text : string) : option string :=
  str <$> exec_from (chars stage) None (chars text).

End Regex.

(** ** The data model (models/User.js, models/Withdrawal.js) *)

Abbreviation Id := string (only parsing).
Abbreviation Time := Z (only parsing).

Inductive Status := preview | pending_activation | approved | rejected | ready_for_payout.

Inductive Stage := activation | tax | insurance | verification | security | access.

#[global] Instance Status_eq_dec : EqDecision Status.
Proof. solve_decision. Defined.

#[global] Instance Stage_eq_dec : EqDecision Stage.
Proof. solve_decision. Defined.

Definition stage_name (s : Stage) : string :=
  match s with
  | activation => "activation"
  | tax => "tax"
  | insurance => "insurance"
  | verification => "verification"
  | security => "security"
  | access => "access"
  end.

(** [activationPins[stage]]; [setPinForUser] writes no
    [discoveredFromNotification] field, which is [None] here. *)
Record PinRecord := {
  pr_pin : string;
  pr_set : bool;
  pr_setAt : Time;
  pr_discoveredFromNotification : option bool
}.

Record Notification := {
  n_text : string;
  n_createdAt : Time;
  n_read : bool
}.

(** A file as multer hands it over. *)
Record UploadedFile := {
  f_fieldname : string;
  f_originalname : string;
  f_mimetype : string;
  f_size : Z
}.

(** The part of a Cloudinary upload result that the handlers keep. *)
Record CloudinaryResult := {
  cr_secure_url : string;
  cr_public_id : string
}.

(** The stored reference to an uploaded image; paymentController keeps no
    [mimetype], [size] and [displayName]. *)
Record SavedFile := {
  sf_filename : string;
  sf_originalname : string;
  sf_url : string;
  sf_public_id : string;
  sf_mimetype : option string;
  sf_size : option Z;
  sf_displayName : option string
}.

Record Card := {
  c_giftCard : string;
  c_pin : string;
  c_file : option SavedFile
}.

(** The [details] of a payment. *)
Inductive PaymentDetails :=
| CardsDetails (cards : list Card)
| GiftcardDetails (cardType cardPin image : string) (cards : list Card)
| CryptoDetails (crypto walletAddress : string)
| BankDetails (bankName accountNumber firstName lastName email : string).

(** An entry of [withdrawal.payments].  PaymentSubmissionSchema declares
    [stage], [amount], [cards], [createdAt] and [status]; the [method] and
    the [details] that the handlers put in a submission are no paths of
    the schema and are not stored. *)
Record PaymentSubmission := {
  p_stage : option string;
  p_amount : float;
  p_cards : list Card;
  p_createdAt : Time;
  p_status : string
}.

(** An entry of [user.payments].  PaymentSchema declares [method],
    [details], [createdAt] and [status]; the [stage], [amount], [cards]
    and [withdrawal] of the record that the handlers push are no paths of
    the schema and are not stored.  [details] is [Mixed] and keeps what
    the handler put there. *)
Record Payment := {
  pm_method : string;
  pm_details : PaymentDetails;
  pm_createdAt : Time;
  pm_status : string
}.

(** A [Mixed] object with string fields. *)
Abbreviation Object := (gmap string string) (only parsing).

(** A stored user.  [activationPins] and [activationStatus] are [Mixed]
    with the default [{}]: the stored document has the object, or no such
    field ([None]), which is how an insert leaves a document whose object
    is empty. *)
Record User := {
  u_username : string;
  u_country : string;
  u_role : string;
  u_balance : float;
  u_timerActive : bool;
  u_timerEnds : option Time;
  u_notifications : list Notification;
  u_payments : list Payment;
  u_activationPins : option (gmap string PinRecord);
  u_activationStatus : option (gmap string bool)
}.

Record Withdrawal := {
  w_id : Id;
  w_user : Id;
  w_amount : float;
  w_method : string;
  w_details : option Object;
  w_status : Status;
  w_stage : Stage;
  w_payments : list PaymentSubmission;
  w_createdAt : Time
}.

Record State := {
  users : gmap Id User;
  withdrawals : list Withdrawal
}.

(** *** Field updates *)

Definition user_with_pins (u : User) (pins : option (gmap string PinRecord)) : User :=
  {| u_username := u_username u; u_country := u_country u; u_role := u_role u;
     u_balance := u_balance u; u_timerActive := u_timerActive u;
     u_timerEnds := u_timerEnds u; u_notifications := u_notifications u;
     u_payments := u_payments u; u_activationPins := pins;
     u_activationStatus := u_activationStatus u |}.

Definition user_with_status (u : User) (sts : option (gmap string bool)) : User :=
  {| u_username := u_username u; u_country := u_country u; u_role := u_role u;
     u_balance := u_balance u; u_timerActive := u_timerActive u;
     u_timerEnds := u_timerEnds u; u_notifications := u_notifications u;
     u_payments := u_payments u; u_activationPins := u_activationPins u;
     u_activationStatus := sts |}.

Definition user_with_notifications (u : User) (ns : list Notification) : User :=
  {| u_username := u_username u; u_country := u_country u; u_role := u_role u;
     u_balance := u_balance u; u_timerActive := u_timerActive u;
     u_timerEnds := u_timerEnds u; u_notifications := ns;
     u_payments := u_payments u; u_activationPins := u_activationPins u;
     u_activationStatus := u_activationStatus u |}.

Definition user_with_payments (u : User) (ps : list Payment) : User :=
  {| u_username := u_username u; u_country := u_country u; u_role := u_role u;
     u_balance := u_balance u; u_timerActive := u_timerActive u;
     u_timerEnds := u_timerEnds u; u_notifications := u_notifications u;
     u_payments := ps; u_activationPins := u_activationPins u;
     u_activationStatus := u_activationStatus u |}.

Definition user_with_wallet (u : User) (b : float) (active : bool) (ends : option Time) : User :=
  {| u_username := u_username u; u_country := u_country u; u_role := u_role u;
     u_balance := b; u_timerActive := active;
     u_timerEnds := ends; u_notifications := u_notifications u;
     u_payments := u_payments u; u_activationPins := u_activationPins u;
     u_activationStatus := u_activationStatus u |}.

(** [user.notifications.push({ text, createdAt: new Date() })]; [read]
    takes its schema default. *)
Definition push_notification (u : User) (text : string) (now : Time) : User :=
  user_with_notifications u
    (u_notifications u ++ [{| n_text := text; n_createdAt := now; n_read := false |}]).

Definition withdrawal_with_status (w : Withdrawal) (s : Status) : Withdrawal :=
  {| w_id := w_id w; w_user := w_user w; w_amount := w_amount w;
     w_method := w_method w; w_details := w_details w; w_status := s;
     w_stage := w_stage w; w_payments := w_payments w; w_createdAt := w_createdAt w |}.

Definition withdrawal_with_stage (w : Withdrawal) (s : Stage) : Withdrawal :=
  {| w_id := w_id w; w_user := w_user w; w_amount := w_amount w;
     w_method := w_method w; w_details := w_details w; w_status := w_status w;
     w_stage := s; w_payments := w_payments w; w_createdAt := w_createdAt w |}.

Definition withdrawal_with_payments (w : Withdrawal) (ps : list PaymentSubmission) : Withdrawal :=
  {| w_id := w_id w; w_user := w_user w; w_amount := w_amount w;
     w_method := w_method w; w_details := w_details w; w_status := w_status w;
     w_stage := w_stage w; w_payments := ps; w_createdAt := w_createdAt w |}.

(** *** The store *)

(** The handlers are stated for a given Mongoose and, from confirmStagePin
    on, a given RegExp engine. *)
Section Handlers.

(** [User.findById(id)] *)
Definition User_findById (st : State) (id : Id) : option User := users st !! id.

(** A user document in memory.  [d_user] holds the declared paths as the
    handler has set them and, of the two [Mixed] paths, what is stored;
    [d_activationPins] and [d_activationStatus] are the two objects as
    the handler holds and changes them.  A change inside the object of a
    [Mixed] path is one Mongoose does not see, and no handler calls
    [markModified]: [save()] writes such a path only while it is in the
    default state, [d_default], in which a path is after the load when
    the stored document has no such field. *)
Record Document := {
  d_user : User;
  d_activationPins : gmap string PinRecord;
  d_activationStatus : gmap string bool;
  d_default : bool
}.

(** [user.activationPins] of a loaded document: the stored object, or the
    default [{}]. *)
Definition held {A} (stored : option (gmap string A)) : gmap string A := default ∅ stored.

(** The document that [findById] hands over. *)
Definition load (u : User) : Document :=
  {| d_user := u; d_activationPins := held (u_activationPins u);
     d_activationStatus := held (u_activationStatus u); d_default := true |}.

Definition holding (d : Document) (u : User) : Document :=
  {| d_user := u; d_activationPins := d_activationPins d;
     d_activationStatus := d_activationStatus d; d_default := d_default d |}.

Definition holding_pins (d : Document) (pins : gmap string PinRecord) : Document :=
  {| d_user := d_user d; d_activationPins := pins;
     d_activationStatus := d_activationStatus d; d_default := d_default d |}.

Definition holding_status (d : Document) (sts : gmap string bool) : Document :=
  {| d_user := d_user d; d_activationPins := d_activationPins d;
     d_activationStatus := sts; d_default := d_default d |}.

(** An insert leaves an empty object out of the stored document.  Whether
    an update does so as well has changed between the releases of
    Mongoose; [minimize] tells, and the handlers are stated for both. *)
Variable minimize : bool.

(** What [save()] leaves stored of a [Mixed] path held as [object]: the
    stored object when there is one, whatever the handler did to its
    copy; otherwise [object], when the path is in the default state. *)
Definition written {A} (first : bool) (stored : option (gmap string A))
    (object : gmap string A) : option (gmap string A) :=
  match stored with
  | Some kept => Some kept
  | None =>
      if first && negb (minimize && bool_decide (size object = 0%nat))
      then Some object else None
  end.

(** The user as [save()] stores it. *)
Definition stored (d : Document) : User :=
  user_with_status
    (user_with_pins (d_user d)
       (written (d_default d) (u_activationPins (d_user d)) (d_activationPins d)))
    (written (d_default d) (u_activationStatus (d_user d)) (d_activationStatus d)).

(** [user.save()]: the store afterwards. *)
Definition Document_save (st : State) (id : Id) (d : Document) : State :=
  {| users := <[id := stored d]> (users st); withdrawals := withdrawals st |}.

(** And the document in memory afterwards, whose paths have left the
    default state. *)
Definition saved (d : Document) : Document :=
  {| d_user := stored d; d_activationPins := d_activationPins d;
     d_activationStatus := d_activationStatus d; d_default := false |}.

(** [user.save()] in a handler that loads the user, sets declared paths
    and saves once. *)
Definition User_save (st : State) (id : Id) (u : User) : State :=
  Document_save st id (load u).

(** [Withdrawal.findById(id)] *)
Definition Withdrawal_findById (st : State) (id : Id) : option Withdrawal :=
  List.find (fun w => String.eqb (w_id w) id) (withdrawals st).

(** [Withdrawal.findOne({ user }).sort({ createdAt: -1 })] *)
Definition Withdrawal_latest (st : State) (user : Id) : option Withdrawal :=
  List.find (fun w => String.eqb (w_user w) user) (withdrawals st).

(** [withdrawal.save()] of a stored document. *)
Definition Withdrawal_save (st : State) (w : Withdrawal) : State :=
  {| users := users st;
     withdrawals :=
       map (fun x => if String.eqb (w_id x) (w_id w) then w else x) (withdrawals st) |}.

(** [withdrawal.save()] of a new document; [None] when its [_id] is taken
    (the insert fails on the duplicate key). *)
Definition Withdrawal_insert (st : State) (w : Withdrawal) : option State :=
  match Withdrawal_findById st (w_id w) with
  | Some _ => None
  | None => Some {| users := users st; withdrawals := w :: withdrawals st |}
  end.

(** ** Responses *)

Record Preview := {
  pv_amount : float;
  pv_method : string;
  pv_details : option Object
}.

Inductive Response :=
| Err (code : nat) (message : string)
| ExistingInProgress (withdrawalId : Id) (pv : Preview) (stage : Stage) (status : Status)
| PreviewCreated (withdrawalId : Id) (pv : Preview)
| ProceedRecorded
| ProceedResumed (withdrawalId : Id) (stage : Stage) (status : Status) (amount : float)
| ProceedRecordedFor (withdrawalId : Id) (stage : Stage) (status : Status) (amount : float)
| Submitted
| PaymentSubmitted
| PinConfirmed (nextStage : option Stage) (amount : float)
| WithdrawalApproved
| PinSet
| NotificationSent
| Dashboard (username : string) (balance : float) (timerActive : bool)
    (timerEnds : option Time) (notifications : list Notification) (country : string).

(** The error taxonomy, as the responses the handlers send. *)
Definition UserNotFound : Response := Err 404 "User not found".
Definition WithdrawalNotFound : Response := Err 404 "Withdrawal not found".
Definition Forbidden : Response := Err 403 "Forbidden".
Definition InsufficientBalance : Response :=
  Err 400 "Balance must be at least $1 to withdraw".
Definition TimerInactive : Response :=
  Err 400 "Withdrawals are disabled while timer inactive".
Definition NoPinSet : Response :=
  Err 400 "Verifying your Gift Card PIN. No pin set for this stage yet. Please check notifications or contact admin.".
Definition IncorrectPin : Response :=
  Err 400 "Incorrect pin. Please check your dashboard notifications.".
Definition ServerError : Response := Err 500 "Server error".

(** ** Fee policy and stage order (confirmStagePin, withdrawProceed) *)

(** [Math.round((Number(user.balance || 0) * 0.01) * 100) / 100] *)
Definition taxAmount (balance : float) : float :=
  (JS.Math_round ((JS.or_zero balance * 0.01) * 100) / 100)%float.

(** The [if (nextStage === 'tax') ... else amount = 0] chain. *)
Definition stageAmount (nextStage : option Stage) (balance : float) : float :=
  match nextStage with
  | Some tax => taxAmount balance
  | Some insurance => 500%float
  | Some verification => 1000%float
  | Some security => 2000%float
  | _ => 0%float
  end.

(** [const stages = ['activation', 'tax', 'insurance', 'verification', 'security', 'access']] *)
Definition stages : list Stage :=
  [activation; tax; insurance; verification; security; access].

(** [arr.indexOf(stage)], [None] for -1. *)
Fixpoint indexOf_from (arr : list Stage) (stage : string) (i : nat) : option nat :=
  match arr with
  | [] => None
  | s :: arr' =>
      if String.eqb (stage_name s) stage then Some i else indexOf_from arr' stage (S i)
  end.

Definition indexOf (arr : list Stage) (stage : string) : option nat :=
  indexOf_from arr stage 0.

(** [idx >= 0 && idx < stages.length - 1 ? stages[idx + 1] : null] *)
Definition nextStageOf (stage : string) : option Stage :=
  match indexOf stages stage with
  | Some idx => if (idx <? length stages - 1)%nat then stages !! (idx + 1)%nat else None
  | None => None
  end.

(** [!['approved', 'rejected'].includes(w.status) && w.stage !== 'access'] *)
Definition inProgress (w : Withdrawal) : bool :=
  negb (bool_decide (w_status w = approved) || bool_decide (w_status w = rejected))
  && negb (bool_decide (w_stage w = access)).

(** ** confirmStagePin (withdrawalController) *)

(** [new RegExp(source, 'i')] for a stage that holds pattern characters is
    left to the engine: [None] when the constructor throws a SyntaxError,
    otherwise the function that gives [m[1]] for [m = regex.exec(text)]
    when there is a match with a non-empty first group.  The handlers are
    stated for any engine. *)
Variable engine : string -> option (string -> option string).

(** [const regex = new RegExp(...)] followed by [regex.exec]. *)
Definition stagePattern (stage : string) : option (string -> option string) :=
  if Regex.regex_literal stage then Some (Regex.exec stage) else engine stage.

(** The loop over [notifList]: entries without text are skipped, the first
    match wins. *)
Fixpoint scanNotifications (exec : string -> option string)
    (notifList : list Notification) : option string :=
  match notifList with
  | [] => None
  | n :: rest =>
      if negb (JS.truthy (n_text n)) then scanNotifications exec rest
      else match exec (n_text n) with
           | Some digits => Some digits
           | None => scanNotifications exec rest
           end
  end.

(** [foundPin] over [(user.notifications || []).slice().reverse()] *)
Definition foundPin (exec : string -> option string) (user : User) : option string :=
  scanNotifications exec (rev (u_notifications user)).

Definition discoveredPin (digits : string) (now : Time) : PinRecord :=
  {| pr_pin := digits; pr_set := true; pr_setAt := now;
     pr_discoveredFromNotification := Some true |}.

(** The fallback branch: the store, the user document and [stageObj] after
    it, or the response it ends the request with: NoPinSet when no
    notification matches, and the 500 of the [catch] when the pattern does
    not compile.  The record is written into the object that the document
    holds, and the document is saved. *)
Definition recoverPin (st : State) (userId : Id) (user : Document) (stage : string)
    (now : Time) : Response + State * Document * PinRecord :=
  match stagePattern stage with
  | None => inl ServerError
  | Some exec =>
      match foundPin exec (d_user user) with
      | Some digits =>
          let stageObj := discoveredPin digits now in
          let user' := holding_pins user (<[stage := stageObj]> (d_activationPins user)) in
          inr (Document_save st userId user', saved user', stageObj)
      | None => inl NoPinSet
      end
  end.

(** [stageObj] once [if (!stageObj || !stageObj.set) { ... }] is past. *)
Definition resolvePin (st : State) (userId : Id) (user : Document) (stage : string)
    (now : Time) : Response + State * Document * PinRecord :=
  match d_activationPins user !! stage with
  | Some stageObj =>
      if pr_set stageObj then inr (st, user, stageObj)
      else recoverPin st userId user stage now
  | None => recoverPin st userId user stage now
  end.

(** The stage (and status) written to the latest withdrawal. *)
Definition advance (withdrawal : Withdrawal) (nextStage : option Stage) : Withdrawal :=
  match nextStage with
  | Some next =>
      let w := withdrawal_with_stage withdrawal next in
      if bool_decide (next = access) then withdrawal_with_status w ready_for_payout else w
  | None => withdrawal
  end.

Definition confirmStagePin (st : State) (userId withdrawalId : Id) (stage pin : string)
    (now : Time) : State * Response :=
  match User_findById st userId with
  | None => (st, UserNotFound)
  | Some user =>
      match resolvePin st userId (load user) stage now with
      | inl response => (st, response)
      | inr (st1, user1, stageObj) =>
          if negb (String.eqb (pr_pin stageObj) pin) then (st1, IncorrectPin)
          else
            let user2 :=
              holding
                (holding_status user1 (<[stage := true]> (d_activationStatus user1)))
                (push_notification (d_user user1)
                   ("Your " ++ stage ++ " activation code was accepted.") now) in
            let st2 := Document_save st1 userId user2 in
            let nextStage := nextStageOf stage in
            let st3 :=
              match Withdrawal_latest st2 userId with
              | Some withdrawal => Withdrawal_save st2 (advance withdrawal nextStage)
              | None => st2
              end in
            (st3, PinConfirmed nextStage (stageAmount nextStage (u_balance (d_user user2))))
      end
  end.

(** ** createPreview (withdrawalController) and withdrawRequest (authController) *)

Definition newWithdrawal (newId userId : Id) (amount : float) (method : string)
    (details : option Object) (now : Time) : Withdrawal :=
  {| w_id := newId; w_user := userId; w_amount := amount; w_method := method;
     w_details := details; w_status := preview; w_stage := activation;
     w_payments := []; w_createdAt := now |}.

Definition previewOf (w : Withdrawal) : Preview :=
  {| pv_amount := w_amount w; pv_method := w_method w; pv_details := w_details w |}.

(** The part the two handlers share: resume the latest withdrawal when it
    is in progress, create one otherwise. *)
Definition resumeOrCreate (st : State) (userId : Id) (user : User) (method : string)
    (details : option Object) (newId : Id) (now : Time) : State * Response :=
  let create :=
    let withdrawal := newWithdrawal newId userId (u_balance user) method details now in
    match Withdrawal_insert st withdrawal with
    | Some st' => (st', PreviewCreated (w_id withdrawal) (previewOf withdrawal))
    | None => (st, ServerError)
    end in
  match Withdrawal_latest st userId with
  | Some latest =>
      if inProgress latest
      then (st, ExistingInProgress (w_id latest) (previewOf latest) (w_stage latest) (w_status
          latest))
      else create
  | None => create
  end.

Definition createPreview (st : State) (userId : Id) (method : string)
    (details : option Object) (newId : Id) (now : Time) : State * Response :=
  match User_findById st userId with
  | None => (st, UserNotFound)
  | Some user =>
      if (u_balance user <? 1)%float then (st, InsufficientBalance)
      else if negb (u_timerActive user) then (st, TimerInactive)
      else resumeOrCreate st userId user method details newId now
  end.

Definition isUSA (country : string) : bool :=
  JS.truthy country &&
  let c := JS.toLowerCase country in
  String.eqb c "united states" || String.eqb c "united states of america"
  || String.eqb c "usa" || String.eqb c "us".

Definition isCanada (country : string) : bool :=
  JS.truthy country && JS.includes (JS.toLowerCase country) "canada".

(** [details.k], the empty string when [details] or the field is missing. *)
Definition field (details : option Object) (k : string) : string :=
  match details with
  | Some o => default "" (o !! k)
  | None => ""
  end.

(** The method and details checks of withdrawRequest: the message of the
    400 response, or [None] when they pass. *)
Definition validateRequest (country method : string) (details : option Object)
  : option string :=
  let has k := JS.truthy (field details k) in
  if negb (isUSA country) && negb (isCanada country) && negb (String.eqb method "crypto")
  then Some "Only cryptocurrency withdrawals are available for your country."
  else if String.eqb method "crypto" then
    if negb (has "crypto" && has "walletAddress")
    then Some "Crypto type and wallet address are required for cryptocurrency withdrawals."
    else None
  else if String.eqb method "bank" then
    if isUSA country then
      if negb (has "bankName" && has "bankAddress" && has "routingNumber"
               && has "beneficiaryName" && has "accountNumber" && has "accountType"
               && has "beneficiaryAddress")
      then Some "Missing required USA bank transfer fields."
      else if negb (JS.all_digits 9 (field details "routingNumber"))
      then Some "Routing Number must be 9 digits."
      else if negb (String.eqb (JS.toLowerCase (field details "accountType")) "checking"
                    || String.eqb (JS.toLowerCase (field details "accountType")) "savings")
      then Some "Account type must be checking or savings."
      else None
    else if isCanada country then
      if negb (has "transitNumber" && has "institutionNumber" && has "accountNumber"
               && has "beneficiaryName")
      then Some "Missing required Canada bank transfer fields."
      else if negb (JS.all_digits 5 (field details "transitNumber"))
      then Some "Transit Number must be 5 digits."
      else if negb (JS.all_digits 3 (field details "institutionNumber"))
      then Some "Institution Number must be 3 digits."
      else None
    else Some "Bank transfers not supported for your country."
  else if String.eqb method "stripe" then
    if negb (has "email") then Some "Email required for Stripe withdrawals." else None
  else Some "Invalid withdrawal method.".

Definition withdrawRequest (st : State) (userId : Id) (method : string)
    (details : option Object) (newId : Id) (now : Time) : State * Response :=
  match User_findById st userId with
  | None => (st, UserNotFound)
  | Some user =>
      if (u_balance user <? 1)%float then (st, InsufficientBalance)
      else if negb (u_timerActive user) then (st, TimerInactive)
      else match validateRequest (u_country user) method details with
           | Some message => (st, Err 400 message)
           | None => resumeOrCreate st userId user method details newId now
           end
  end.

(** ** proceedWithdraw (withdrawalController) and withdrawProceed (authController) *)

(** [findById(id).populate('user')]: a withdrawal whose user is gone has
    [user = null], and reading [withdrawal.user._id] throws. *)
Definition proceedWithdraw (st : State) (userId id : Id) : State * Response :=
  match Withdrawal_findById st id with
  | None => (st, WithdrawalNotFound)
  | Some withdrawal =>
      match User_findById st (w_user withdrawal) with
      | None => (st, ServerError)
      | Some _ =>
          if negb (String.eqb (w_user withdrawal) userId) then (st, Forbidden)
          else (Withdrawal_save st (withdrawal_with_status withdrawal pending_activation),
                ProceedRecorded)
      end
  end.

(** [let amount = 0; if (w.stage === 'tax') amount = ...user.balance...]:
    [None] when the balance of a missing user is read. *)
Definition proceedAmount (w : Withdrawal) (user : option User) : option float :=
  if bool_decide (w_stage w = tax)
  then (fun u => taxAmount (u_balance u)) <$> user
  else Some 0%float.

(** The latest withdrawal when it is to be resumed in place of [id]. *)
Definition resumable (st : State) (userId id : Id) : option Withdrawal :=
  match Withdrawal_latest st userId with
  | Some latest =>
      if negb (String.eqb (w_id latest) id) && inProgress latest then Some latest else None
  | None => None
  end.

Definition withdrawProceed (st : State) (userId id : Id) : State * Response :=
  match resumable st userId id with
  | Some latest =>
      match proceedAmount latest (User_findById st userId) with
      | Some amount =>
          (st, ProceedResumed (w_id latest) (w_stage latest) (w_status latest) amount)
      | None => (st, ServerError)
      end
  | None =>
      match Withdrawal_findById st id with
      | None => (st, WithdrawalNotFound)
      | Some withdrawal =>
          if negb (String.eqb (w_user withdrawal) userId) then (st, Forbidden)
          else
            let withdrawal' := withdrawal_with_status withdrawal pending_activation in
            let st' := Withdrawal_save st withdrawal' in
            match proceedAmount withdrawal' (User_findById st' userId) with
            | Some amount =>
                (st', ProceedRecordedFor (w_id withdrawal') (w_stage withdrawal')
                        (w_status withdrawal') amount)
            | None => (st', ServerError)
            end
      end
  end.

(** ** Payment ingestion: submitStagePayment (withdrawalController) and
       submitActivationPayment (paymentController) *)

(** [a || b] on strings. *)
Definition or_else (a b : string) : string := if JS.truthy a then a else b.

(** [filesByField[field][0]]: the first file of [req.files] with that
    field name. *)
Definition fileOf (files : list UploadedFile) (fieldname : string) : option UploadedFile :=
  List.find (fun f => String.eqb (f_fieldname f) fieldname) files.

(** The first of the field names that has a file. *)
Fixpoint firstFileOf (files : list UploadedFile) (fields : list string)
  : option UploadedFile :=
  match fields with
  | [] => None
  | fieldname :: rest =>
      match fileOf files fieldname with
      | Some f => Some f
      | None => firstFileOf files rest
      end
  end.

(** [savedFile]: the upload is tried when there is a file, and a failed
    upload leaves [null].  [full] tells the seven fields of
    withdrawalController from the four of paymentController. *)
Definition savedFile (full : bool) (upload : UploadedFile -> option CloudinaryResult)
    (file : option UploadedFile) : option SavedFile :=
  match file with
  | Some f =>
      match upload f with
      | Some cloudinaryResult =>
          Some {| sf_filename := f_originalname f;
                  sf_originalname := f_originalname f;
                  sf_url := cr_secure_url cloudinaryResult;
                  sf_public_id := cr_public_id cloudinaryResult;
                  sf_mimetype := if full then Some (f_mimetype f) else None;
                  sf_size := if full then Some (f_size f) else None;
                  sf_displayName := if full then Some (f_originalname f) else None |}
      | None => None
      end
  | None => None
  end.

(** [`cards[${i}][${k}]`] *)
Definition cardField (i : nat) (k : string) : string :=
  "cards[" ++ pretty i ++ "][" ++ k ++ "]".

(** [notifications.push] and [save()] on every user with
    [role: 'admin']. *)
Definition notifyAdmins (st : State) (text : string) (now : Time) : State :=
  {| users :=
       (fun a => if String.eqb (u_role a) "admin"
                 then stored (load (push_notification a text now)) else a)
         <$> users st;
     withdrawals := withdrawals st |}.

(** [${stage}] for a field that may be undefined. *)
Definition shown (o : option string) : string := default "undefined" o.

Definition submissionText (username stage : string) (cards : list Card) : string :=
  "User " ++ username ++ " submitted " ++ stage ++ " payment with "
  ++ pretty (length cards) ++ " gift card(s).".

(** What [withdrawal.payments.push(paymentSubmission)] stores of
    [{ method, stage, amount: Number(amount) || 0, details: { cards },
    cards, createdAt: new Date(), status: 'submitted' }]. *)
Definition stageSubmission (stage : option string) (amount : float)
    (cards : list Card) (now : Time) : PaymentSubmission :=
  {| p_stage := stage; p_amount := JS.or_zero amount; p_cards := cards;
     p_createdAt := now; p_status := "submitted" |}.

(** What [user.payments.push({ ...paymentSubmission, withdrawal })] stores
    of it. *)
Definition stagePayment (method : string) (cards : list Card) (now : Time) : Payment :=
  {| pm_method := method; pm_details := CardsDetails cards; pm_createdAt := now;
     pm_status := "submitted" |}.

(** [qs.parse(req.body)] as submitStagePayment reads it: [pb_amount] is
    [Number(amount)], [pb_cardsCount] is [Number(cardsCount || 0)] for a
    whole number, [pb_cards] the entries of [parsedBody.cards] by index. *)
Record ParsedBody := {
  pb_withdrawalId : Id;
  pb_stage : option string;
  pb_amount : float;
  pb_cardsCount : Z;
  pb_method : string;
  pb_cards : gmap nat Object;
  pb_giftCard : string;
  pb_pin : string
}.

(** One pass of the loop body for index [i] of submitStagePayment. *)
Definition stageCardAt (upload : UploadedFile -> option CloudinaryResult)
    (pb : ParsedBody) (files : list UploadedFile) (i : nat) (cards : list Card)
  : list Card :=
  match pb_cards pb !! i with
  | Some cardData =>
      cards ++ [{| c_giftCard := or_else (field (Some cardData) "giftCard") "Steam";
                   c_pin := field (Some cardData) "pin";
                   c_file := savedFile true upload (fileOf files (cardField i "file")) |}]
  | None => cards
  end.

(** [for (let i = ...; i < count; i++) body]: [remaining] passes from [i]. *)
Fixpoint forLoop (body : nat -> list Card -> list Card) (i remaining : nat)
    (cards : list Card) : list Card :=
  match remaining with
  | O => cards
  | S remaining' => forLoop body (S i) remaining' (body i cards)
  end.

Definition stageSingleCard (upload : UploadedFile -> option CloudinaryResult)
    (pb : ParsedBody) (files : list UploadedFile) : Card :=
  let first := pb_cards pb !! 0%nat in
  {| c_giftCard := or_else (field first "giftCard") (or_else (pb_giftCard pb) "Steam");
     c_pin := or_else (field first "pin") (pb_pin pb);
     c_file := savedFile true upload
                 (firstFileOf files ["file"; "giftImage"; "cardImage"; "image"]) |}.

Definition stageCards (upload : UploadedFile -> option CloudinaryResult)
    (pb : ParsedBody) (files : list UploadedFile) : list Card :=
  if (0 <? pb_cardsCount pb)%Z
  then forLoop (stageCardAt upload pb files) 0 (Z.to_nat (pb_cardsCount pb)) []
  else [stageSingleCard upload pb files].

Definition submitStagePayment (st : State) (userId : Id) (pb : ParsedBody)
    (files : list UploadedFile) (upload : UploadedFile -> option CloudinaryResult)
    (now : Time) : State * Response :=
  match Withdrawal_findById st (pb_withdrawalId pb) with
  | None => (st, WithdrawalNotFound)
  | Some withdrawal =>
      match User_findById st (w_user withdrawal) with
      | None => (st, ServerError)
      | Some _ =>
          if negb (String.eqb (w_user withdrawal) userId) then (st, Forbidden)
          else
            let cards := stageCards upload pb files in
            let st1 :=
              Withdrawal_save st
                (withdrawal_with_payments withdrawal
                   (w_payments withdrawal
                    ++ [stageSubmission (pb_stage pb) (pb_amount pb) cards now])) in
            match User_findById st1 userId with
            | None => (st1, ServerError)
            | Some user =>
                let st2 :=
                  User_save st1 userId
                    (user_with_payments user
                       (u_payments user
                        ++ [stagePayment (or_else (pb_method pb) "giftcard") cards now])) in
                (notifyAdmins st2
                   (submissionText (u_username user) (shown (pb_stage pb)) cards) now,
                 Submitted)
            end
      end
  end.

(** [req.body] as submitActivationPayment gets it: [ab_fields] are its
    other top-level properties that are strings, with [ab_amount] for
    [Number(amount)] and [ab_cardsCount] for
    [Number(req.body['cardsCount'] || 0)].  The body parser of the route
    is multer, which nests a field that the form names [cards[i][k]]: it
    is property [k] of entry [i] of [req.body.cards], here [ab_cards],
    and no top-level property.  The handler looks such a field up at the
    top level, under its bracketed name, where only a body that was sent
    as JSON can have it. *)
Record ActivationBody := {
  ab_method : string;
  ab_withdrawalId : Id;
  ab_stage : string;
  ab_amount : float;
  ab_cardsCount : Z;
  ab_fields : Object;
  ab_cards : gmap nat Object
}.

(** One pass of the loop body for index [i] of submitActivationPayment. *)
Definition activationCardAt (upload : UploadedFile -> option CloudinaryResult)
    (body : ActivationBody) (files : list UploadedFile) (i : nat) (cards : list Card)
  : list Card :=
  let get k := field (Some (ab_fields body)) k in
  cards ++ [{| c_giftCard :=
                 or_else (get (cardField i "giftCard"))
                   (or_else (get (cardField i "gift")) "Steam");
               c_pin := get (cardField i "pin");
               c_file := savedFile false upload (fileOf files (cardField i "file")) |}].

Definition activationSingleCard (upload : UploadedFile -> option CloudinaryResult)
    (body : ActivationBody) (files : list UploadedFile) : Card :=
  let get k := field (Some (ab_fields body)) k in
  let file :=
    match firstFileOf files ["file"; "giftImage"; "cardImage"; "image"; "upload"] with
    | Some f => Some f
    | None => head files
    end in
  {| c_giftCard := or_else (get "giftCard") (or_else (get "cardType") "Steam");
     c_pin := or_else (get "cardPin") (get "pin");
     c_file := savedFile false upload file |}.

Definition activationCards (upload : UploadedFile -> option CloudinaryResult)
    (body : ActivationBody) (files : list UploadedFile) : list Card :=
  if (0 <? ab_cardsCount body)%Z
  then forLoop (activationCardAt upload body files) 0 (Z.to_nat (ab_cardsCount body)) []
  else [activationSingleCard upload body files].

(** The branch [if (withdrawalId || stage) { ... }]. *)
Definition stagePaymentFlow (st : State) (userId : Id) (user : User)
    (body : ActivationBody) (files : list UploadedFile)
    (upload : UploadedFile -> option CloudinaryResult) (now : Time) : State * Response :=
  match Withdrawal_findById st (ab_withdrawalId body) with
  | None => (st, WithdrawalNotFound)
  | Some withdrawal =>
      if negb (String.eqb (w_user withdrawal) userId) then (st, Forbidden)
      else
        let cards := activationCards upload body files in
        let stage := or_else (ab_stage body) "activation" in
        let st1 :=
          Withdrawal_save st
            (withdrawal_with_payments withdrawal
               (w_payments withdrawal
                ++ [stageSubmission (Some stage) (ab_amount body) cards now])) in
        let st2 :=
          User_save st1 userId
            (user_with_payments user
               (u_payments user ++ [stagePayment "giftcard" cards now])) in
        (notifyAdmins st2 (submissionText (u_username user) stage cards) now, Submitted)
  end.

(** The legacy single activation payment; of the [cards] of the payment
    the stored entry keeps the copy inside [details]. *)
Definition legacyPaymentFlow (st : State) (userId : Id) (user : User)
    (body : ActivationBody) (files : list UploadedFile)
    (upload : UploadedFile -> option CloudinaryResult) (now : Time) : State * Response :=
  let get k := field (Some (ab_fields body)) k in
  let method := ab_method body in
  let record (details : PaymentDetails) :=
    let payment :=
      {| pm_method := method; pm_details := details; pm_createdAt := now;
         pm_status := "submitted" |} in
    let st1 := User_save st userId (user_with_payments user (u_payments user ++ [payment])) in
    (notifyAdmins st1
       ("User " ++ u_username user ++ " submitted an activation payment via " ++ method ++ ".")
       now,
     PaymentSubmitted) in
  if negb (JS.truthy method) then (st, Err 400 "Payment method required")
  else if String.eqb method "giftcard" then
    let cardType := or_else (get "cardType") (or_else (get "giftCard") "Steam") in
    let cardPin := or_else (get "cardPin") (get "pin") in
    let file :=
      match firstFileOf files ["giftImage"; "file"] with
      | Some f => Some f
      | None => head files
      end in
    let saved := savedFile false upload file in
    let cards := [{| c_giftCard := cardType; c_pin := cardPin; c_file := saved |}] in
    record (GiftcardDetails cardType cardPin
              (match saved with Some f => sf_url f | None => "No image uploaded" end) cards)
  else if String.eqb method "crypto" then
    record (CryptoDetails (get "crypto") (get "walletAddress"))
  else if String.eqb method "bank" then
    record (BankDetails (get "bankName") (get "accountNumber") (get "firstName")
              (get "lastName") (get "email"))
  else (st, Err 400 "Unknown payment method").

Definition submitActivationPayment (st : State) (userId : Id) (body : ActivationBody)
    (files : list UploadedFile) (upload : UploadedFile -> option CloudinaryResult)
    (now : Time) : State * Response :=
  if negb (JS.truthy userId) then (st, Err 401 "Unauthorized")
  else
    match User_findById st userId with
    | None => (st, UserNotFound)
    | Some user =>
        if JS.truthy (ab_withdrawalId body) || JS.truthy (ab_stage body)
        then stagePaymentFlow st userId user body files upload now
        else legacyPaymentFlow st userId user body files upload now
    end.

(** ** Administration: adminApprove (withdrawalController), approveWithdrawal,
       setPinForUser and notifyUser (adminController) *)

Definition approvedText (id : Id) : string := "Your withdrawal " ++ id ++ " was approved.".

(** [findById(id).populate('user')] leaves [user = null] when the user is
    gone, and [withdrawal.user._id] then throws, after the status has
    been stored. *)
Definition adminApprove (st : State) (id : Id) (now : Time) : State * Response :=
  match Withdrawal_findById st id with
  | None => (st, Err 404 "Not found")
  | Some withdrawal =>
      let populated := User_findById st (w_user withdrawal) in
      let st1 := Withdrawal_save st (withdrawal_with_status withdrawal approved) in
      match populated with
      | None => (st1, ServerError)
      | Some _ =>
          match User_findById st1 (w_user withdrawal) with
          | None => (st1, Err 404 "User not found while approving")
          | Some u =>
              (User_save st1 (w_user withdrawal)
                 (push_notification
                    (user_with_wallet u 0%float (u_timerActive u) (u_timerEnds u))
                    (approvedText (w_id withdrawal)) now),
               WithdrawalApproved)
          end
      end
  end.

(** The same without the check of [u], and with the withdrawal saved once
    more at the end. *)
Definition approveWithdrawal (st : State) (id : Id) (now : Time) : State * Response :=
  match Withdrawal_findById st id with
  | None => (st, Err 404 "Not found")
  | Some withdrawal =>
      let populated := User_findById st (w_user withdrawal) in
      let approved' := withdrawal_with_status withdrawal approved in
      let st1 := Withdrawal_save st approved' in
      match populated, User_findById st1 (w_user withdrawal) with
      | Some _, Some u =>
          let st2 :=
            User_save st1 (w_user withdrawal)
              (push_notification
                 (user_with_wallet u 0%float (u_timerActive u) (u_timerEnds u))
                 (approvedText (w_id withdrawal)) now) in
          (Withdrawal_save st2 approved', WithdrawalApproved)
      | _, _ => (st1, ServerError)
      end
  end.

Definition setPinForUser (st : State) (userId : Id) (stage pin : string) (now : Time)
  : State * Response :=
  if negb (JS.truthy stage) || negb (JS.truthy pin)
  then (st, Err 400 "stage and pin required")
  else
    match User_findById st userId with
    | None => (st, UserNotFound)
    | Some user =>
        let document := load user in
        let pins :=
          <[stage := {| pr_pin := pin; pr_set := true; pr_setAt := now;
                        pr_discoveredFromNotification := None |}]>
            (d_activationPins document) in
        (Document_save st userId
           (holding (holding_pins document pins)
              (push_notification user ("Your " ++ stage ++ " pin is: " ++ pin) now)),
         PinSet)
    end.

Definition notifyUser (st : State) (userId : Id) (text : string) (now : Time)
  : State * Response :=
  match User_findById st userId with
  | None => (st, UserNotFound)
  | Some user => (User_save st userId (push_notification user text now), NotificationSent)
  end.

(** ** dashboard (authController) *)

(** [user.timerActive && user.timerEnds && user.timerEnds <= Date.now()] *)
Definition timerExpired (user : User) (now : Time) : bool :=
  u_timerActive user &&
  match u_timerEnds user with
  | Some ends => (ends <=? now)%Z
  | None => false
  end.

Definition dashboard (st : State) (userId : Id) (role : string) (now : Time)
  : State * Response :=
  if String.eqb role "admin" then (st, Err 403 "Admins use admin panel")
  else
    match User_findById st userId with
    | None => (st, UserNotFound)
    | Some user =>
        let user' := if timerExpired user now then user_with_wallet user 0%float false None
                     else user in
        let st' := if timerExpired user now then User_save st userId user' else st in
        (st', Dashboard (u_username user') (u_balance user') (u_timerActive user')
                (u_timerEnds user') (u_notifications user') (u_country user'))
    end.

(** ** The exposed operations *)

Inductive Request :=
| CreatePreview (userId : Id) (method : string) (details : option Object) (newId : Id)
| WithdrawRequest (userId : Id) (method : string) (details : option Object) (newId : Id)
| ProceedWithdraw (userId id : Id)
| WithdrawProceed (userId id : Id)
| SubmitStagePayment (userId : Id) (pb : ParsedBody) (files : list UploadedFile)
    (upload : UploadedFile -> option CloudinaryResult)
| SubmitActivationPayment (userId : Id) (body : ActivationBody) (files : list UploadedFile)
    (upload : UploadedFile -> option CloudinaryResult)
| ConfirmStagePin (userId withdrawalId : Id) (stage pin : string)
| AdminApprove (id : Id)
| ApproveWithdrawal (id : Id)
| SetPinForUser (userId : Id) (stage pin : string)
| NotifyUser (userId : Id) (text : string)
| GetDashboard (userId : Id) (role : string).

(** One request served at time [now], by its handler.  A validator in
    front of a handler only turns requests away; the one of
    submitActivationPayment is in [Validators]. *)
Definition handle (st : State) (now : Time) (req : Request) : State * Response :=
  match req with
  | CreatePreview userId method details newId =>
      createPreview st userId method details newId now
  | WithdrawRequest userId method details newId =>
      withdrawRequest st userId method details newId now
  | ProceedWithdraw userId id => proceedWithdraw st userId id
  | WithdrawProceed userId id => withdrawProceed st userId id
  | SubmitStagePayment userId pb files upload =>
      submitStagePayment st userId pb files upload now
  | SubmitActivationPayment userId body files upload =>
      submitActivationPayment st userId body files upload now
  | ConfirmStagePin userId withdrawalId stage pin =>
      confirmStagePin st userId withdrawalId stage pin now
  | AdminApprove id => adminApprove st id now
  | ApproveWithdrawal id => approveWithdrawal st id now
  | SetPinForUser userId stage pin => setPinForUser st userId stage pin now
  | NotifyUser userId text => notifyUser st userId text now
  | GetDashboard userId role => dashboard st userId role now
  end.

(** A sequence of requests, each with its time. *)
Fixpoint run (st : State) (reqs : list (Time * Request)) : State :=
  match reqs with
  | [] => st
  | (now, req) :: rest => run (fst (handle st now req)) rest
  end.

(** The states the handlers can reach from [init]. *)
Definition reachable (init st : State) : Prop := exists reqs, run init reqs = st.

End Handlers.

(** ** The request sanitizers (server.js) *)

Module Sanitizer.

(** A parsed body: what [express.json()] and [express.urlencoded()] leave
    in [req.body].  An object is the list of its own properties in the
    order of [Object.keys]. *)
#[local] Unset Elimination Schemes.
Inductive Value :=
| VNull
| VBool (b : bool)
| VNumber (x : float)
| VString (s : string)
| VArray (elements : list Value)
| VObject (properties : list (string * Value)).
#[local] Set Elimination Schemes.

(** The object literal of [escapeHtml]: the replacement of each of the
    eight characters of its character class, the ampersand, the angle
    brackets, the two quotes, the slash, the backtick and the equals
    sign. *)
Definition entity (c : ascii) : option string :=
  match c with
  | "&"%char => Some "&amp;"
  | "<"%char => Some "&lt;"
  | ">"%char => Some "&gt;"
  | "034"%char => Some "&quot;"
  | "'"%char => Some "&#39;"
  | "/"%char => Some "&#x2F;"
  | "`"%char => Some "&#x60;"
  | "="%char => Some "&#x3D;"
  | _ => None
  end.

(** [str.replace(/[...]/g, (s) => ({ ... })[s])]: every character of the
    class is replaced by its entity. *)
Fixpoint escapeHtml (str : string) : string :=
  match str with
  | EmptyString => ""
  | String c rest => default (String c "") (entity c) ++ escapeHtml rest
  end.

(** [key.startsWith('$') || key.indexOf('.') !== -1] *)
Definition isOperatorKey (key : string) : bool :=
  JS.prefix_of (JS.chars "$") (JS.chars key) || JS.includes key ".".

(** [removeMongoOperatorKeysInPlace(obj)]: the value that [obj] holds
    afterwards.  Anything that is no object or array is left alone. *)
Fixpoint removeMongoOperatorKeysInPlace (obj : Value) : Value :=
  match obj with
  | VArray elements => VArray (map removeMongoOperatorKeysInPlace elements)
  | VObject properties =>
      VObject
        (flat_map
           (fun property =>
              match property with
              | (key, val) =>
                  if isOperatorKey key then []
                  else [(key, removeMongoOperatorKeysInPlace val)]
              end)
           properties)
  | _ => obj
  end.

(** [sanitizeStringsInPlace(obj)]: the value that [obj] holds afterwards.
    A string is escaped where it is an element or the value of a
    property; a string that is passed itself is returned as it is. *)
Fixpoint sanitizeStringsInPlace (obj : Value) : Value :=
  match obj with
  | VArray elements =>
      VArray (map (fun el => match el with
                             | VString s => VString (escapeHtml s)
                             | _ => sanitizeStringsInPlace el
                             end) elements)
  | VObject properties =>
      VObject (map (fun property =>
                      match property with
                      | (key, val) =>
                          (key, match val with
                                | VString s => VString (escapeHtml s)
                                | _ => sanitizeStringsInPlace val
                                end)
                      end) properties)
  | _ => obj
  end.

(** The combined middleware on [req.body]: the operator keys go first,
    then the strings are escaped. *)
Definition sanitizeBody (body : Value) : Value :=
  sanitizeStringsInPlace (removeMongoOperatorKeysInPlace body).

(** Induction on a value and on the values inside it. *)
Section Value_ind.
Variable P : Value -> Prop.
Hypothesis HNull : P VNull.
Hypothesis HBool : forall b, P (VBool b).
Hypothesis HNumber : forall x, P (VNumber x).
Hypothesis HString : forall s, P (VString s).
Hypothesis HArray : forall elements, Forall P elements -> P (VArray elements).
Hypothesis HObject : forall properties,
  Forall (fun property => P (snd property)) properties -> P (VObject properties).

Fixpoint Value_ind (v : Value) : P v :=
  match v with
  | VNull => HNull
  | VBool b => HBool b
  | VNumber x => HNumber x
  | VString s => HString s
  | VArray elements =>
      HArray elements
        ((fix all (l : list Value) : Forall P l :=
            match l with
            | [] => @List.Forall_nil _ P
            | x :: l' => @List.Forall_cons _ P x l' (Value_ind x) (all l')
            end) elements)
  | VObject properties =>
      HObject properties
        ((fix all (l : list (string * Value))
            : Forall (fun property => P (snd property)) l :=
            match l with
            | [] => @List.Forall_nil _ _
            | x :: l' =>
                @List.Forall_cons _ (fun property => P (snd property)) x l'
                  (Value_ind (snd x)) (all l')
            end) properties)
  end.
End Value_ind.

End Sanitizer.

(** ** Authentication (middleware/auth.js) and the two approval routes *)

Module Auth.

(** [s.split(sep)] for a separator of one character. *)
Fixpoint split (sep : ascii) (s : string) : list string :=
  match s with
  | EmptyString => [""]
  | String c rest =>
      if Ascii.eqb c sep then "" :: split sep rest
      else match split sep rest with
           | word :: words => String c word :: words
           | [] => [String c ""]
           end
  end.

(** What the handlers read of a verified token: [payload.id],
    [payload.role], and whether [payload.admin] is truthy. *)
Record Payload := {
  jw_id : option Id;
  jw_role : option string;
  jw_admin : bool
}.

Section Routes.

Variable minimize : bool.

(** [jwt.verify(token, process.env.secret_key)], [None] when it throws;
    the token is [undefined] for a header without a space. *)
Variable verify : option string -> option Payload.

(** [req.user] when [next()] is called, the response otherwise. *)
Definition authenticate (authorization : option string) : Response + Payload :=
  match authorization with
  | None => inl (Err 401 "No token provided")
  | Some auth =>
      if negb (JS.truthy auth) then inl (Err 401 "No token provided")
      else match verify (split " " auth !! 1%nat) with
           | Some payload => inr payload
           | None => inl (Err 401 "Invalid token")
           end
  end.

Definition adminAuth (authorization : option string) : Response + Payload :=
  match authorization with
  | None => inl (Err 401 "No token provided")
  | Some auth =>
      if negb (JS.truthy auth) then inl (Err 401 "No token provided")
      else match verify (split " " auth !! 1%nat) with
           | Some payload =>
               if bool_decide (jw_role payload = Some "admin") || jw_admin payload
               then inr payload
               else inl (Err 403 "Admin only")
           | None => inl (Err 401 "Invalid token")
           end
  end.

(** routes/withdrawalRoutes.js:
    [router.post('/:id/admin-approve', authenticate, withdrawCtrl.adminApprove)] *)
Definition withdraw_adminApprove (st : State) (authorization : option string) (id : Id)
    (now : Time) : State * Response :=
  match authenticate authorization with
  | inl response => (st, response)
  | inr _ => adminApprove minimize st id now
  end.

(** routes/adminRoutes.js: [router.use(adminAuth)] and
    [router.post('/withdrawals/:id/approve', adminController.approveWithdrawal)] *)
Definition admin_approveWithdrawal (st : State) (authorization : option string) (id : Id)
    (now : Time) : State * Response :=
  match adminAuth authorization with
  | inl response => (st, response)
  | inr _ => approveWithdrawal minimize st id now
  end.

End Routes.

End Auth.

(** ** Administration of users: editUser and deleteUser (adminController) *)

Module Admin.

(** What the two handlers send: a status and a message. *)
Record Reply := {
  r_status : nat;
  r_message : string
}.

Section Administration.

Variable minimize : bool.

Variable engine : string -> option (string -> option string).

(** [`${user.balance}`], the decimal text of a Number. *)
Variable numberToString : float -> string.

(** [balance] is [Some] when [typeof req.body.balance === 'number'];
    [action] is compared with the two names only. *)
Definition editUser (st : State) (id : Id) (balance : option float) (action : string)
    (now : Time) : State * Reply :=
  match User_findById st id with
  | None => (st, {| r_status := 404; r_message := "User not found" |})
  | Some user =>
      let user1 :=
        match balance with
        | Some b => user_with_wallet user b (u_timerActive user) (u_timerEnds user)
        | None => user
        end in
      let user2 :=
        if String.eqb action "startTimer"
        then user_with_wallet user1 (u_balance user1) true
               (Some (now + 24 * 60 * 60 * 1000)%Z)
        else if String.eqb action "stopTimer"
        then user_with_wallet user1 0%float false None
        else user1 in
      (User_save minimize st id
         (push_notification user2
            ("Your wallet balance has been credited: balance is $"
             ++ numberToString (u_balance user2) ++ ". Timer active: "
             ++ (if u_timerActive user2 then "true" else "false")) now),
       {| r_status := 200; r_message := "User updated" |})
  end.

(** [Withdrawal.deleteMany({ user: user._id })] and
    [User.deleteOne({ _id: user._id })] *)
Definition deleteUser (st : State) (id : Id) : State * Reply :=
  match User_findById st id with
  | None => (st, {| r_status := 404; r_message := "User not found" |})
  | Some user =>
      ({| users := delete id (users st);
          withdrawals :=
            List.filter (fun w => negb (String.eqb (w_user w) id)) (withdrawals st) |},
       {| r_status := 200; r_message := "User deleted" |})
  end.

(** *** Every operation on the two collections *)

Inductive Operation :=
| Flow (req : Request)
| EditUser (id : Id) (balance : option float) (action : string)
| DeleteUser (id : Id).

Definition serve (st : State) (now : Time) (op : Operation) : State :=
  match op with
  | Flow req => fst (handle minimize engine st now req)
  | EditUser id balance action => fst (editUser st id balance action now)
  | DeleteUser id => fst (deleteUser st id)
  end.

Fixpoint serveAll (st : State) (ops : list (Time * Operation)) : State :=
  match ops with
  | [] => st
  | (now, op) :: rest => serveAll (serve st now op) rest
  end.

End Administration.

End Admin.

(** ** Accounts: register and login (authController) and the pre-save hook
       (models/User.js) *)

Module Accounts.
Import Auth.

(** [String.prototype.trim]: below 256 the white space and the line
    terminators are the characters of [\s]. *)
Fixpoint trimStart (l : list ascii) : list ascii :=
  match l with
  | c :: l' => if JS.is_space c then trimStart l' else l
  | [] => []
  end.

Definition trim (s : string) : string :=
  JS.str (rev (trimStart (rev (trimStart (JS.chars s))))).

(** [if (!u) return ''; return String(u).trim().toLowerCase()] *)
Definition normalizeUsername (u : string) : string :=
  if negb (JS.truthy u) then "" else JS.toLowerCase (trim u).

(** The hook of [UserSchema.pre('save')] on [username] and on [email]. *)
Definition preSave (isModified : bool) (value : string) : string :=
  if isModified && JS.truthy value then JS.toLowerCase (trim value) else value.

(** [(password.length >= 8) + /[A-Z]/.test(password) + /[0-9]/.test(password)
     + /[^A-Za-z0-9]/.test(password)] *)
Definition pwScore (password : string) : nat :=
  Nat.b2n (8 <=? String.length password)%nat
  + Nat.b2n (existsb (JS.between 65 90) (JS.chars password))
  + Nat.b2n (existsb JS.is_digit (JS.chars password))
  + Nat.b2n (existsb (fun c => negb (JS.between 65 90 c || JS.between 97 122 c
                                     || JS.is_digit c))
               (JS.chars password)).

(** A document of the User collection: the fields of the withdrawal flow
    and the ones that only register and login read. *)
Record Account := {
  a_id : Id;
  a_user : User;
  a_firstName : string;
  a_lastName : string;
  a_email : string;
  a_phone : string;
  a_password : string
}.

(** [req.body] of register; a missing field is the empty string. *)
Record Registration := {
  rg_firstName : string;
  rg_lastName : string;
  rg_country : string;
  rg_email : string;
  rg_phone : string;
  rg_username : string;
  rg_password : string
}.

Inductive AuthResponse :=
| AuthErr (code : nat) (message : string)
| Registered (token role : string)
| AdminLogin (token : string)
| LoggedIn (token role : string).

Section Accounts.

(** [process.env.ADMIN_USERNAME] and [process.env.ADMIN_PASSWORD] *)
Variable ADMIN_USERNAME ADMIN_PASSWORD : option string.

(** [jwt.sign(payload, process.env.secret_key, { expiresIn: '7d' })] *)
Variable sign : Payload -> string.

(** [bcrypt.hash(password, 10)] as it comes out for the request, and
    [bcrypt.compare]. *)
Variable hash : string -> string.
Variable compare : string -> string -> bool.

(** The unique indexes of the collection: the field that the database
    reports as duplicated when the document is inserted, if any. *)
Variable duplicateKey : list Account -> Account -> option string.

(** [User.findOne({ username })]; the documents are listed in the order
    of their insertion. *)
Definition User_findOne (accounts : list Account) (username : string) : option Account :=
  List.find (fun a => String.eqb (u_username (a_user a)) username) accounts.

Definition envAdminUsername : option string :=
  match ADMIN_USERNAME with
  | Some name => if JS.truthy name then Some (JS.toLowerCase (trim name)) else None
  | None => None
  end.

(** [envAdminUsername && normalizedUsername === envAdminUsername] *)
Definition isEnvAdmin (normalizedUsername : string) : bool :=
  match envAdminUsername with
  | Some name => JS.truthy name && String.eqb normalizedUsername name
  | None => false
  end.

(** [new User({ ... })] with the defaults of the schema, as [save()]
    stores it: the insert leaves the two empty [Mixed] objects out. *)
Definition newAccount (body : Registration) (newId : Id) (role : string) : Account :=
  {| a_id := newId;
     a_user :=
       {| u_username := preSave true (normalizeUsername (rg_username body));
          u_country := rg_country body; u_role := role;
          u_balance := 0%float; u_timerActive := false; u_timerEnds := None;
          u_notifications := []; u_payments := [];
          u_activationPins := None; u_activationStatus := None |};
     a_firstName := rg_firstName body;
     a_lastName := rg_lastName body;
     a_email := preSave true (JS.toLowerCase (trim (rg_email body)));
     a_phone := rg_phone body;
     a_password := hash (rg_password body) |}.

Definition register (accounts : list Account) (body : Registration) (newId : Id)
  : list Account * AuthResponse :=
  if negb (JS.truthy (rg_firstName body)) || negb (JS.truthy (rg_lastName body))
     || negb (JS.truthy (rg_country body)) || negb (JS.truthy (rg_email body))
     || negb (JS.truthy (rg_username body)) || negb (JS.truthy (rg_password body))
  then (accounts, AuthErr 400 "Missing required fields")
  else
    let normalizedUsername := normalizeUsername (rg_username body) in
    match User_findOne accounts normalizedUsername with
    | Some _ => (accounts, AuthErr 400 "Username already taken")
    | None =>
        if (pwScore (rg_password body) <? 3)%nat
        then (accounts, AuthErr 400 "Password not strong enough")
        else
          let role := if isEnvAdmin normalizedUsername then "admin" else "user" in
          let user := newAccount body newId role in
          match duplicateKey accounts user with
          | Some dupField => (accounts, AuthErr 400 (dupField ++ " already in use"))
          | None =>
              ((accounts ++ [user])%list,
               Registered
                 (sign {| jw_id := Some newId; jw_role := Some role; jw_admin := false |})
                 role)
          end
    end.

Definition login (accounts : list Account) (username password : string) : AuthResponse :=
  if negb (JS.truthy username) || negb (JS.truthy password)
  then AuthErr 400 "Missing credentials"
  else
    let normalizedUsername := normalizeUsername username in
    if isEnvAdmin normalizedUsername
       && match ADMIN_PASSWORD with
          | Some envAdminPassword => String.eqb password envAdminPassword
          | None => false
          end
    then AdminLogin (sign {| jw_id := None; jw_role := Some "admin"; jw_admin := true |})
    else
      match User_findOne accounts normalizedUsername with
      | None => AuthErr 400 "Invalid credentials"
      | Some user =>
          if negb (compare password (a_password user))
          then AuthErr 400 "Invalid credentials"
          else LoggedIn
                 (sign {| jw_id := Some (a_id user);
                          jw_role := Some (u_role (a_user user));
                          jw_admin := false |})
                 (u_role (a_user user))
      end.

End Accounts.

End Accounts.

(** ** The route of submitActivationPayment: activatePaymentValidator
       (middleware/validators.js, routes/authRoutes.js) *)

Module Validators.
Import Accounts.

(** The chains of activatePaymentValidator followed by handleValidation:
    the 400 with the message of the first error, or the body as the
    chains leave it, with [method] trimmed.  A field that the body does
    not have is empty for [notEmpty()]; the fields are looked up in the
    body, no cookie, header, route parameter or query parameter of the
    request having one of these names. *)
Definition activatePaymentValidator (body : ActivationBody) : Response + ActivationBody :=
  let method := trim (ab_method body) in
  let missing (k : string) := negb (JS.truthy (field (Some (ab_fields body)) k)) in
  let chosen (m : string) := String.eqb method m in
  if negb (JS.truthy method) then inl (Err 400 "Payment method required")
  else if chosen "giftcard" && missing "cardType"
  then inl (Err 400 "Card type required for giftcard")
  else if chosen "giftcard" && missing "cardPin"
  then inl (Err 400 "Card pin required for giftcard")
  else if chosen "crypto" && missing "crypto" then inl (Err 400 "Crypto type required")
  else if chosen "crypto" && missing "walletAddress"
  then inl (Err 400 "Wallet address required")
  else if chosen "bank" && missing "bankName" then inl (Err 400 "Bank name required")
  else if chosen "bank" && missing "accountNumber"
  then inl (Err 400 "Account number required")
  else inr {| ab_method := method; ab_withdrawalId := ab_withdrawalId body;
              ab_stage := ab_stage body; ab_amount := ab_amount body;
              ab_cardsCount := ab_cardsCount body; ab_fields := ab_fields body;
              ab_cards := ab_cards body |}.

Section Route.

Variable minimize : bool.

(** [r.post('/activate-payment', authenticate, upload.any(),
    activatePaymentValidator, authController.submitActivationPayment)],
    for the user that [authenticate] has let through. *)
Definition activatePayment (st : State) (userId : Id) (body : ActivationBody)
    (files : list UploadedFile) (upload : UploadedFile -> option CloudinaryResult)
    (now : Time) : State * Response :=
  match activatePaymentValidator body with
  | inl response => (st, response)
  | inr body' => submitActivationPayment minimize st userId body' files upload now
  end.

End Route.

End Validators.

(** * The specification *)

(** ** The notification pattern read declaratively *)

(** The classes of characters, written out, and the pattern as a
    relation between a text and the four digits it gives. *)
Module Pattern.
Import JS.
Local Open Scope list_scope.

Definition lower : list ascii := chars "abcdefghijklmnopqrstuvwxyz".
Definition upper : list ascii := chars "ABCDEFGHIJKLMNOPQRSTUVWXYZ".
Definition digits : list ascii := chars "0123456789".

(** The letters of Latin-1 that have two cases: U+00E0 to U+00FE without
    the division sign, and their capitals U+00C0 to U+00DE without the
    multiplication sign. *)
Definition accented_lower : list ascii := map ascii_of_nat (seq 224 23 ++ seq 248 7).
Definition accented_upper : list ascii := map ascii_of_nat (seq 192 23 ++ seq 216 7).

(** TAB, LF, VT, FF, CR, SPACE and NBSP. *)
Definition blanks : list ascii := ["009"; "010"; "011"; "012"; "013"; " "; "160"]%char.

Definition Digit (c : ascii) : Prop := c ∈ digits.

(** A word character: a letter of the alphabet, a digit or the underscore. *)
Definition Word (c : ascii) : Prop :=
  c ∈ lower \/ c ∈ upper \/ c ∈ digits \/ c = "_"%char.

(** A separator: a colon, white space or a hyphen. *)
Definition Sep (c : ascii) : Prop := c = ":"%char \/ c ∈ blanks \/ c = "-"%char.

(** Every small letter with its capital. *)
Definition cases : list (ascii * ascii) :=
  zip (lower ++ accented_lower) (upper ++ accented_upper).

(** The same character, letter case aside. *)
Definition SameLetter (a c : ascii) : Prop := a = c \/ (a, c) ∈ cases \/ (c, a) ∈ cases.

(** Equality under the [i] flag. *)
Definition ci_eq (p s : list ascii) : Prop := Forall2 SameLetter p s.

Definition is_keyword (kw : list ascii) : Prop :=
  ci_eq (chars "pin") kw \/ ci_eq (chars "code") kw \/ ci_eq (chars "is") kw.

Definition WordAt (c : option ascii) : Prop :=
  match c with
  | Some x => Word x
  | None => False
  end.

(** A word boundary: of the character before a position and the one
    after it, exactly one is a word character. *)
Definition Boundary (before after : option ascii) : Prop :=
  (WordAt before /\ ~ WordAt after) \/ (~ WordAt before /\ WordAt after).

(** After [pre], [text] holds the stage between word boundaries, at most
    25 characters that are no digits, one of the three keywords,
    separators, and the four digits [d]. *)
Definition MatchesAt (stage pre d text : list ascii) : Prop :=
  exists name g kw sp post,
    text = pre ++ name ++ g ++ kw ++ sp ++ d ++ post
    /\ ci_eq stage name
    /\ Boundary (last pre) (head (name ++ g ++ kw ++ sp ++ d ++ post))
    /\ Boundary (last (pre ++ name)) (head (g ++ kw ++ sp ++ d ++ post))
    /\ length g <= 25
    /\ Forall (fun c => ~ Digit c) g
    /\ is_keyword kw
    /\ Forall Sep sp
    /\ length d = 4
    /\ Forall Digit d.

Definition Matches (stage text d : list ascii) : Prop :=
  exists pre, MatchesAt stage pre d text.

(** The match that starts first in the text. *)
Definition FirstMatch (stage text d : list ascii) : Prop :=
  exists pre,
    MatchesAt stage pre d text
    /\ forall pre' d', MatchesAt stage pre' d' text -> length pre <= length pre'.

End Pattern.

(** ** The matcher, unfolded *)

(** What [Regex.exec] accepts, written with the tests that the matcher
    itself applies; the properties relate it to [Pattern]. *)
Module Accepted.
Import JS Regex.
Local Open Scope list_scope.

(** The character before a position: the last one of what was read, or
    the one before that. *)
Definition last_or (prev : option ascii) (pre : list ascii) : option ascii :=
  match last pre with
  | Some c => Some c
  | None => prev
  end.

Definition folded (p s : list ascii) : Prop := map canonicalize p = map canonicalize s.

Definition keyworded (kw : list ascii) : Prop :=
  folded (chars "pin") kw \/ folded (chars "code") kw \/ folded (chars "is") kw.

Definition AcceptsAt (stage pre d text : list ascii) : Prop :=
  exists name g kw sp post,
    text = pre ++ name ++ g ++ kw ++ sp ++ d ++ post
    /\ folded stage name
    /\ boundary (last pre) (name ++ g ++ kw ++ sp ++ d ++ post) = true
    /\ boundary (last_or (last pre) name) (g ++ kw ++ sp ++ d ++ post) = true
    /\ length g <= 25
    /\ forallb (fun c => negb (is_digit c)) g = true
    /\ keyworded kw
    /\ forallb is_sep sp = true
    /\ length d = 4
    /\ forallb is_digit d = true.

Definition Accepts (stage text d : list ascii) : Prop :=
  exists pre, AcceptsAt stage pre d text.

End Accepted.

(** ** The words of the specification *)

(** The element following [s] in [activation, tax, insurance,
    verification, security, access]. *)
Definition successor (s : Stage) : option Stage :=
  match s with
  | activation => Some tax
  | tax => Some insurance
  | insurance => Some verification
  | verification => Some security
  | security => Some access
  | access => None
  end.

(** The stage a request string names, if any. *)
Definition stageOfName (name : string) : option Stage :=
  List.find (fun s => String.eqb (stage_name s) name) stages.

(** The specification counts money with two decimals, here in whole
    cents.  The Number that stands for an amount of [cents] is the
    binary64 number closest to [cents / 100]. *)
Definition dollars (cents : Z) : float :=
  (PrimFloat.of_uint63 (Uint63.of_Z cents) / 100)%float.

(** [round(balance * 0.01, 2)] for a balance of [cents]: one percent of
    it is [cents / 100] cents, which is rounded to the closest whole
    cent, half a cent going up. *)
Definition onePercent (cents : Z) : Z := ((cents + 50) / 100)%Z.

(** The Fee Policy as the specification words it, in cents: the amount
    owed to enter a stage, from the stage and the balance alone. *)
Definition feePolicy (stage : option Stage) (balance : Z) : Z :=
  match stage with
  | Some tax => onePercent balance
  | Some insurance => 50000
  | Some verification => 100000
  | Some security => 200000
  | Some activation | Some access | None => 0
  end.

Module Cents.
Import Uint63.

(** The check of one balance of whole cents, in machine integers: the
    fee of the tax stage is the Number of one percent to the closest
    cent, or, when one percent ends in half a cent, of the cent below. *)
Definition closestCent (cents : Z) : bool :=
  let i := of_Z cents in
  let fee := taxAmount (of_uint63 i / 100)%float in
  let k := ((i + 50) / 100)%uint63 in
  let hit n := PrimFloat.Leibniz.eqb fee (of_uint63 n / 100)%float in
  if (i mod 100 =? 50)%uint63 then hit k || hit (k - 1)%uint63 else hit k.

(** [p] on the [n] whole numbers from [lo]. *)
Fixpoint allFrom (lo : Z) (n : positive) (p : Z -> bool) : bool :=
  match n with
  | xH => p lo
  | xO n' => allFrom lo n' p && allFrom (lo + Zpos n') n' p
  | xI n' => p lo && allFrom (lo + 1) n' p && allFrom (lo + 1 + Zpos n') n' p
  end.

End Cents.

(** [!(!stageObj || !stageObj.set)]: the stage has an issued PIN. *)
Definition pinIsSet (user : User) (stage : string) : bool :=
  match held (u_activationPins user) !! stage with
  | Some stageObj => pr_set stageObj
  | None => false
  end.


(** The [withdrawalId] of a preview response. *)
Definition returnedId (r : Response) : option Id :=
  match r with
  | ExistingInProgress withdrawalId _ _ _ => Some withdrawalId
  | PreviewCreated withdrawalId _ => Some withdrawalId
  | _ => None
  end.

(** [w'] stands where a withdrawal with its [_id] and its stage stood. *)
Definition stageKept (st : State) (w' : Withdrawal) : Prop :=
  exists w, In w (withdrawals st) /\ w_id w = w_id w' /\ w_stage w = w_stage w'.

(** What index [i] adds to the cards in submitStagePayment: one card when
    [parsedBody.cards[i]] is there, nothing otherwise. *)
Definition stageCardOf (upload : UploadedFile -> option CloudinaryResult)
    (pb : ParsedBody) (files : list UploadedFile) (i : nat) : list Card :=
  stageCardAt upload pb files i [].

(** ** What the sanitizers leave behind *)

Module Markup.
Import Sanitizer.

(** A character that [escapeHtml] rewrites. *)
Definition rewritten (c : ascii) : bool :=
  match entity c with Some _ => true | None => false end.

(** The characters of markup: the ones [escapeHtml] rewrites, the
    ampersand apart. *)
Definition markup : list ascii := ["<"; ">"; "034"; "'"; "/"; "`"; "="]%char.

Definition plain (c : ascii) : bool := negb (existsb (Ascii.eqb c) markup).

(** A text without a character of markup. *)
Definition inert (s : string) : bool := forallb plain (JS.chars s).

(** No object inside [v], at any depth, has an operator key. *)
Fixpoint keysClean (v : Value) : bool :=
  match v with
  | VArray elements => forallb keysClean elements
  | VObject properties =>
      forallb (fun property => negb (isOperatorKey (fst property)) && keysClean (snd property))
        properties
  | _ => true
  end.

(** Every string inside [v], at any depth, is inert. *)
Fixpoint stringsInert (v : Value) : bool :=
  match v with
  | VString s => inert s
  | VArray elements => forallb stringsInert elements
  | VObject properties => forallb (fun property => stringsInert (snd property)) properties
  | _ => true
  end.

(** [typeof v === 'object' && v !== null] *)
Definition isContainer (v : Value) : bool :=
  match v with VArray _ | VObject _ => true | _ => false end.

End Markup.

(** ** What a request leaves in place *)

Module Invariant.

(** [w'] is [w] as it was created: the same [_id], owner, amount, method,
    details and creation time. *)
Definition sameRequest (w w' : Withdrawal) : Prop :=
  w_id w' = w_id w /\ w_user w' = w_user w /\ w_amount w' = w_amount w
  /\ w_method w' = w_method w /\ w_details w' = w_details w
  /\ w_createdAt w' = w_createdAt w.

(** [u'] is the account [u] with a balance that was kept or set to 0. *)
Definition notCredited (u u' : User) : Prop :=
  u_username u' = u_username u /\ u_country u' = u_country u /\ u_role u' = u_role u
  /\ (u_balance u' = u_balance u \/ u_balance u' = 0%float).

(** The [_id]s of the withdrawals are distinct. *)
Definition uniqueIds (st : State) : Prop := NoDup (map w_id (withdrawals st)).

(** Every withdrawal refers to a stored user. *)
Definition owned (st : State) : Prop :=
  forall w, In w (withdrawals st) -> is_Some (users st !! w_user w).

(** The two invariants of the store. *)
Definition sound (st : State) : Prop := uniqueIds st /\ owned st.

(** [st'] holds the users of [st] and no other, none of them credited. *)
Definition usersKept (st st' : State) : Prop :=
  forall id, match users st !! id, users st' !! id with
             | Some u, Some u' => notCredited u u'
             | None, None => True
             | _, _ => False
             end.

(** [st'] holds the withdrawals of [st] as they were created, and besides
    them only withdrawals of users of [st]. *)
Definition withdrawalsKept (st st' : State) : Prop :=
  (forall w, In w (withdrawals st) ->
     exists w', In w' (withdrawals st') /\ sameRequest w w')
  /\ (forall w', In w' (withdrawals st') ->
        (exists w, In w (withdrawals st) /\ sameRequest w w')
        \/ is_Some (users st !! w_user w')).

(** [st'] follows [st]: the users are kept, and so are the withdrawals
    when the ids of [st] are distinct. *)
Definition steps (st st' : State) : Prop :=
  usersKept st st' /\ (uniqueIds st -> withdrawalsKept st st' /\ uniqueIds st').

(** The user a request of the flow is made as, [req.user.id]; the
    requests of the administration have none. *)
Definition caller (req : Request) : option Id :=
  match req with
  | CreatePreview userId _ _ _ | WithdrawRequest userId _ _ _
  | ProceedWithdraw userId _ | WithdrawProceed userId _
  | SubmitStagePayment userId _ _ _ | SubmitActivationPayment userId _ _ _
  | ConfirmStagePin userId _ _ _ | GetDashboard userId _ => Some userId
  | AdminApprove _ | ApproveWithdrawal _ | SetPinForUser _ _ _ | NotifyUser _ _ => None
  end.

(** The requests that withdrawRequest lets through: the method, what the
    country allows, and the details of the method. *)
Definition wellFormedRequest (country method : string) (details : option Object) : Prop :=
  let given k := field details k <> "" in
  (method = "crypto" /\ given "crypto" /\ given "walletAddress")
  \/ (method = "bank" /\ isUSA country = true
      /\ given "bankName" /\ given "bankAddress" /\ given "beneficiaryName"
      /\ given "accountNumber" /\ given "beneficiaryAddress"
      /\ JS.all_digits 9 (field details "routingNumber") = true
      /\ (JS.toLowerCase (field details "accountType") = "checking"
          \/ JS.toLowerCase (field details "accountType") = "savings"))
  \/ (method = "bank" /\ isCanada country = true
      /\ given "accountNumber" /\ given "beneficiaryName"
      /\ JS.all_digits 5 (field details "transitNumber") = true
      /\ JS.all_digits 3 (field details "institutionNumber") = true)
  \/ (method = "stripe" /\ (isUSA country = true \/ isCanada country = true)
      /\ given "email").

End Invariant.

(** ** The notice of setPinForUser *)

Module Notice.
Import JS Regex.

(** [`Your ${stage} pin is: ${pin}`] *)
Definition notice (s : Stage) (pin : string) : string :=
  "Your " ++ stage_name s ++ " pin is: " ++ pin.

(** The text up to the pin. *)
Definition noticeHead (s : Stage) : list ascii :=
  chars ("Your " ++ stage_name s ++ " pin is: ").

(** Whether [stage] stands somewhere in [text], letter case aside. *)
Definition occurs (stage text : list ascii) : bool :=
  existsb (fun k => bool_decide (is_Some (literal_ci stage None (drop k text))))
    (seq 0 (S (length text))).

End Notice.

(** ** The stored user names *)

Module Names.
Import Accounts.

(** The characters that [trim] keeps. *)
Definition trimmed (l : list ascii) : list ascii :=
  rev (trimStart (rev (trimStart l))).

Definition usernames (accounts : list Account) : list string :=
  map (fun a => u_username (a_user a)) accounts.

End Names.

(** ** Running examples *)

Module Scenario.

(** The examples name the six stages, which hold no pattern characters,
    so that the engine is not consulted for them, and the stage [(tax],
    which leaves a group open in the pattern: the constructor throws a
    SyntaxError for it.  The examples run with an engine that compiles
    nothing. *)
Definition engine (stage : string) : option (string -> option string) := None.

(** The examples run with a Mongoose that leaves an empty object out of
    an update. *)
Definition minimize : bool := true.

Definition alice : User :=
  {| u_username := "alice"; u_country := "Canada"; u_role := "user";
     u_balance := 10000%float; u_timerActive := true; u_timerEnds := Some 86400000%Z;
     u_notifications := []; u_payments := []; u_activationPins := None;
     u_activationStatus := None |}.

(** One registered user with a credited balance and a running timer, no
    withdrawal yet, and a document that has had neither [activationPins]
    nor [activationStatus] stored. *)
Definition init : State := {| users := {[ "u1" := alice ]}; withdrawals := [] |}.

(** The user opens a withdrawal and the administrator issues the PIN of
    the activation stage. *)
Definition issuing : list (Time * Request) :=
  [(1%Z, CreatePreview "u1" "crypto" None "w1");
   (2%Z, SetPinForUser "u1" "activation" "1111")].

Definition issued : State := run minimize engine init issuing.

(** The user document in [issued]. *)
Definition alice_issued : User :=
  push_notification
    (user_with_pins alice
       (Some {[ "activation" := {| pr_pin := "1111"; pr_set := true; pr_setAt := 2%Z;
                                   pr_discoveredFromNotification := None |} ]}))
    "Your activation pin is: 1111" 2%Z.

(** The user confirms the activation PIN, which takes the withdrawal to
    [tax]. *)
Definition taxed : State :=
  run minimize engine init (issuing ++ [(3%Z, ConfirmStagePin "u1" "w1" "activation" "1111")])%list.

(** Or the timer runs out and the dashboard is read. *)
Definition expired : State :=
  run minimize engine init (issuing ++ [(90000000%Z, GetDashboard "u1" "user")])%list.

(** The user opens a withdrawal and the administrator issues the PIN of
    the security stage instead. *)
Definition opening : list (Time * Request) :=
  [(1%Z, CreatePreview "u1" "crypto" None "w1");
   (2%Z, SetPinForUser "u1" "security" "5555")].

Definition opened : State := run minimize engine init opening.

(** The user document in [opened]. *)
Definition alice_opened : User :=
  push_notification
    (user_with_pins alice
       (Some {[ "security" := {| pr_pin := "5555"; pr_set := true; pr_setAt := 2%Z;
                                 pr_discoveredFromNotification := None |} ]}))
    "Your security pin is: 5555" 2%Z.

(** The user confirms the security PIN, which takes the withdrawal to
    [access]. *)
Definition paying : list (Time * Request) :=
  (opening ++ [(3%Z, ConfirmStagePin "u1" "w1" "security" "5555")])%list.

Definition payable : State := run minimize engine init paying.

(** The user then calls proceed on it. *)
Definition overwritten : State :=
  run minimize engine init (paying ++ [(4%Z, ProceedWithdraw "u1" "w1")])%list.

(** Or the activation PIN is issued, and then confirmed. *)
Definition reissued : State :=
  run minimize engine init (paying ++ [(4%Z, SetPinForUser "u1" "activation" "1111")])%list.

Definition regressed : State :=
  run minimize engine init (paying ++ [(4%Z, SetPinForUser "u1" "activation" "1111");
                       (5%Z, ConfirmStagePin "u1" "w1" "activation" "1111")])%list.

(** Or, with [w1] at [access], the user opens a second withdrawal. *)
Definition reopened : State :=
  run minimize engine init (paying ++ [(4%Z, CreatePreview "u1" "crypto" None "w2")])%list.

(** The administrator sends the PIN of the tax stage as a plain
    notification, without issuing it. *)
Definition notified : State :=
  run minimize engine init [(1%Z, CreatePreview "u1" "crypto" None "w1");
            (2%Z, NotifyUser "u1" "Your tax pin is: 1234")].

(** The user document in [notified]. *)
Definition alice_notified : User := push_notification alice "Your tax pin is: 1234" 2%Z.


(** Or the balance of the user is 103.50 when the activation PIN is
    issued. *)
Definition saving : State :=
  run minimize engine
    {| users := {[ "u1" := user_with_wallet alice 103.5%float true (Some 86400000%Z) ]};
       withdrawals := [] |} issuing.

(** The user holds an issued PIN for [security] and the notice of one for
    [tax], which setPinForUser has sent and not stored. *)
Definition noticed : State :=
  run minimize engine init (opening ++ [(3%Z, SetPinForUser "u1" "tax" "1234")])%list.

End Scenario.

Module Ingest.

(** A multipart form that declares two cards and carries the fields of
    the first: [method = giftcard], [cardType = Amazon], [cardPin = 9999],
    [withdrawalId = w1], [stage = activation], [amount = 50],
    [cardsCount = 2], [cards[0][giftCard] = Amazon] and
    [cards[0][pin] = 9999].  These are its top-level fields as multer
    leaves them. *)
Definition fields : Object := {[ "cardType" := "Amazon"; "cardPin" := "9999" ]}.

(** And the entries that multer nests under [cards]. *)
Definition cards : gmap nat Object :=
  {[ 0%nat := {[ "giftCard" := "Amazon"; "pin" := "9999" ]} ]}.

Definition body : ActivationBody :=
  {| ab_method := "giftcard"; ab_withdrawalId := "w1"; ab_stage := "activation";
     ab_amount := 50%float; ab_cardsCount := 2; ab_fields := fields; ab_cards := cards |}.

(** The same form after [qs.parse]. *)
Definition parsedBody : ParsedBody :=
  {| pb_withdrawalId := "w1"; pb_stage := Some "activation"; pb_amount := 50%float;
     pb_cardsCount := 2; pb_method := "giftcard"; pb_cards := cards;
     pb_giftCard := ""; pb_pin := "" |}.

Definition noUpload (f : UploadedFile) : option CloudinaryResult := None.

End Ingest.

(** ** Further examples *)

Module Office.
Import Sanitizer Auth Admin Accounts.

(** A body with operator keys and markup at two depths. *)
Definition body : Value :=
  VObject
    [("$where", VString "1"); ("name", VString "<b>Al</b>"); ("limits.max", VNumber 5);
     ("tags", VArray [VString "a=b"; VObject [("$gt", VString ""); ("note", VString "it's")]])].

(** A verifier that knows one token, of the user [u1]. *)
Definition verify (token : option string) : option Payload :=
  match token with
  | Some "t0k3n" => Some {| jw_id := Some "u1"; jw_role := Some "user"; jw_admin := false |}
  | _ => None
  end.

(** The examples credit 5000 only. *)
Definition numberToString (x : float) : string := "5000".

(** The administrator credits 5000 and starts the timer at time 1000. *)
Definition credited : State :=
  fst (editUser Scenario.minimize numberToString Scenario.init "u1" (Some 5000%float)
         "startTimer" 1000).

Definition pinOf (s : Stage) : string :=
  match s with
  | activation => "1111"
  | tax => "2222"
  | insurance => "3333"
  | verification => "4444"
  | security => "5555"
  | access => ""
  end.


(** The details of a bank transfer in Canada. *)
Definition transfer : Object :=
  {[ "transitNumber" := "12345"; "institutionNumber" := "003";
     "accountNumber" := "7788"; "beneficiaryName" := "Alice" ]}.

(** The withdrawal [w1] as createPreview stored it. *)
Definition w1 : Withdrawal := newWithdrawal "w1" "u1" 10000%float "crypto" None 1%Z.


(** Stand-ins for bcrypt, jsonwebtoken and the unique index on [email]. *)
Definition hash (password : string) : string := "salted:" ++ password.

Definition compare (password hashed : string) : bool :=
  String.eqb hashed ("salted:" ++ password).

Definition sign (payload : Payload) : string :=
  default "-" (jw_id payload) ++ "." ++ default "-" (jw_role payload).

Definition duplicateKey (accounts : list Account) (a : Account) : option string :=
  if existsb (fun x => String.eqb (a_email x) (a_email a)) accounts
  then Some "email" else None.

Definition carol : Registration :=
  {| rg_firstName := "Carol"; rg_lastName := "Jones"; rg_country := "Canada";
     rg_email := " Carol@Example.com"; rg_phone := ""; rg_username := "  Carol ";
     rg_password := "StrongP@ss1" |}.

End Office.

(** * Properties *)

(** ** The built-ins at work *)

Example exec_admin_template :
  Regex.exec "tax" "Your tax pin is: 1234" = Some "1234".
Proof. reflexivity. Qed.

Example exec_code_variant :
  Regex.exec "Security" "your SECURITY activation code - 00717 was sent" = Some "0071".
Proof. reflexivity. Qed.

Example exec_other_stage :
  Regex.exec "tax" "Your insurance pin is: 1234" = None.
Proof. reflexivity. Qed.

Example exec_inside_word :
  Regex.exec "tax" "Your taxes pin is: 1234" = None.
Proof. reflexivity. Qed.

Example exec_gap_too_long :
  Regex.exec "tax" "tax abcdefghijklmnopqrstuvwxyz code 1234" = None.
Proof. reflexivity. Qed.

Example Math_round_ties :
  JS.Math_round 2.5%float = 3%float /\ JS.Math_round (-2.5)%float = (-2)%float
  /\ JS.Math_round (-0.25)%float = (-0)%float /\ JS.Math_round 0.25%float = 0%float
  /\ JS.Math_round (-0)%float = (-0)%float /\ JS.Math_round 7%float = 7%float
  /\ JS.Math_round (-7.75)%float = (-8)%float /\ JS.Math_round 1234.5%float = 1235%float.
Proof. repeat split; reflexivity. Qed.

Example taxAmount_examples :
  taxAmount 10000%float = 100%float /\ taxAmount 1234.56%float = 12.35%float
  /\ taxAmount 0%float = 0%float /\ taxAmount 150%float = 1.5%float.
Proof. repeat split; reflexivity. Qed.

(** ** What the notification pattern matches *)

Module RegexFacts.
Import JS Regex Accepted.
Local Open Scope list_scope.

#[local] Arguments digits4 : simpl never.
#[local] Arguments keyword : simpl never.
#[local] Arguments match_here : simpl never.

Lemma last_or_None l : last_or None l = last l.
Proof. unfold last_or. by destruct (last l). Qed.

Lemma last_or_cons prev c l : last_or prev (c :: l) = last_or (Some c) l.
Proof. unfold last_or. rewrite last_cons. by destruct (last l). Qed.

Lemma literal_ci_sound p : forall prev s prev' rest,
  literal_ci p prev s = Some (prev', rest) ->
  exists name, s = name ++ rest /\ folded p name /\ prev' = last_or prev name.
Proof.
  induction p as [|a p IH]; intros prev s prev' rest H; simpl in H.
  - exists []. by inversion H.
  - destruct s as [|c s]; [done|].
    destruct (Ascii.eqb_spec (canonicalize a) (canonicalize c)) as [E|]; [|done].
    destruct (IH _ _ _ _ H) as (name & -> & Hci & ->).
    exists (c :: name). split; [done|]. split.
    + unfold folded in *; simpl. by rewrite E, Hci.
    + by rewrite last_or_cons.
Qed.

Lemma literal_ci_complete p : forall prev name rest,
  folded p name -> literal_ci p prev (name ++ rest) = Some (last_or prev name, rest).
Proof.
  induction p as [|a p IH]; intros prev name rest H; unfold folded in H.
  - destruct name; [done | discriminate].
  - destruct name as [|c name]; [discriminate|]. simpl in *.
    injection H as E H. rewrite E, Ascii.eqb_refl.
    by rewrite (IH (Some c) name rest H), last_or_cons.
Qed.

Lemma digits4_sound s d :
  digits4 s = Some d ->
  exists post, s = d ++ post /\ length d = 4 /\ forallb is_digit d = true.
Proof.
  unfold digits4. destruct s as [|a [|b [|c [|e post]]]]; simpl; try done.
  destruct (is_digit a) eqn:Ha, (is_digit b) eqn:Hb, (is_digit c) eqn:Hc,
    (is_digit e) eqn:He; simpl; try done.
  intros [= <-]. exists post. simpl. by rewrite Ha, Hb, Hc, He.
Qed.

Lemma digits4_complete d post :
  length d = 4 -> forallb is_digit d = true -> digits4 (d ++ post) = Some d.
Proof.
  unfold digits4. destruct d as [|a [|b [|c [|e [|? ?]]]]]; simpl; try done.
  intros _ H. repeat (apply andb_prop in H as [? H]).
  by repeat match goal with E : is_digit _ = true |- _ => rewrite E; clear E end.
Qed.

Lemma separator_sound s : forall d,
  separator s = Some d ->
  exists sp post, s = sp ++ d ++ post /\ forallb is_sep sp = true
                  /\ length d = 4 /\ forallb is_digit d = true.
Proof.
  induction s as [|c s IH]; intros d H.
  - done.
  - simpl in H. destruct (digits4 (c :: s)) as [d'|] eqn:Hd.
    + injection H as ->. destruct (digits4_sound _ _ Hd) as (post & E & ? & ?).
      exists [], post. by rewrite E.
    + destruct (is_sep c) eqn:Hc; [|done].
      destruct (IH _ H) as (sp & post & -> & Hsp & ? & ?).
      exists (c :: sp), post. simpl. by rewrite Hc, Hsp.
Qed.

Lemma separator_complete sp : forall d post,
  forallb is_sep sp = true -> length d = 4 -> forallb is_digit d = true ->
  is_Some (separator (sp ++ d ++ post)).
Proof.
  induction sp as [|c sp IH]; intros d post Hsp Hl Hd.
  - simpl. pose proof (digits4_complete d post Hl Hd) as E.
    destruct (d ++ post) as [|x l]; [done|]. simpl. rewrite E. by eexists.
  - simpl in Hsp. apply andb_prop in Hsp as [Hc Hsp].
    change ((c :: sp) ++ d ++ post) with (c :: (sp ++ d ++ post)).
    simpl. destruct (digits4 (c :: sp ++ d ++ post)); [by eexists|].
    rewrite Hc. by apply IH.
Qed.

Lemma alternative_sound k s d :
  alternative k s = Some d ->
  exists kw sp post, s = kw ++ sp ++ d ++ post /\ folded (chars k) kw
                     /\ forallb is_sep sp = true /\ length d = 4
                     /\ forallb is_digit d = true.
Proof.
  unfold alternative. destruct (literal_ci _ _ _) as [[prev rest]|] eqn:Hl; [|done].
  intros Hs. destruct (literal_ci_sound _ _ _ _ _ Hl) as (kw & -> & Hci & _).
  destruct (separator_sound _ _ Hs) as (sp & post & -> & ? & ? & ?).
  by exists kw, sp, post.
Qed.

Lemma alternative_complete k kw rest :
  folded (chars k) kw -> alternative k (kw ++ rest) = separator rest.
Proof. intros H. unfold alternative. by rewrite (literal_ci_complete _ None kw rest H). Qed.

Lemma keyword_sound s d :
  keyword s = Some d ->
  exists kw sp post, s = kw ++ sp ++ d ++ post /\ keyworded kw
                     /\ forallb is_sep sp = true /\ length d = 4
                     /\ forallb is_digit d = true.
Proof.
  unfold keyword, keyworded.
  destruct (alternative "pin" s) as [d1|] eqn:H1.
  { intros [= ->]. destruct (alternative_sound _ _ _ H1) as (kw & sp & post & ? & ? & ?).
    exists kw, sp, post. tauto. }
  destruct (alternative "code" s) as [d2|] eqn:H2.
  { intros [= ->]. destruct (alternative_sound _ _ _ H2) as (kw & sp & post & ? & ? & ?).
    exists kw, sp, post. tauto. }
  intros H3. destruct (alternative_sound _ _ _ H3) as (kw & sp & post & ? & ? & ?).
  exists kw, sp, post. tauto.
Qed.

Lemma keyword_complete kw rest :
  keyworded kw -> is_Some (separator rest) -> is_Some (keyword (kw ++ rest)).
Proof.
  intros Hk [d Hd]. unfold keyword.
  destruct (alternative "pin" (kw ++ rest)) eqn:H1; [by eexists|].
  destruct (alternative "code" (kw ++ rest)) eqn:H2; [by eexists|].
  destruct Hk as [H|[H|H]].
  - by rewrite (alternative_complete _ _ _ H), Hd in H1.
  - by rewrite (alternative_complete _ _ _ H), Hd in H2.
  - rewrite (alternative_complete _ _ _ H), Hd. by eexists.
Qed.

Lemma gap_sound n : forall s d,
  gap n s = Some d ->
  exists g rest, s = g ++ rest /\ length g <= n
                 /\ forallb (fun c => negb (is_digit c)) g = true
                 /\ keyword rest = Some d.
Proof.
  induction n as [|n IH]; intros s d H.
  - exists [], s. by destruct s.
  - destruct s as [|c s]; [by exists [], []|]. simpl in H.
    destruct (is_digit c) eqn:Hc.
    { exists [], (c :: s). repeat split; simpl; [lia | done..]. }
    destruct (gap n s) as [d'|] eqn:Hg.
    + injection H as ->. destruct (IH _ _ Hg) as (g & rest & -> & ? & Hnd & ?).
      exists (c :: g), rest. simpl. rewrite Hc, Hnd. repeat split; [lia | done..].
    + exists [], (c :: s). repeat split; simpl; [lia | done..].
Qed.

Lemma gap_complete g : forall n rest,
  length g <= n -> forallb (fun c => negb (is_digit c)) g = true ->
  is_Some (keyword rest) -> is_Some (gap n (g ++ rest)).
Proof.
  induction g as [|c g IH]; intros n rest Hl Hnd Hk.
  - simpl. destruct n as [|n]; [by destruct rest|].
    destruct rest as [|c s]; [done|]. simpl.
    destruct (is_digit c); [done|]. by destruct (gap n s); [eexists|].
  - destruct n as [|n]; [simpl in Hl; lia|]. simpl in *.
    apply andb_prop in Hnd as [Hc Hnd]. apply negb_true_iff in Hc. rewrite Hc.
    destruct (IH n rest ltac:(lia) Hnd Hk) as [d ->]. by eexists.
Qed.

Lemma match_here_sound stage prev s d :
  match_here stage prev s = Some d ->
  exists name g kw sp post,
    s = name ++ g ++ kw ++ sp ++ d ++ post
    /\ folded stage name
    /\ boundary prev s = true
    /\ boundary (last_or prev name) (g ++ kw ++ sp ++ d ++ post) = true
    /\ length g <= 25 /\ forallb (fun c => negb (is_digit c)) g = true
    /\ keyworded kw /\ forallb is_sep sp = true
    /\ length d = 4 /\ forallb is_digit d = true.
Proof.
  unfold match_here. destruct (boundary prev s) eqn:Hb1; [|done].
  destruct (literal_ci stage prev s) as [[prev' rest]|] eqn:Hl; [|done].
  destruct (boundary prev' rest) eqn:Hb2; [|done]. intros Hg.
  destruct (literal_ci_sound _ _ _ _ _ Hl) as (name & -> & Hci & ->).
  destruct (gap_sound _ _ _ Hg) as (g & rest' & -> & ? & ? & Hk).
  destruct (keyword_sound _ _ Hk) as (kw & sp & post & -> & ? & ? & ? & ?).
  by exists name, g, kw, sp, post.
Qed.

Lemma match_here_complete stage prev name g kw sp d post :
  folded stage name ->
  boundary prev (name ++ g ++ kw ++ sp ++ d ++ post) = true ->
  boundary (last_or prev name) (g ++ kw ++ sp ++ d ++ post) = true ->
  length g <= 25 -> forallb (fun c => negb (is_digit c)) g = true ->
  keyworded kw -> forallb is_sep sp = true ->
  length d = 4 -> forallb is_digit d = true ->
  is_Some (match_here stage prev (name ++ g ++ kw ++ sp ++ d ++ post)).
Proof.
  intros Hci Hb1 Hb2 Hl Hg Hk Hsp Hd4 Hd. unfold match_here.
  rewrite Hb1, (literal_ci_complete _ prev name _ Hci), Hb2.
  apply gap_complete; [done..|].
  apply keyword_complete; [done|]. by apply separator_complete.
Qed.

Lemma exec_from_sound stage s : forall prev d,
  exec_from stage prev s = Some d ->
  exists pre rest, s = pre ++ rest /\ match_here stage (last_or prev pre) rest = Some d.
Proof.
  induction s as [|c s IH]; intros prev d H; simpl in H.
  - destruct (match_here stage prev []) eqn:Hm; [|done].
    injection H as ->. by exists [], [].
  - destruct (match_here stage prev (c :: s)) eqn:Hm.
    + injection H as ->. by exists [], (c :: s).
    + destruct (IH _ _ H) as (pre & rest & -> & Hr).
      exists (c :: pre), rest. by rewrite last_or_cons.
Qed.

Lemma exec_from_complete stage pre : forall prev rest,
  is_Some (match_here stage (last_or prev pre) rest) ->
  is_Some (exec_from stage prev (pre ++ rest)).
Proof.
  induction pre as [|c pre IH]; intros prev rest H.
  - change (last_or prev []) with prev in H. destruct H as [d Hd].
    destruct rest; simpl; rewrite Hd; by eexists.
  - rewrite last_or_cons in H. simpl.
    destruct (match_here stage prev (c :: pre ++ rest)); [by eexists|].
    by apply IH.
Qed.

Lemma chars_str l : chars (str l) = l.
Proof. apply list_ascii_of_string_of_list_ascii. Qed.

(** The match that [exec_from] returns is the first one in the text. *)
Lemma exec_from_first stage s : forall prev d,
  exec_from stage prev s = Some d ->
  exists pre rest,
    s = pre ++ rest
    /\ match_here stage (last_or prev pre) rest = Some d
    /\ forall pre' rest',
         s = pre' ++ rest' -> length pre' < length pre ->
         match_here stage (last_or prev pre') rest' = None.
Proof.
  induction s as [|c s IH]; intros prev d H; simpl in H.
  - destruct (match_here stage prev []) eqn:Hm; [|done].
    injection H as ->. exists [], []. repeat split; [done|].
    intros ? ? _ L. simpl in L. lia.
  - destruct (match_here stage prev (c :: s)) eqn:Hm.
    + injection H as ->. exists [], (c :: s). repeat split; [done|].
      intros ? ? _ L. simpl in L. lia.
    + destruct (IH _ _ H) as (pre & rest & -> & Hr & Hfirst).
      exists (c :: pre), rest. rewrite last_or_cons. repeat split; [done|].
      intros pre' rest' E L. destruct pre' as [|c' pre'].
      * simpl in E. subst rest'. exact Hm.
      * simpl in E. injection E as <- E. rewrite last_or_cons.
        apply Hfirst; [done|]. simpl in L. lia.
Qed.

(** The matcher finds a match exactly when the text has one, and the
    digits it returns are those of the match that starts first. *)
Lemma exec_first_accepted stage text d :
  exec stage text = Some d ->
  exists pre,
    AcceptsAt (chars stage) pre (chars d) (chars text)
    /\ forall pre' d',
         AcceptsAt (chars stage) pre' d' (chars text) -> length pre <= length pre'.
Proof.
  unfold exec. destruct (exec_from _ _ _) as [l|] eqn:H; [|done].
  intros [= <-]. rewrite chars_str.
  destruct (exec_from_first _ _ _ _ H) as (pre & rest & E & Hm & Hfirst).
  rewrite last_or_None in Hm. exists pre. split.
  - destruct (match_here_sound _ _ _ _ Hm)
      as (name & g & kw & sp & post & -> & ? & ? & ? & ? & ? & ? & ? & ? & ?).
    exists name, g, kw, sp, post. by rewrite E.
  - intros pre' d' (name & g & kw & sp & post & E' & ? & ? & ? & ? & ? & ? & ? & ? & ?).
    destruct (Nat.le_gt_cases (length pre) (length pre')) as [|L]; [done|].
    specialize (Hfirst pre' _ E' L). rewrite last_or_None in Hfirst.
    destruct (match_here_complete (chars stage) (last pre') name g kw sp d' post)
      as [x Hx]; try done. congruence.
Qed.

Lemma exec_sound stage text d :
  exec stage text = Some d -> Accepts (chars stage) (chars text) (chars d).
Proof. intros H. destruct (exec_first_accepted _ _ _ H) as (pre & Hm & _). by exists pre. Qed.

Lemma exec_complete stage text d :
  Accepts (chars stage) (chars text) d -> is_Some (exec stage text).
Proof.
  intros (pre & name & g & kw & sp & post & E & ? & ? & ? & ? & ? & ? & ? & ? & ?).
  unfold exec. rewrite E.
  destruct (exec_from_complete (chars stage) pre None (name ++ g ++ kw ++ sp ++ d ++ post))
    as [l ->]; [|by eexists].
  rewrite last_or_None. by apply match_here_complete.
Qed.

(** *** The tests of the matcher and the classes of the pattern *)

Ltac each_ascii c := destruct c as [[] [] [] [] [] [] [] []]; vm_compute; reflexivity.

Lemma digit_spec c : is_digit c = true <-> Pattern.Digit c.
Proof.
  assert (is_digit c = bool_decide (c ∈ Pattern.digits)) as -> by each_ascii c.
  apply bool_decide_eq_true.
Qed.

Lemma plain_spec c : negb (is_digit c) = true <-> ~ Pattern.Digit c.
Proof. rewrite negb_true_iff, <- digit_spec. by destruct (is_digit c). Qed.

Lemma word_spec c : is_word c = true <-> Pattern.Word c.
Proof.
  assert (is_word c
          = bool_decide (c ∈ Pattern.lower \/ c ∈ Pattern.upper \/ c ∈ Pattern.digits
                         \/ c = "_"%char)) as -> by each_ascii c.
  apply bool_decide_eq_true.
Qed.

Lemma sep_spec c : is_sep c = true <-> Pattern.Sep c.
Proof.
  assert (is_sep c
          = bool_decide (c = ":"%char \/ c ∈ Pattern.blanks \/ c = "-"%char)) as ->
    by each_ascii c.
  apply bool_decide_eq_true.
Qed.

Lemma canonicalize_cases x :
  canonicalize x = x \/ (x, canonicalize x) ∈ Pattern.cases.
Proof.
  assert (bool_decide (canonicalize x = x \/ (x, canonicalize x) ∈ Pattern.cases) = true)
    as H by each_ascii x.
  by apply bool_decide_eq_true in H.
Qed.

Lemma cases_canonicalize :
  Forall (fun p => canonicalize p.1 = p.2 /\ canonicalize p.2 = p.2) Pattern.cases.
Proof.
  assert (bool_decide
            (Forall (fun p => canonicalize p.1 = p.2 /\ canonicalize p.2 = p.2)
               Pattern.cases) = true) as H by (vm_compute; reflexivity).
  by apply bool_decide_eq_true in H.
Qed.

Lemma cases_injective :
  Forall (fun p => Forall (fun q => p.2 = q.2 -> p.1 = q.1) Pattern.cases) Pattern.cases.
Proof.
  assert (bool_decide
            (Forall (fun p => Forall (fun q => p.2 = q.2 -> p.1 = q.1) Pattern.cases)
               Pattern.cases) = true) as H by (vm_compute; reflexivity).
  by apply bool_decide_eq_true in H.
Qed.

Lemma same_letter a c : canonicalize a = canonicalize c <-> Pattern.SameLetter a c.
Proof.
  pose proof cases_canonicalize as Hc. rewrite Forall_forall in Hc. split.
  - intros E. unfold Pattern.SameLetter.
    destruct (canonicalize_cases a) as [Ha|Ha], (canonicalize_cases c) as [Hb|Hb].
    + left. congruence.
    + right. right. rewrite <- E, Ha in Hb. done.
    + right. left. rewrite E, Hb in Ha. done.
    + left. pose proof cases_injective as Hi. rewrite Forall_forall in Hi.
      specialize (Hi _ Ha). rewrite Forall_forall in Hi. by apply (Hi _ Hb).
  - intros [->|[H|H]]; [done| |]; destruct (Hc _ H) as [H1 H2]; cbn in H1, H2; congruence.
Qed.

Lemma folded_spec p : forall s, folded p s <-> Pattern.ci_eq p s.
Proof.
  unfold folded, Pattern.ci_eq. induction p as [|a p IH]; intros [|c s]; cbn.
  - split; [constructor|done].
  - split; [done|]. intros H. inversion H.
  - split; [done|]. intros H. inversion H.
  - split.
    + intros [= E H]. constructor; [by apply same_letter | by apply IH].
    + intros H. inversion H as [|? ? ? ? E H']; subst.
      apply same_letter in E. apply IH in H'. by rewrite E, H'.
Qed.

Lemma keyworded_spec kw : keyworded kw <-> Pattern.is_keyword kw.
Proof. unfold keyworded, Pattern.is_keyword. by rewrite !folded_spec. Qed.

Lemma wordAt_spec o : from_option is_word false o = true <-> Pattern.WordAt o.
Proof. destruct o as [c|]; cbn; [apply word_spec | done]. Qed.

Lemma boundary_spec prev s : boundary prev s = true <-> Pattern.Boundary prev (head s).
Proof.
  unfold boundary, Pattern.Boundary. rewrite <- !wordAt_spec.
  destruct (from_option is_word false prev), (from_option is_word false (head s)); cbn;
    intuition congruence.
Qed.

Lemma last_or_app pre name : last_or (last pre) name = last (pre ++ name).
Proof.
  unfold last_or. rewrite last_app. by destruct (last name).
Qed.

Lemma forallb_spec (f : ascii -> bool) (P : ascii -> Prop) l :
  (forall c, f c = true <-> P c) -> forallb f l = true <-> Forall P l.
Proof.
  intros H. induction l as [|c l IH]; cbn.
  - split; [constructor|done].
  - rewrite andb_true_iff, H, IH. split.
    + intros [? ?]. by constructor.
    + intros E. inversion E. done.
Qed.

(** What the matcher accepts is what the pattern says. *)
Lemma accepted_spec stage pre d text :
  AcceptsAt stage pre d text <-> Pattern.MatchesAt stage pre d text.
Proof.
  unfold AcceptsAt, Pattern.MatchesAt.
  do 5 (apply exist_proper; intros ?).
  rewrite folded_spec, !boundary_spec, last_or_app, keyworded_spec.
  rewrite (forallb_spec _ _ _ plain_spec), (forallb_spec _ _ _ sep_spec),
    (forallb_spec _ _ _ digit_spec).
  done.
Qed.

(** *** The digits of a match *)

Lemma is_digit_canonicalize c : is_digit (canonicalize c) = is_digit c.
Proof. each_ascii c. Qed.

Lemma sep_plain c : is_sep c = true -> negb (is_digit c) = true.
Proof.
  assert (implb (is_sep c) (negb (is_digit c)) = true) as H by each_ascii c.
  intros E. by rewrite E in H.
Qed.

Lemma folded_plain p s :
  folded p s ->
  forallb (fun c => negb (is_digit c)) p = forallb (fun c => negb (is_digit c)) s.
Proof.
  unfold folded. revert s. induction p as [|a p IH]; intros [|c s]; cbn; try done.
  intros [= E H]. rewrite (IH _ H). f_equal.
  by rewrite <- (is_digit_canonicalize a), E, is_digit_canonicalize.
Qed.

Lemma keyworded_plain kw :
  keyworded kw -> forallb (fun c => negb (is_digit c)) kw = true.
Proof. intros [H|[H|H]]; by rewrite <- (folded_plain _ _ H). Qed.

Lemma seps_plain sp :
  forallb is_sep sp = true -> forallb (fun c => negb (is_digit c)) sp = true.
Proof.
  induction sp as [|c sp IH]; [done|]. cbn. rewrite !andb_true_iff.
  intros [? ?]. split; [by apply sep_plain | by apply IH].
Qed.

(** Four digits after characters that are no digits are the first four
    digits of the text. *)
Lemma digits_after_plain P : forall P' d d' post post',
  P ++ d ++ post = P' ++ d' ++ post' ->
  forallb (fun c => negb (is_digit c)) P = true ->
  forallb (fun c => negb (is_digit c)) P' = true ->
  length d = 4 -> length d' = 4 ->
  forallb is_digit d = true -> forallb is_digit d' = true ->
  d = d'.
Proof.
  induction P as [|c P IH]; intros P' d d' post post' E HP HP' Hl Hl' Hd Hd'.
  - destruct P' as [|x P'].
    + cbn in E. apply app_inj_1 in E as [? _]; [done|lia].
    + destruct d as [|y d]; [done|]. cbn in E. injection E as -> _.
      cbn in HP', Hd. apply andb_true_iff in HP' as [Hx _].
      apply andb_true_iff in Hd as [Hy _]. by rewrite Hy in Hx.
  - destruct P' as [|x P'].
    + destruct d' as [|y d']; [done|]. cbn in E. injection E as -> _.
      cbn in HP, Hd'. apply andb_true_iff in HP as [Hx _].
      apply andb_true_iff in Hd' as [Hy _]. by rewrite Hy in Hx.
    + cbn in E. injection E as _ E. cbn in HP, HP'.
      apply andb_true_iff in HP as [_ HP]. apply andb_true_iff in HP' as [_ HP'].
      by eapply IH.
Qed.

(** A position starts one match at most. *)
Lemma accepted_unique stage pre d d' text :
  AcceptsAt stage pre d text -> AcceptsAt stage pre d' text -> d = d'.
Proof.
  intros (name & g & kw & sp & post & E & Hn & _ & _ & _ & Hg & Hk & Hs & Hl & Hd)
         (name' & g' & kw' & sp' & post' & E' & Hn' & _ & _ & _ & Hg' & Hk' & Hs' & Hl' & Hd').
  rewrite E in E'. apply app_inv_head in E'.
  apply app_inj_1 in E' as [_ E'].
  2: { unfold folded in Hn, Hn'. apply (f_equal length) in Hn, Hn'.
       rewrite !length_map in Hn, Hn'. congruence. }
  replace (g ++ kw ++ sp ++ d ++ post) with ((g ++ kw ++ sp) ++ d ++ post) in E'
    by by rewrite <- !app_assoc.
  replace (g' ++ kw' ++ sp' ++ d' ++ post') with ((g' ++ kw' ++ sp') ++ d' ++ post') in E'
    by by rewrite <- !app_assoc.
  apply (digits_after_plain _ _ _ _ _ _ E'); try done.
  - rewrite !forallb_app, Hg, (keyworded_plain _ Hk), (seps_plain _ Hs). done.
  - rewrite !forallb_app, Hg', (keyworded_plain _ Hk'), (seps_plain _ Hs'). done.
Qed.

(** *** The matcher and the pattern *)

(** The digits that [exec] returns are those of the first match of the
    pattern in the text. *)
Lemma exec_first stage text d :
  exec stage text = Some d -> Pattern.FirstMatch (chars stage) (chars text) (chars d).
Proof.
  intros H. destruct (exec_first_accepted _ _ _ H) as (pre & Hm & Hfirst).
  exists pre. split; [by apply accepted_spec|].
  intros pre' d' Hm'. apply accepted_spec in Hm'. by eapply Hfirst.
Qed.

(** And [exec] returns nothing only when the pattern has no match. *)
Lemma exec_none stage text :
  exec stage text = None -> forall d, ~ Pattern.Matches (chars stage) (chars text) d.
Proof.
  intros H d (pre & Hm). apply accepted_spec in Hm.
  destruct (exec_complete stage text d) as [x Hx]; [by exists pre|]. congruence.
Qed.

(** The first match of the pattern gives one sequence of digits. *)
Lemma first_match_unique stage text d d' :
  Pattern.FirstMatch stage text d -> Pattern.FirstMatch stage text d' -> d = d'.
Proof.
  intros (pre & Hm & Hfirst) (pre' & Hm' & Hfirst').
  pose proof (Hfirst _ _ Hm') as L. pose proof (Hfirst' _ _ Hm) as L'.
  apply accepted_spec in Hm, Hm'.
  assert (pre = pre') as <-.
  { destruct Hm as (? & ? & ? & ? & ? & E & _), Hm' as (? & ? & ? & ? & ? & E' & _).
    rewrite E in E'. apply app_inj_1 in E' as [? _]; [done|lia]. }
  by eapply accepted_unique.
Qed.

(** Whether the pattern matches is decided by [exec]. *)
Lemma exec_matches stage text :
  is_Some (exec stage text) <-> exists d, Pattern.Matches (chars stage) (chars text) d.
Proof.
  split.
  - intros [d H]. exists (chars d). apply exec_first in H as (pre & Hm & _). by exists pre.
  - intros [d H]. destruct (exec stage text) eqn:E; [by eexists|].
    by destruct (exec_none _ _ E d).
Qed.

End RegexFacts.

(** ** Facts about the store *)

Lemma find_user_eq (l : list Withdrawal) uid w :
  List.find (fun w => String.eqb (w_user w) uid) l = Some w -> w_user w = uid.
Proof. intros H. apply find_some in H as [_ H]. by apply String.eqb_eq. Qed.

Lemma latest_user st uid w : Withdrawal_latest st uid = Some w -> w_user w = uid.
Proof. apply find_user_eq. Qed.

Lemma latest_In st uid w : Withdrawal_latest st uid = Some w -> In w (withdrawals st).
Proof. intros H. by apply find_some in H as [H _]. Qed.

Lemma findById_id st id w : Withdrawal_findById st id = Some w -> w_id w = id.
Proof. intros H. apply find_some in H as [_ H]. by apply String.eqb_eq. Qed.

Lemma findById_In st id w : Withdrawal_findById st id = Some w -> In w (withdrawals st).
Proof. intros H. by apply find_some in H as [H _]. Qed.

(** Saving a changed copy of the latest withdrawal of a user keeps it the
    latest one. *)
Lemma latest_save st uid w w' :
  Withdrawal_latest st uid = Some w -> w_id w' = w_id w -> w_user w' = uid ->
  Withdrawal_latest (Withdrawal_save st w') uid = Some w'.
Proof.
  unfold Withdrawal_latest, Withdrawal_save. cbn [withdrawals].
  intros H Hid Hu. induction (withdrawals st) as [|x l IH]; [done|].
  cbn [List.find map] in *.
  destruct (String.eqb (w_user x) uid) eqn:Ex.
  - injection H as ->. by rewrite Hid, String.eqb_refl, Hu, String.eqb_refl.
  - destruct (String.eqb (w_id x) (w_id w')).
    + by rewrite Hu, String.eqb_refl.
    + rewrite Ex. by apply IH.
Qed.

(** What a saved list holds: the entries it had, or the saved copy in the
    place of an entry with its [_id]. *)
Lemma In_save st x w' :
  In w' (withdrawals (Withdrawal_save st x)) ->
  In w' (withdrawals st) \/
  (w' = x /\ exists w, In w (withdrawals st) /\ w_id w = w_id x).
Proof.
  unfold Withdrawal_save. cbn [withdrawals]. intros H.
  apply in_map_iff in H as (w & E & Hw).
  destruct (String.eqb_spec (w_id w) (w_id x)).
  - right. split; [done|]. by exists w.
  - left. by subst.
Qed.

Lemma withdrawals_notifyAdmins minimize st text now :
  withdrawals (notifyAdmins minimize st text now) = withdrawals st.
Proof. done. Qed.

Lemma withdrawals_User_save minimize st uid u :
  withdrawals (User_save minimize st uid u) = withdrawals st.
Proof. done. Qed.

Lemma withdrawals_Document_save minimize st uid d :
  withdrawals (Document_save minimize st uid d) = withdrawals st.
Proof. done. Qed.

Lemma users_Document_save minimize st uid d :
  users (Document_save minimize st uid d) = <[uid := stored minimize d]> (users st).
Proof. done. Qed.

Lemma users_User_save minimize st uid u :
  users (User_save minimize st uid u) = <[uid := stored minimize (load u)]> (users st).
Proof. done. Qed.

(** An object that is stored stays as it is, whatever the handler holds. *)
Lemma written_Some {A} minimize first (kept object : gmap string A) :
  written minimize first (Some kept) object = Some kept.
Proof. done. Qed.

(** What is stored is what a later load holds, unless nothing was held. *)
Lemma held_written {A} minimize first (saved : option (gmap string A)) :
  held (written minimize first saved (held saved)) = held saved.
Proof.
  destruct saved as [kept|]; [done|]. unfold written, held. cbn [default].
  by destruct (first && negb (minimize && bool_decide (size (∅ : gmap string A) = 0%nat))).
Qed.

Lemma resolvePin_withdrawals minimize engine st uid user stage now st1 user1 stageObj :
  resolvePin minimize engine st uid user stage now = inr (st1, user1, stageObj) ->
  withdrawals st1 = withdrawals st.
Proof.
  unfold resolvePin, recoverPin. intros H.
  repeat case_match; simplify_eq; done.
Qed.

(** The declared paths of the document that resolvePin hands on are those
    it was given. *)
Lemma resolvePin_declared minimize engine st uid user stage now st1 user1 stageObj :
  resolvePin minimize engine st uid user stage now = inr (st1, user1, stageObj) ->
  u_username (d_user user1) = u_username (d_user user)
  /\ u_country (d_user user1) = u_country (d_user user)
  /\ u_role (d_user user1) = u_role (d_user user)
  /\ u_balance (d_user user1) = u_balance (d_user user)
  /\ u_timerActive (d_user user1) = u_timerActive (d_user user)
  /\ u_timerEnds (d_user user1) = u_timerEnds (d_user user)
  /\ u_notifications (d_user user1) = u_notifications (d_user user)
  /\ u_payments (d_user user1) = u_payments (d_user user)
  /\ d_activationStatus user1 = d_activationStatus user.
Proof.
  unfold resolvePin, recoverPin. intros H.
  repeat case_match; simplify_eq; done.
Qed.

(** The fallback ends a request with NoPinSet or with the 500 of the
    [catch], and then nothing has been written. *)
Lemma resolvePin_inl minimize engine st uid user stage now r :
  resolvePin minimize engine st uid user stage now = inl r -> r = NoPinSet \/ r = ServerError.
Proof.
  unfold resolvePin, recoverPin. intros H.
  repeat case_match; simplify_eq; tauto.
Qed.

(** ** The stage order *)

Lemma stageOfName_name s : stageOfName (stage_name s) = Some s.
Proof. by destruct s. Qed.

(** The index arithmetic of confirmStagePin computes the successor of the
    named stage. *)
Lemma nextStageOf_successor name : nextStageOf name = stageOfName name ≫= successor.
Proof.
  unfold nextStageOf, stageOfName, indexOf, stages.
  cbn [indexOf_from List.find stage_name].
  repeat (destruct (String.eqb _ name); [reflexivity|]). reflexivity.
Qed.

Lemma nextStageOf_name s : nextStageOf (stage_name s) = successor s.
Proof. by rewrite nextStageOf_successor, stageOfName_name. Qed.

(** What a successful confirmStagePin did, step by step. *)
Lemma confirmStagePin_success minimize engine st uid wid stage pin now st' next amount :
  confirmStagePin minimize engine st uid wid stage pin now = (st', PinConfirmed next amount) ->
  exists user st1 user1 stageObj,
    User_findById st uid = Some user
    /\ resolvePin minimize engine st uid (load user) stage now = inr (st1, user1, stageObj)
    /\ pr_pin stageObj = pin
    /\ next = nextStageOf stage
    /\ amount = stageAmount next (u_balance (d_user user1))
    /\ u_balance (d_user user1) = u_balance user
    /\ st' =
       let st2 :=
         Document_save minimize st1 uid
           (holding
              (holding_status user1 (<[stage := true]> (d_activationStatus user1)))
              (push_notification (d_user user1)
                 ("Your " ++ stage ++ " activation code was accepted.") now)) in
       match Withdrawal_latest st2 uid with
       | Some withdrawal => Withdrawal_save st2 (advance withdrawal next)
       | None => st2
       end.
Proof.
  unfold confirmStagePin. intros H.
  destruct (User_findById st uid) as [user|] eqn:Hu; [|done].
  destruct (resolvePin minimize engine st uid (load user) stage now)
    as [r|[[st1 user1] stageObj]] eqn:Hr.
  { apply resolvePin_inl in Hr as [-> | ->]; discriminate H. }
  destruct (String.eqb_spec (pr_pin stageObj) pin) as [Hp|]; [|done].
  cbn [negb] in H. injection H as <- <- <-.
  exists user, st1, user1, stageObj. repeat split; try done.
  by destruct (resolvePin_declared _ _ _ _ _ _ _ _ _ _ Hr) as (_ & _ & _ & ? & _).
Qed.

(** ** Stage transitions of confirmStagePin *)

(** The withdrawals after confirmStagePin: as before, or with the latest
    one of the caller advanced. *)
Lemma confirmStagePin_withdrawals minimize engine st userId withdrawalId stage pin now :
  withdrawals (fst (confirmStagePin minimize engine st userId withdrawalId stage pin now))
  = withdrawals st
  \/ exists latest,
       Withdrawal_latest st userId = Some latest
       /\ withdrawals (fst (confirmStagePin minimize engine st userId withdrawalId stage pin now))
          = withdrawals (Withdrawal_save st (advance latest (nextStageOf stage))).
Proof.
  destruct (confirmStagePin minimize engine st userId withdrawalId stage pin now) as [st' r] eqn:H.
  cbn [fst]. unfold confirmStagePin in H.
  destruct (User_findById st userId) as [user|]; [|left; by simplify_eq].
  destruct (resolvePin minimize engine st userId (load user) stage now)
    as [r0|[[st1 user1] stageObj]] eqn:Hr; [left; by simplify_eq|].
  pose proof (resolvePin_withdrawals _ _ _ _ _ _ _ _ _ _ Hr) as Hw.
  destruct (negb _); [left; by simplify_eq|].
  injection H as <- _. cbn zeta.
  set (st2 := Document_save minimize st1 userId _).
  assert (Withdrawal_latest st2 userId = Withdrawal_latest st userId) as ->.
  { unfold Withdrawal_latest, st2. by rewrite withdrawals_Document_save, Hw. }
  destruct (Withdrawal_latest st userId) as [latest|]; [|by left].
  right. exists latest. split; [done|].
  unfold Withdrawal_save, st2. cbn [withdrawals Document_save]. by rewrite Hw.
Qed.

(** C10: the response and the state after confirmStagePin do not depend on
    the [withdrawalId] of the request; the only withdrawal that may be
    written is the most recent one of the caller, with the stage following
    the stage named in the request. *)
Theorem C10_confirm_ignores_withdrawalId minimize engine st userId withdrawalId1 withdrawalId2
    stage pin now :
  confirmStagePin minimize engine st userId withdrawalId1 stage pin now
  = confirmStagePin minimize engine st userId withdrawalId2 stage pin now
  /\ (withdrawals (fst (confirmStagePin minimize engine st userId withdrawalId1 stage pin now))
      = withdrawals st
      \/ exists latest,
           Withdrawal_latest st userId = Some latest
           /\ withdrawals (fst (confirmStagePin minimize engine st userId withdrawalId1 stage pin
               now))
              = withdrawals (Withdrawal_save st (advance latest (nextStageOf stage)))).
Proof. split; [reflexivity | apply confirmStagePin_withdrawals]. Qed.

(** C1, as the code has it: after a successful confirmStagePin the most
    recent withdrawal of the caller holds the successor of the stage named
    in the request, and its stage is unchanged when the request names
    [access] or no stage; this is the successor of the stage it had
    whenever the request names that stage. *)
Theorem C1_stage_follows_submitted_stage minimize
    engine st userId withdrawalId stage pin now st' next amount w :
  confirmStagePin minimize engine st userId withdrawalId stage pin now = (st', PinConfirmed next
      amount) ->
  Withdrawal_latest st userId = Some w ->
  next = stageOfName stage ≫= successor
  /\ exists w',
       Withdrawal_latest st' userId = Some w'
       /\ w_id w' = w_id w
       /\ w_stage w' = default (w_stage w) next
       /\ (stage = stage_name (w_stage w) ->
           w_stage w' = default (w_stage w) (successor (w_stage w))).
Proof.
  intros H Hw.
  destruct (confirmStagePin_success _ _ _ _ _ _ _ _ _ _ _ H)
    as (user & st1 & user1 & stageObj & Hu & Hr & Hp & -> & _ & _ & ->).
  split; [apply nextStageOf_successor|].
  pose proof (resolvePin_withdrawals _ _ _ _ _ _ _ _ _ _ Hr) as Hws.
  set (st2 := Document_save minimize st1 userId _).
  assert (Withdrawal_latest st2 userId = Some w) as Hl.
  { unfold Withdrawal_latest, st2. by rewrite withdrawals_Document_save, Hws. }
  cbn zeta. rewrite Hl.
  assert (w_id (advance w (nextStageOf stage)) = w_id w
          /\ w_user (advance w (nextStageOf stage)) = w_user w
          /\ w_stage (advance w (nextStageOf stage))
             = default (w_stage w) (nextStageOf stage)) as (Hid & Hus & Hst).
  { unfold advance. destruct (nextStageOf stage) as [s|]; [|done].
    by destruct (bool_decide (s = access)). }
  exists (advance w (nextStageOf stage)). split; [|split; [done|split; [done|]]].
  - apply (latest_save st2 userId w); [done..|].
    rewrite Hus. by apply (latest_user st).
  - intros ->. by rewrite Hst, nextStageOf_name.
Qed.

Lemma C1_stage_follows_submitted_stage_witness :
  exists w',
    Withdrawal_latest (fst (confirmStagePin Scenario.minimize Scenario.engine Scenario.opened "u1"
        "w1" "security" "5555" 3))
      "u1" = Some w'
    /\ w_id w' = "w1" /\ w_stage w' = access.
Proof.
  destruct (C1_stage_follows_submitted_stage Scenario.minimize Scenario.engine Scenario.opened
      "u1" "w1" "security" "5555" 3
              (fst (confirmStagePin Scenario.minimize Scenario.engine Scenario.opened "u1" "w1"
                  "security" "5555" 3))
              (Some access) 0%float
              (newWithdrawal "w1" "u1" 10000%float "crypto" None 1))
    as (_ & w' & H1 & H2 & H3 & _); [reflexivity | reflexivity |].
  exists w'. split; [exact H1 | split; [exact H2 | exact H3]].
Defined.

(** C1 as stated fails: from [activation] a confirmation that names
    [security] moves the withdrawal to [access], four stages ahead, and one
    that then names [activation] moves it back to [tax]. *)
Lemma C1_counterexample :
  reachable Scenario.minimize Scenario.engine Scenario.init Scenario.opened
  /\ w_stage <$> Withdrawal_latest Scenario.opened "u1" = Some activation
  /\ snd (confirmStagePin Scenario.minimize Scenario.engine Scenario.opened "u1" "w1" "security"
      "5555" 3)
     = PinConfirmed (Some access) 0%float
  /\ w_stage
       <$> Withdrawal_latest
             (fst (confirmStagePin Scenario.minimize Scenario.engine Scenario.opened "u1" "w1"
                 "security" "5555" 3)) "u1"
     = Some access
  /\ successor activation <> Some access
  /\ reachable Scenario.minimize Scenario.engine Scenario.init Scenario.reissued
  /\ w_stage <$> Withdrawal_latest Scenario.reissued "u1" = Some access
  /\ snd (confirmStagePin Scenario.minimize Scenario.engine Scenario.reissued "u1" "w1"
      "activation" "1111" 5)
     = PinConfirmed (Some tax) 100%float
  /\ w_stage
       <$> Withdrawal_latest
             (fst (confirmStagePin Scenario.minimize Scenario.engine Scenario.reissued "u1" "w1"
                 "activation" "1111" 5)) "u1"
     = Some tax.
Proof.
  split; [by eexists|]. do 3 (split; [vm_compute; reflexivity|]).
  split; [discriminate|]. split; [by eexists|].
  do 2 (split; [vm_compute; reflexivity|]). vm_compute; reflexivity.
Qed.

(** ** The fee returned by confirmStagePin *)

Module CentsFacts.
Import Uint63 Cents.

Lemma allFrom_spec n p : forall lo,
  allFrom lo n p = true -> forall c, (lo <= c < lo + Zpos n)%Z -> p c = true.
Proof.
  induction n as [n IH|n IH|]; intros lo H c Hc; cbn [allFrom] in H.
  - apply andb_prop in H as [H H3]. apply andb_prop in H as [H1 H2].
    destruct (Z.eq_dec c lo) as [->|]; [done|].
    destruct (Z_lt_le_dec c (lo + 1 + Zpos n)).
    + apply (IH _ H2). lia.
    + apply (IH _ H3). lia.
  - apply andb_prop in H as [H1 H2].
    destruct (Z_lt_le_dec c (lo + Zpos n)).
    + apply (IH _ H1). lia.
    + apply (IH _ H2). lia.
  - by assert (c = lo) as -> by lia.
Qed.

Lemma closestCent_all : allFrom 0 10000001 closestCent = true.
Proof. vm_compute. reflexivity. Qed.

Lemma to_Z_of_Z_small c : (0 <= c < 2 ^ 62)%Z -> to_Z (of_Z c) = c.
Proof.
  intros H. rewrite of_Z_spec. apply Z.mod_small. unfold wB, size. cbn. lia.
Qed.

Lemma onePercent_bounds c :
  (0 <= c <= 10000000)%Z -> (0 <= onePercent c <= 10000000)%Z.
Proof.
  intros H. unfold onePercent. split; [apply Z.div_pos; lia|].
  apply Z.div_le_upper_bound; lia.
Qed.

Lemma of_Z_onePercent c :
  (0 <= c <= 10000000)%Z -> ((of_Z c + 50) / 100)%uint63 = of_Z (onePercent c).
Proof.
  intros H. apply to_Z_inj. pose proof (onePercent_bounds c H).
  rewrite div_spec, add_spec, !to_Z_of_Z_small by lia.
  change (to_Z 50) with 50%Z. change (to_Z 100) with 100%Z.
  rewrite Z.mod_small; [done|]. unfold wB, size. cbn. lia.
Qed.

Lemma of_Z_pred k : (1 <= k <= 10000000)%Z -> (of_Z k - 1)%uint63 = of_Z (k - 1).
Proof.
  intros H. apply to_Z_inj. rewrite sub_spec, !to_Z_of_Z_small by lia.
  change (to_Z 1) with 1%Z. rewrite Z.mod_small; [done|]. unfold wB, size. cbn. lia.
Qed.

Lemma of_Z_half c :
  (0 <= c <= 10000000)%Z -> (of_Z c mod 100 =? 50)%uint63 = (c mod 100 =? 50)%Z.
Proof.
  intros H. destruct (Z.eqb_spec (c mod 100) 50) as [E|E].
  - apply eqb_spec, to_Z_inj. by rewrite mod_spec, to_Z_of_Z_small by lia.
  - apply not_true_is_false. intros T. apply eqb_spec in T.
    apply (f_equal to_Z) in T. by rewrite mod_spec, to_Z_of_Z_small in T by lia.
Qed.

(** [Math.round((balance * 0.01) * 100) / 100] against the rounding of
    the specification: on a balance of whole cents up to 100 000.00 the
    code returns one percent of it to the closest cent, and when that is
    half a cent away from two of them, either one. *)
Lemma taxAmount_cents c :
  (0 <= c <= 10000000)%Z ->
  taxAmount (dollars c) = dollars (onePercent c)
  \/ ((c mod 100 = 50)%Z /\ taxAmount (dollars c) = dollars (onePercent c - 1)).
Proof.
  intros H. pose proof (allFrom_spec _ _ _ closestCent_all c ltac:(lia)) as F.
  unfold closestCent in F. rewrite of_Z_half, of_Z_onePercent in F by done.
  fold (dollars c) in F. destruct (Z.eqb_spec (c mod 100) 50) as [E|E].
  - rewrite of_Z_pred in F.
    + apply orb_prop in F as [F|F]; apply FloatAxioms.Leibniz.eqb_spec in F;
        [by left | by right].
    + pose proof (onePercent_bounds c H). unfold onePercent in *.
      split; [|lia]. apply Z.div_le_lower_bound; [lia|].
      pose proof (Z.mod_pos_bound c 100 ltac:(lia)).
      pose proof (Z.div_mod c 100 ltac:(lia)). lia.
  - left. by apply FloatAxioms.Leibniz.eqb_spec in F.
Qed.

End CentsFacts.

(** C4, as the code has it: the amount of a successful confirmStagePin is
    determined by the stage named in the request and the stored balance
    of the user.  With the successor of the named stage, it is
    [Math.round((balance * 0.01) * 100) / 100] for [tax], 500, 1000 and
    2000 for [insurance], [verification] and [security], and 0
    otherwise.  For a balance of whole cents up to 100 000.00 this is the
    Fee Policy, except that for [tax] half a cent may go down instead of
    up. *)
Theorem C4_fee_is_fee_policy
    minimize engine st userId withdrawalId stage pin now st' next amount user :
  User_findById st userId = Some user ->
  confirmStagePin minimize engine st userId withdrawalId stage pin now
  = (st', PinConfirmed next amount) ->
  next = stageOfName stage ≫= successor
  /\ amount = stageAmount next (u_balance user)
  /\ forall cents,
       (0 <= cents <= 10000000)%Z -> u_balance user = dollars cents ->
       amount = dollars (feePolicy next cents)
       \/ (next = Some tax /\ (cents mod 100 = 50)%Z
           /\ amount = dollars (feePolicy next cents - 1)).
Proof.
  intros Hu H.
  destruct (confirmStagePin_success _ _ _ _ _ _ _ _ _ _ _ H)
    as (user0 & st1 & user1 & stageObj & Hu' & _ & _ & -> & -> & Hbal & _).
  rewrite Hu in Hu'. injection Hu' as <-. rewrite Hbal.
  split; [apply nextStageOf_successor|]. split; [done|].
  intros cents Hc ->.
  destruct (nextStageOf stage) as [[]|]; try (vm_compute; left; reflexivity).
  cbn [stageAmount feePolicy].
  destruct (CentsFacts.taxAmount_cents cents Hc) as [E|[Hh E]]; [by left|]. right. by rewrite E.
Qed.

Lemma C4_fee_is_fee_policy_witness :
  Some tax = stageOfName "activation" ≫= successor
  /\ 100%float = stageAmount (Some tax) 10000%float
  /\ (100%float = dollars (feePolicy (Some tax) 1000000)
      \/ (Some tax = Some tax /\ (1000000 mod 100 = 50)%Z
          /\ 100%float = dollars (feePolicy (Some tax) 1000000 - 1))).
Proof.
  destruct (C4_fee_is_fee_policy Scenario.minimize Scenario.engine Scenario.issued "u1" "w1"
              "activation" "1111" 5
              (fst (confirmStagePin Scenario.minimize Scenario.engine Scenario.issued "u1"
                      "w1" "activation" "1111" 5))
              (Some tax) 100%float Scenario.alice_issued)
    as (H1 & H2 & H3); [vm_compute; reflexivity | vm_compute; reflexivity |].
  split; [exact H1 | split; [exact H2 |]].
  apply (H3 1000000%Z); [lia | vm_compute; reflexivity].
Defined.

(** C4 as stated fails.  The fee is not always [round(balance * 0.01, 2)]:
    on a balance of 103.50 one percent is 1.035, and the code answers
    1.03, not 1.04.  And it depends on a value that the client supplies,
    the stage of the request: in one and the same state a confirmation
    that names [security] is answered with the fee 0 and one that names
    [tax] with the fee 500, whatever the stage of the withdrawal is. *)
Lemma C4_counterexample :
  u_balance <$> users Scenario.saving !! "u1" = Some (dollars 10350)
  /\ snd (confirmStagePin Scenario.minimize Scenario.engine Scenario.saving "u1" "w1"
            "activation" "1111" 5)
     = PinConfirmed (Some tax) (dollars 103)
  /\ feePolicy (Some tax) 10350 = 104%Z
  /\ (dollars 103 <? dollars 104)%float = true
  /\ reachable Scenario.minimize Scenario.engine Scenario.init Scenario.noticed
  /\ w_stage <$> Withdrawal_latest Scenario.noticed "u1" = Some activation
  /\ snd (confirmStagePin Scenario.minimize Scenario.engine Scenario.noticed "u1" "w1"
            "security" "5555" 5)
     = PinConfirmed (Some access) 0%float
  /\ snd (confirmStagePin Scenario.minimize Scenario.engine Scenario.noticed "u1" "w1"
            "tax" "1234" 5)
     = PinConfirmed (Some insurance) 500%float.
Proof.
  do 4 (split; [vm_compute; reflexivity|]). split; [by eexists|].
  repeat split; vm_compute; reflexivity.
Qed.

Example feePolicy_fixed :
  forall balance,
    dollars (feePolicy (Some insurance) balance) = 500%float
    /\ dollars (feePolicy (Some verification) balance) = 1000%float
    /\ dollars (feePolicy (Some security) balance) = 2000%float
    /\ dollars (feePolicy (Some access) balance) = 0%float
    /\ dollars (feePolicy None balance) = 0%float.
Proof. intros balance. repeat split; vm_compute; reflexivity. Qed.

(** ** The PIN check of confirmStagePin *)


Lemma resolvePin_unset minimize engine st uid user stage now :
  pinIsSet user stage = false ->
  resolvePin minimize engine st uid (load user) stage now
  = recoverPin minimize engine st uid (load user) stage now.
Proof.
  unfold pinIsSet, resolvePin. cbn [load d_activationPins].
  destruct (held (u_activationPins user) !! stage) as [o|]; [|done].
  by intros ->.
Qed.





(** ** The fallback recovery of confirmStagePin *)








(** For a stage without pattern characters the engine is not consulted. *)
Lemma confirmStagePin_literal minimize engine1 engine2 st userId withdrawalId stage pin now :
  Regex.regex_literal stage = true ->
  confirmStagePin minimize engine1 st userId withdrawalId stage pin now
  = confirmStagePin minimize engine2 st userId withdrawalId stage pin now.
Proof.
  intros Hl. unfold confirmStagePin, resolvePin, recoverPin, stagePattern. by rewrite Hl.
Qed.

(** A stage such as ["("] leaves a group open, the constructor throws and
    the handler answers with its 500. *)
Example rejected_pattern_is_server_error :
  confirmStagePin Scenario.minimize (fun _ => None) Scenario.notified "u1" "w1" "(" "1234" 3
  = (Scenario.notified, ServerError).
Proof. vm_compute. reflexivity. Qed.

(** The pins are compared as strings: a leading zero counts. *)
Example leading_zero_pin_differs :
  snd (confirmStagePin Scenario.minimize Scenario.engine (fst (setPinForUser Scenario.minimize
      Scenario.init "u1" "tax" "0123" 1))
         "u1" "w1" "tax" "123" 2) = IncorrectPin.
Proof. vm_compute. reflexivity. Qed.

(** Without a matching notification the call stops at NoPinSet. *)
Example no_pin_set :
  confirmStagePin Scenario.minimize Scenario.engine Scenario.notified "u1" "w1" "insurance" "1234" 3
  = (Scenario.notified, NoPinSet).
Proof. vm_compute. reflexivity. Qed.

(** The notification of setPinForUser is one the scan recovers the pin
    from. *)
Example setPin_text_recovered :
  Regex.exec "verification" ("Your " ++ "verification" ++ " pin is: " ++ "0042") = Some "0042".
Proof. reflexivity. Qed.

(** ** Creating and resuming a preview *)

Lemma resumeOrCreate_resume st uid user method details newId now latest :
  Withdrawal_latest st uid = Some latest -> inProgress latest = true ->
  resumeOrCreate st uid user method details newId now
  = (st, ExistingInProgress (w_id latest) (previewOf latest) (w_stage latest)
           (w_status latest)).
Proof. unfold resumeOrCreate. by intros -> ->. Qed.

(** After a preview response the returned withdrawal is the latest one of
    the user and is in progress; the users are as before. *)
Lemma resumeOrCreate_returned st uid user method details newId now st1 r id :
  resumeOrCreate st uid user method details newId now = (st1, r) ->
  returnedId r = Some id ->
  users st1 = users st
  /\ exists w, Withdrawal_latest st1 uid = Some w /\ w_id w = id /\ inProgress w = true.
Proof.
  unfold resumeOrCreate, Withdrawal_insert. intros H Hid.
  destruct (Withdrawal_latest st uid) as [latest|] eqn:Hl;
    [destruct (inProgress latest) eqn:Hp|].
  - simplify_eq. cbn in Hid. injection Hid as <-. split; [done|]. by exists latest.
  - destruct (Withdrawal_findById st _); simplify_eq.
    cbn in Hid. injection Hid as <-. split; [done|].
    eexists. split; [unfold Withdrawal_latest; cbn; by rewrite String.eqb_refl|].
    by split.
  - destruct (Withdrawal_findById st _); simplify_eq.
    cbn in Hid. injection Hid as <-. split; [done|].
    eexists. split; [unfold Withdrawal_latest; cbn; by rewrite String.eqb_refl|].
    by split.
Qed.

(** Closes a case in which the response carries no [withdrawalId]. *)
Ltac no_returnedId :=
  repeat match goal with H : _ = (_, _) |- _ => progress cbn [negb] in H end;
  by simplify_eq.

Lemma createPreview_returned st uid method details newId now st1 r id :
  createPreview st uid method details newId now = (st1, r) ->
  returnedId r = Some id ->
  exists user,
    User_findById st uid = Some user
    /\ (u_balance user <? 1)%float = false
    /\ u_timerActive user = true
    /\ resumeOrCreate st uid user method details newId now = (st1, r).
Proof.
  unfold createPreview. intros H Hid.
  destruct (User_findById st uid) as [user|]; [|no_returnedId].
  destruct (u_balance user <? 1)%float eqn:Hb; [no_returnedId|].
  destruct (u_timerActive user) eqn:Ht; [|no_returnedId].
  cbn [negb] in H. by exists user.
Qed.

Lemma withdrawRequest_returned st uid method details newId now st1 r id :
  withdrawRequest st uid method details newId now = (st1, r) ->
  returnedId r = Some id ->
  exists user,
    User_findById st uid = Some user
    /\ (u_balance user <? 1)%float = false
    /\ u_timerActive user = true
    /\ validateRequest (u_country user) method details = None
    /\ resumeOrCreate st uid user method details newId now = (st1, r).
Proof.
  unfold withdrawRequest. intros H Hid.
  destruct (User_findById st uid) as [user|]; [|no_returnedId].
  destruct (u_balance user <? 1)%float eqn:Hb; [no_returnedId|].
  destruct (u_timerActive user) eqn:Ht; [|no_returnedId].
  cbn [negb] in H. destruct (validateRequest _ _ _) eqn:Hv; [no_returnedId|].
  by exists user.
Qed.

(** C5, as the code has it: for a user with a balance of at least 1 and
    an active timer (and, on the withdraw-request route, a method and
    details that pass its checks) whose most recent withdrawal is in
    progress, create-preview answers with that withdrawal and leaves the
    store as it was; and once a create-preview call has returned a
    [withdrawalId], the next call for the user returns the same one and
    creates nothing. *)
Theorem C5_preview_resumes :
  (forall st userId method details newId now user latest,
      User_findById st userId = Some user ->
      (u_balance user <? 1)%float = false ->
      u_timerActive user = true ->
      Withdrawal_latest st userId = Some latest ->
      inProgress latest = true ->
      createPreview st userId method details newId now
      = (st, ExistingInProgress (w_id latest) (previewOf latest) (w_stage latest)
               (w_status latest))
      /\ (validateRequest (u_country user) method details = None ->
          withdrawRequest st userId method details newId now
          = (st, ExistingInProgress (w_id latest) (previewOf latest) (w_stage latest)
                   (w_status latest))))
  /\ (forall st userId method details newId now st1 r id method' details' newId' now',
        createPreview st userId method details newId now = (st1, r) ->
        returnedId r = Some id ->
        fst (createPreview st1 userId method' details' newId' now') = st1
        /\ returnedId (snd (createPreview st1 userId method' details' newId' now')) = Some id)
  /\ (forall st userId method details newId now st1 r id newId' now',
        withdrawRequest st userId method details newId now = (st1, r) ->
        returnedId r = Some id ->
        fst (withdrawRequest st1 userId method details newId' now') = st1
        /\ returnedId (snd (withdrawRequest st1 userId method details newId' now')) = Some id).
Proof.
  split; [|split].
  - intros st userId method details newId now user latest Hu Hb Ht Hl Hp.
    unfold createPreview, withdrawRequest. rewrite Hu, Hb, Ht. cbn [negb].
    split; [by apply resumeOrCreate_resume|].
    intros ->. by apply resumeOrCreate_resume.
  - intros st userId method details newId now st1 r id method' details' newId' now' H Hid.
    destruct (createPreview_returned _ _ _ _ _ _ _ _ _ H Hid) as (user & Hu & Hb & Ht & Hr).
    destruct (resumeOrCreate_returned _ _ _ _ _ _ _ _ _ _ Hr Hid)
      as (Hus & w & Hl & <- & Hp).
    unfold createPreview, User_findById. rewrite Hus. fold (User_findById st userId).
    rewrite Hu, Hb, Ht. cbn [negb].
    by rewrite (resumeOrCreate_resume _ _ _ _ _ _ _ _ Hl Hp).
  - intros st userId method details newId now st1 r id newId' now' H Hid.
    destruct (withdrawRequest_returned _ _ _ _ _ _ _ _ _ H Hid)
      as (user & Hu & Hb & Ht & Hv & Hr).
    destruct (resumeOrCreate_returned _ _ _ _ _ _ _ _ _ _ Hr Hid)
      as (Hus & w & Hl & <- & Hp).
    unfold withdrawRequest, User_findById. rewrite Hus. fold (User_findById st userId).
    rewrite Hu, Hb, Ht, Hv. cbn [negb].
    by rewrite (resumeOrCreate_resume _ _ _ _ _ _ _ _ Hl Hp).
Qed.

Lemma C5_preview_resumes_witness :
  createPreview Scenario.opened "u1" "crypto" None "w2" 3
  = (Scenario.opened,
     ExistingInProgress "w1"
       {| pv_amount := 10000%float; pv_method := "crypto"; pv_details := None |}
       activation preview)
  /\ returnedId (snd (createPreview
                        (fst (createPreview Scenario.init "u1" "crypto" None "w1" 1))
                        "u1" "bank" None "w2" 2)) = Some "w1".
Proof.
  split.
  - refine (proj1 (proj1 C5_preview_resumes Scenario.opened "u1" "crypto" None "w2" 3%Z
                     Scenario.alice_opened
                     (newWithdrawal "w1" "u1" 10000%float "crypto" None 1) _ _ _ _ _));
      [vm_compute; reflexivity | reflexivity | reflexivity | vm_compute; reflexivity
      | reflexivity].
  - refine (proj2 (proj1 (proj2 C5_preview_resumes) Scenario.init "u1" "crypto" None "w1" 1%Z
                     (fst (createPreview Scenario.init "u1" "crypto" None "w1" 1))
                     (snd (createPreview Scenario.init "u1" "crypto" None "w1" 1))
                     "w1" "bank" None "w2" 2%Z _ _));
      [vm_compute; reflexivity | reflexivity].
Defined.

(** C5 as stated fails: once the timer has run out and the dashboard has
    been read, the user has a withdrawal in progress, and create-preview
    answers InsufficientBalance instead of returning it. *)
Lemma C5_counterexample :
  exists latest,
    reachable Scenario.minimize Scenario.engine Scenario.init Scenario.expired
    /\ Withdrawal_latest Scenario.expired "u1" = Some latest
    /\ inProgress latest = true
    /\ createPreview Scenario.expired "u1" "crypto" None "w2" 90000001
       = (Scenario.expired, InsufficientBalance)
    /\ withdrawRequest Scenario.expired "u1" "crypto"
         (Some {[ "crypto" := "BTC"; "walletAddress" := "bc1q" ]}) "w2" 90000001
       = (Scenario.expired, InsufficientBalance).
Proof.
  eexists. split; [by eexists|].
  split; [vm_compute; reflexivity|].
  split; [reflexivity|].
  split; vm_compute; reflexivity.
Qed.

(** ** The timer gate *)

(** C8, as the code has it: create-preview, on both routes, returns a
    withdrawal only to a user whose [timerActive] is true, and a dashboard
    read that finds [timerActive] true with [timerEnds] at or before the
    current time stores balance 0, [timerActive] false and [timerEnds]
    null before it answers with these values. *)
Theorem C8_timer_gate :
  (forall st userId method details newId now st1 r id,
      (createPreview st userId method details newId now = (st1, r)
       \/ withdrawRequest st userId method details newId now = (st1, r)) ->
      returnedId r = Some id ->
      exists user, User_findById st userId = Some user /\ u_timerActive user = true)
  /\ (forall minimize st userId role now user,
        role <> "admin" ->
        User_findById st userId = Some user ->
        timerExpired user now = true ->
        dashboard minimize st userId role now
        = (User_save minimize st userId (user_with_wallet user 0%float false None),
           Dashboard (u_username user) 0%float false None (u_notifications user)
             (u_country user))).
Proof.
  split.
  - intros st userId method details newId now st1 r id [H|H] Hid.
    + destruct (createPreview_returned _ _ _ _ _ _ _ _ _ H Hid) as (user & ? & _ & ? & _).
      by exists user.
    + destruct (withdrawRequest_returned _ _ _ _ _ _ _ _ _ H Hid)
        as (user & ? & _ & ? & _).
      by exists user.
  - intros minimize st userId role now user Hr Hu Ht. unfold dashboard.
    destruct (String.eqb_spec role "admin"); [done|]. by rewrite Hu, Ht.
Qed.

Lemma C8_timer_gate_witness :
  (exists user, User_findById Scenario.init "u1" = Some user /\ u_timerActive user = true)
  /\ dashboard Scenario.minimize Scenario.issued "u1" "user" 90000000
     = (User_save Scenario.minimize Scenario.issued "u1"
          (user_with_wallet Scenario.alice_issued 0%float false None),
        Dashboard "alice" 0%float false None (u_notifications Scenario.alice_issued)
          "Canada").
Proof.
  split.
  - refine (proj1 C8_timer_gate Scenario.init "u1" "crypto" None "w1" 1%Z
              (fst (createPreview Scenario.init "u1" "crypto" None "w1" 1))
              (snd (createPreview Scenario.init "u1" "crypto" None "w1" 1)) "w1" _ _);
      [vm_compute; left; reflexivity | reflexivity].
  - refine (proj2 C8_timer_gate Scenario.minimize Scenario.issued "u1" "user" 90000000%Z
              Scenario.alice_issued _ _ _);
      [discriminate | vm_compute; reflexivity | reflexivity].
Defined.

(** C8 as stated fails: after the timer has run out, confirmStagePin and
    proceedWithdraw read the user with [timerActive] true and [timerEnds]
    in the past, serve the request and leave balance and timer as they
    were; and once the dashboard has switched the timer off they still
    serve it. *)
Lemma C8_counterexample :
  reachable Scenario.minimize Scenario.engine Scenario.init Scenario.issued
  /\ User_findById Scenario.issued "u1" = Some Scenario.alice_issued
  /\ timerExpired Scenario.alice_issued 90000000 = true
  /\ snd (confirmStagePin Scenario.minimize Scenario.engine Scenario.issued "u1" "w1" "activation"
      "1111" 90000000)
     = PinConfirmed (Some tax) 100%float
  /\ (fun u => (u_balance u, u_timerActive u, u_timerEnds u))
       <$> User_findById
             (fst (confirmStagePin Scenario.minimize Scenario.engine Scenario.issued "u1" "w1"
                 "activation" "1111" 90000000))
             "u1"
     = Some (10000%float, true, Some 86400000%Z)
  /\ reachable Scenario.minimize Scenario.engine Scenario.init Scenario.expired
  /\ u_timerActive <$> User_findById Scenario.expired "u1" = Some false
  /\ snd (proceedWithdraw Scenario.expired "u1" "w1") = ProceedRecorded
  /\ w_status <$> Withdrawal_findById (fst (proceedWithdraw Scenario.expired "u1" "w1")) "w1"
     = Some pending_activation
  /\ snd (confirmStagePin Scenario.minimize Scenario.engine Scenario.expired "u1" "w1"
      "activation" "1111" 90000001)
     = PinConfirmed (Some tax) 0%float.
Proof.
  split; [by eexists|].
  do 4 (split; [vm_compute; reflexivity|]).
  split; [by eexists|].
  do 3 (split; [vm_compute; reflexivity|]).
  vm_compute; reflexivity.
Qed.

(** ** Which requests move the stage of a withdrawal *)

Lemma stageKept_In st w : In w (withdrawals st) -> stageKept st w.
Proof. intros H. by exists w. Qed.

Lemma In_save_or st x w' :
  In w' (withdrawals (Withdrawal_save st x)) -> In w' (withdrawals st) \/ w' = x.
Proof. intros H. apply In_save in H. tauto. Qed.

(** A stored copy that differs from a stored withdrawal in status or
    payments only keeps the stage. *)
Lemma stageKept_save st w x w' :
  In w (withdrawals st) -> w_id x = w_id w -> w_stage x = w_stage w ->
  In w' (withdrawals (Withdrawal_save st x)) -> stageKept st w'.
Proof.
  intros Hw Hid Hst H. apply In_save_or in H as [H| ->].
  - by apply stageKept_In.
  - by exists w.
Qed.

Lemma proceedWithdraw_stage st uid id w' :
  In w' (withdrawals (fst (proceedWithdraw st uid id))) -> stageKept st w'.
Proof.
  unfold proceedWithdraw.
  destruct (Withdrawal_findById st id) as [w|] eqn:Hf; [|apply stageKept_In].
  destruct (User_findById st (w_user w)); [|apply stageKept_In].
  destruct (negb _); [apply stageKept_In|]. cbn [fst].
  by apply (stageKept_save st w); [eapply findById_In|..].
Qed.

Lemma withdrawProceed_stage st uid id w' :
  In w' (withdrawals (fst (withdrawProceed st uid id))) -> stageKept st w'.
Proof.
  unfold withdrawProceed.
  destruct (resumable st uid id) as [latest|].
  { destruct (proceedAmount _ _); apply stageKept_In. }
  destruct (Withdrawal_findById st id) as [w|] eqn:Hf; [|apply stageKept_In].
  destruct (negb _); [apply stageKept_In|]. cbn zeta.
  destruct (proceedAmount _ _); cbn [fst];
    by apply (stageKept_save st w); [eapply findById_In|..].
Qed.

Lemma submitStagePayment_stage minimize st uid pb files upload now w' :
  In w' (withdrawals (fst (submitStagePayment minimize st uid pb files upload now))) ->
  stageKept st w'.
Proof.
  unfold submitStagePayment.
  destruct (Withdrawal_findById st _) as [w|] eqn:Hf; [|apply stageKept_In].
  destruct (User_findById st (w_user w)); [|apply stageKept_In].
  destruct (negb _); [apply stageKept_In|]. cbn zeta.
  destruct (User_findById _ uid); cbn [fst];
    rewrite ?withdrawals_notifyAdmins, ?withdrawals_User_save;
    by apply (stageKept_save st w); [eapply findById_In|..].
Qed.

Lemma submitActivationPayment_stage minimize st uid body files upload now w' :
  In w' (withdrawals (fst (submitActivationPayment minimize st uid body files upload now))) ->
  stageKept st w'.
Proof.
  unfold submitActivationPayment, stagePaymentFlow, legacyPaymentFlow.
  destruct (negb (JS.truthy uid)); [apply stageKept_In|].
  destruct (User_findById st uid) as [user|]; [|apply stageKept_In].
  destruct (_ || _).
  - destruct (Withdrawal_findById st _) as [w|] eqn:Hf; [|apply stageKept_In].
    destruct (negb _); [apply stageKept_In|]. cbn zeta. cbn [fst].
    rewrite withdrawals_notifyAdmins, withdrawals_User_save.
    by apply (stageKept_save st w); [eapply findById_In|..].
  - cbn zeta. repeat case_match; cbn [fst];
      rewrite ?withdrawals_notifyAdmins, ?withdrawals_User_save; apply stageKept_In.
Qed.

Lemma adminApprove_stage minimize st id now w' :
  In w' (withdrawals (fst (adminApprove minimize st id now))) -> stageKept st w'.
Proof.
  unfold adminApprove.
  destruct (Withdrawal_findById st id) as [w|] eqn:Hf; [|apply stageKept_In].
  cbn zeta. destruct (User_findById st (w_user w));
    [destruct (User_findById _ (w_user w))|]; cbn [fst];
    rewrite ?withdrawals_User_save;
    by apply (stageKept_save st w); [eapply findById_In|..].
Qed.

Lemma approveWithdrawal_stage minimize st id now w' :
  In w' (withdrawals (fst (approveWithdrawal minimize st id now))) -> stageKept st w'.
Proof.
  unfold approveWithdrawal.
  destruct (Withdrawal_findById st id) as [w|] eqn:Hf; [|apply stageKept_In].
  cbn zeta. destruct (User_findById st (w_user w));
    [destruct (User_findById _ (w_user w))|]; cbn [fst];
    try (by apply (stageKept_save st w); [eapply findById_In|..]).
  intros H. apply In_save_or in H as [H| ->].
  - rewrite withdrawals_User_save in H.
    by apply (stageKept_save st w) in H; [|eapply findById_In|..].
  - exists w. by split; [eapply findById_In|].
Qed.

Lemma resumeOrCreate_stage st uid user method details newId now w' :
  In w' (withdrawals (fst (resumeOrCreate st uid user method details newId now))) ->
  stageKept st w'
  \/ (w_stage w' = activation /\ w_status w' = preview
      /\ Withdrawal_findById st (w_id w') = None).
Proof.
  unfold resumeOrCreate, Withdrawal_insert.
  assert (forall w, In w (withdrawals st) ->
            stageKept st w
            \/ (w_stage w = activation /\ w_status w = preview
                /\ Withdrawal_findById st (w_id w) = None)) as Hin.
  { intros w H. left. by apply stageKept_In. }
  cbn zeta.
  destruct (Withdrawal_findById st _) eqn:Hf;
    destruct (Withdrawal_latest st uid) as [latest|];
    try destruct (inProgress latest); cbn [fst]; try apply Hin.
  all: cbn [withdrawals]; intros [<-|H]; [by right | by apply Hin].
Qed.

(** C2, as the code has it: every withdrawal leaves a request with the
    stage it had, or newly created at [activation] with status [preview],
    or, through confirmStagePin alone, with the successor of the stage
    named in the request; and a withdrawal that confirmStagePin puts at
    [access] has status [ready_for_payout] after that request. *)
Theorem C2_stage_moves_only_by_confirm minimize engine st now req w' :
  In w' (withdrawals (fst (handle minimize engine st now req))) ->
  stageKept st w'
  \/ (w_stage w' = activation /\ w_status w' = preview
      /\ Withdrawal_findById st (w_id w') = None)
  \/ (exists userId withdrawalId stage pin,
        req = ConfirmStagePin userId withdrawalId stage pin
        /\ nextStageOf stage = Some (w_stage w')
        /\ (w_stage w' = access -> w_status w' = ready_for_payout)).
Proof.
  destruct req as [userId method details newId | userId method details newId
                  | userId id | userId id | userId pb files upload
                  | userId body files upload | userId withdrawalId stage pin
                  | id | id | userId stage pin | userId text | userId role];
    cbn [handle].
  - unfold createPreview. repeat case_match; try (left; by apply stageKept_In).
    intros Hin. apply resumeOrCreate_stage in Hin. tauto.
  - unfold withdrawRequest. repeat case_match; try (left; by apply stageKept_In).
    intros Hin. apply resumeOrCreate_stage in Hin. tauto.
  - left. by eapply proceedWithdraw_stage.
  - left. by eapply withdrawProceed_stage.
  - left. by eapply submitStagePayment_stage.
  - left. by eapply submitActivationPayment_stage.
  - destruct (confirmStagePin_withdrawals minimize engine st userId withdrawalId stage pin now)
      as [->|(latest & Hl & ->)]; [left; by apply stageKept_In|].
    intros H. apply In_save_or in H as [H| ->]; [left; by apply stageKept_In|].
    unfold advance. destruct (nextStageOf stage) as [next|] eqn:Hn.
    + right. right. exists userId, withdrawalId, stage, pin.
      split; [done|]. destruct (bool_decide (next = access)) eqn:Hb;
        cbn [w_stage w_status withdrawal_with_status withdrawal_with_stage];
        (split; [done|]); [done|].
      intros E. apply bool_decide_eq_false in Hb. done.
    + left. apply stageKept_In. by eapply latest_In.
  - left. by eapply adminApprove_stage.
  - left. by eapply approveWithdrawal_stage.
  - left. unfold setPinForUser in *. apply stageKept_In.
    by repeat case_match.
  - left. unfold notifyUser in *. apply stageKept_In. by repeat case_match.
  - left. unfold dashboard in *. apply stageKept_In. by repeat case_match.
Qed.

Lemma C2_stage_moves_only_by_confirm_witness :
  exists w',
    In w' (withdrawals Scenario.payable)
    /\ nextStageOf "security" = Some (w_stage w')
    /\ w_stage w' = access /\ w_status w' = ready_for_payout.
Proof.
  exists (withdrawal_with_status
            (withdrawal_with_stage (newWithdrawal "w1" "u1" 10000%float "crypto" None 1) access)
            ready_for_payout).
  split; [vm_compute; left; reflexivity|].
  destruct (C2_stage_moves_only_by_confirm Scenario.minimize Scenario.engine Scenario.opened 3
              (ConfirmStagePin "u1" "w1" "security" "5555")
              (withdrawal_with_status
                 (withdrawal_with_stage
                    (newWithdrawal "w1" "u1" 10000%float "crypto" None 1) access)
                 ready_for_payout))
    as [(w & Hw & _ & Hs)|[(Hs & _)|(u & i & s & p & E & Hn & Hr)]].
  - vm_compute. left. reflexivity.
  - exfalso. vm_compute in Hw. destruct Hw as [<-|[]]. discriminate Hs.
  - discriminate Hs.
  - split; [reflexivity|]. split; [reflexivity|]. apply Hr. reflexivity.
Defined.

(** C2 as stated fails: the handlers reach a state that holds a withdrawal
    at [access] with status [pending_activation] (proceed overwrites the
    status), and from the same withdrawal at [access] a confirmation that
    names [activation] moves the stage to [tax]. *)
Lemma C2_counterexample :
  reachable Scenario.minimize Scenario.engine Scenario.init Scenario.payable
  /\ (fun w => (w_stage w, w_status w)) <$> Withdrawal_findById Scenario.payable "w1"
     = Some (access, ready_for_payout)
  /\ reachable Scenario.minimize Scenario.engine Scenario.init Scenario.overwritten
  /\ (fun w => (w_stage w, w_status w)) <$> Withdrawal_findById Scenario.overwritten "w1"
     = Some (access, pending_activation)
  /\ reachable Scenario.minimize Scenario.engine Scenario.init Scenario.regressed
  /\ (fun w => (w_stage w, w_status w)) <$> Withdrawal_findById Scenario.regressed "w1"
     = Some (tax, ready_for_payout).
Proof.
  split; [by eexists|]. split; [vm_compute; reflexivity|].
  split; [by eexists|]. split; [vm_compute; reflexivity|].
  split; [by eexists|]. vm_compute; reflexivity.
Qed.

(** ** Proceed *)

(** withdrawProceed does what the resume contract asks: a different
    withdrawal in progress is returned and nothing is written; otherwise
    a foreign withdrawal is refused, and the caller's own gets status
    [pending_activation] and the tax amount when its stage is [tax]. *)
Lemma withdrawProceed_conforms st userId id user :
  User_findById st userId = Some user ->
  match Withdrawal_latest st userId with
  | Some latest =>
      w_id latest <> id -> inProgress latest = true ->
      withdrawProceed st userId id
      = (st, ProceedResumed (w_id latest) (w_stage latest) (w_status latest)
               (if bool_decide (w_stage latest = tax) then taxAmount (u_balance user)
                else 0%float))
  | None => True
  end
  /\ (resumable st userId id = None ->
      match Withdrawal_findById st id with
      | Some withdrawal =>
          if String.eqb (w_user withdrawal) userId
          then withdrawProceed st userId id
               = (Withdrawal_save st (withdrawal_with_status withdrawal pending_activation),
                  ProceedRecordedFor (w_id withdrawal) (w_stage withdrawal)
                    pending_activation
                    (if bool_decide (w_stage withdrawal = tax)
                     then taxAmount (u_balance user) else 0%float))
          else withdrawProceed st userId id = (st, Forbidden)
      | None => withdrawProceed st userId id = (st, WithdrawalNotFound)
      end).
Proof.
  intros Hu. split.
  - destruct (Withdrawal_latest st userId) as [latest|] eqn:Hl; [|done].
    intros Hid Hp. unfold withdrawProceed, resumable, proceedAmount.
    rewrite Hl, Hp, Hu. apply String.eqb_neq in Hid. rewrite Hid. cbn [negb andb].
    by destruct (bool_decide (w_stage latest = tax)).
  - intros Hr. unfold withdrawProceed. rewrite Hr.
    destruct (Withdrawal_findById st id) as [withdrawal|]; [|done].
    destruct (String.eqb (w_user withdrawal) userId); [|done].
    cbn [negb]. cbn zeta. unfold proceedAmount, User_findById.
    rewrite withdrawals_User_save || cbn [Withdrawal_save users].
    fold (User_findById st userId). rewrite Hu.
    cbn [w_stage w_status w_id withdrawal_with_status].
    by destruct (bool_decide (w_stage withdrawal = tax)).
Qed.

(** C7, where the code departs from it: with [w1] at [access] and a second
    withdrawal [w2] in progress, a proceed on [w1] is answered by
    withdrawProceed with [w2] and writes nothing, whereas proceedWithdraw
    sets the status of [w1] to [pending_activation] and answers with the
    bare message; and for a withdrawal at [tax] withdrawProceed returns
    the tax amount, whereas proceedWithdraw returns none. *)
Theorem C7_proceedWithdraw_skips_resume :
  reachable Scenario.minimize Scenario.engine Scenario.init Scenario.reopened
  /\ w_id <$> resumable Scenario.reopened "u1" "w1" = Some "w2"
  /\ withdrawProceed Scenario.reopened "u1" "w1"
     = (Scenario.reopened, ProceedResumed "w2" activation preview 0%float)
  /\ w_status <$> Withdrawal_findById Scenario.reopened "w1" = Some ready_for_payout
  /\ snd (proceedWithdraw Scenario.reopened "u1" "w1") = ProceedRecorded
  /\ w_status <$> Withdrawal_findById (fst (proceedWithdraw Scenario.reopened "u1" "w1")) "w1"
     = Some pending_activation
  /\ reachable Scenario.minimize Scenario.engine Scenario.init Scenario.taxed
  /\ snd (withdrawProceed Scenario.taxed "u1" "w1")
     = ProceedRecordedFor "w1" tax pending_activation 100%float
  /\ snd (proceedWithdraw Scenario.taxed "u1" "w1") = ProceedRecorded.
Proof.
  split; [by eexists|]. do 5 (split; [vm_compute; reflexivity|]).
  split; [by eexists|]. split; vm_compute; reflexivity.
Qed.

(** ** Payment ingestion *)

Lemma stageCardAt_app upload pb files i cards :
  stageCardAt upload pb files i cards = (cards ++ stageCardOf upload pb files i)%list.
Proof.
  unfold stageCardOf, stageCardAt. destruct (pb_cards pb !! i); [done|].
  by rewrite app_nil_r.
Qed.

(** The loop makes [n] passes, over the indices [i .. i + n - 1] in
    order. *)
Lemma forLoop_flat_map body contribution n : forall i cards,
  (forall j acc, body j acc = (acc ++ contribution j)%list) ->
  forLoop body i n cards = (cards ++ flat_map contribution (seq i n))%list.
Proof.
  induction n as [|n IH]; intros i cards Hb; cbn [forLoop seq flat_map].
  - by rewrite app_nil_r.
  - by rewrite IH, Hb, <- app_assoc.
Qed.

Lemma findById_save st id w x :
  Withdrawal_findById st id = Some w -> w_id x = id ->
  Withdrawal_findById (Withdrawal_save st x) id = Some x.
Proof.
  unfold Withdrawal_findById, Withdrawal_save. cbn [withdrawals]. intros H <-.
  induction (withdrawals st) as [|y l IH]; [done|]. cbn [List.find map] in *.
  destruct (String.eqb (w_id y) (w_id x)) eqn:Ey.
  - by rewrite String.eqb_refl.
  - rewrite Ey. by apply IH.
Qed.

(** What [save()] stores of the declared paths is what the document
    holds. *)
Lemma payments_stored minimize d : u_payments (stored minimize d) = u_payments (d_user d).
Proof. done. Qed.

(** The payments of a user after [user.save()] and the notification of
    the administrators. *)
Lemma payments_notified minimize st uid u text now :
  u_payments <$> User_findById (notifyAdmins minimize (User_save minimize st uid u) text now) uid
  = Some (u_payments u).
Proof.
  unfold User_findById, notifyAdmins, User_save, Document_save. cbn [users].
  rewrite lookup_fmap, lookup_insert_eq. cbn [fmap option_fmap option_map].
  by destruct (String.eqb (u_role _) "admin").
Qed.

(** submitStagePayment does what the ingestion contract asks: for a
    declared count [n > 0] the cards are those of the indices below [n]
    that have an entry, in order; a card whose upload fails is kept
    without a file; and the call appends the one submission to the
    payments of the withdrawal and one payment, with the cards in its
    details, to those of the user. *)
Lemma submitStagePayment_conforms minimize st userId pb files upload now withdrawal user :
  Withdrawal_findById st (pb_withdrawalId pb) = Some withdrawal ->
  w_user withdrawal = userId ->
  User_findById st userId = Some user ->
  (0 < pb_cardsCount pb)%Z ->
  let cards := flat_map (stageCardOf upload pb files) (seq 0 (Z.to_nat (pb_cardsCount pb))) in
  let st' := fst (submitStagePayment minimize st userId pb files upload now) in
  snd (submitStagePayment minimize st userId pb files upload now) = Submitted
  /\ w_payments <$> Withdrawal_findById st' (pb_withdrawalId pb)
     = Some (w_payments withdrawal
             ++ [stageSubmission (pb_stage pb) (pb_amount pb) cards now])%list
  /\ u_payments <$> User_findById st' userId
     = Some (u_payments user
             ++ [stagePayment (or_else (pb_method pb) "giftcard") cards now])%list
  /\ (forall i cardData,
        pb_cards pb !! i = Some cardData ->
        exists card,
          stageCardOf upload pb files i = [card]
          /\ (forall f, fileOf files (cardField i "file") = Some f -> upload f = None ->
              c_file card = None))
  /\ (forall i, pb_cards pb !! i = None -> stageCardOf upload pb files i = []).
Proof.
  intros Hf Hw Hu Hn cards st'.
  assert (stageCards upload pb files = cards) as Hc.
  { unfold stageCards. apply Z.ltb_lt in Hn. rewrite Hn.
    by rewrite (forLoop_flat_map _ (stageCardOf upload pb files));
      [|intros; apply stageCardAt_app]. }
  assert (w_id withdrawal = pb_withdrawalId pb) as Hid by by eapply findById_id.
  unfold st', submitStagePayment. rewrite Hf, Hw, Hu, String.eqb_refl. cbn [negb]. cbn zeta.
  rewrite Hc.
  set (st1 := Withdrawal_save st _).
  assert (User_findById st1 userId = Some user) as -> by done.
  cbn [fst snd]. split; [done|]. split; [|split; [|split]].
  - unfold Withdrawal_findById. rewrite withdrawals_notifyAdmins, withdrawals_User_save.
    fold (Withdrawal_findById st1 (pb_withdrawalId pb)).
    unfold st1. by erewrite findById_save.
  - by rewrite payments_notified.
  - intros i cardData Hi. unfold stageCardOf, stageCardAt. rewrite Hi.
    eexists. split; [reflexivity|]. intros f Hfile Hup. cbn [c_file].
    unfold savedFile. by rewrite Hfile, Hup.
  - intros i Hi. unfold stageCardOf, stageCardAt. by rewrite Hi.
Qed.

(** What index [i] adds to the cards in submitActivationPayment: always
    one card. *)
Lemma activationCardAt_app upload body files i cards :
  activationCardAt upload body files i cards
  = (cards ++ activationCardAt upload body files i [])%list.
Proof. done. Qed.

(** The stage payment flow of submitActivationPayment appends the one
    submission to the payments of the withdrawal and one payment to
    those of the user as well, and keeps a card whose upload fails
    without a file; its cards are one for every index below the declared
    count. *)
Lemma submitActivationPayment_ingest
    minimize st userId body files upload now withdrawal user :
  JS.truthy userId = true ->
  User_findById st userId = Some user ->
  JS.truthy (ab_withdrawalId body) = true ->
  Withdrawal_findById st (ab_withdrawalId body) = Some withdrawal ->
  w_user withdrawal = userId ->
  (0 < ab_cardsCount body)%Z ->
  let cards :=
    flat_map (fun i => activationCardAt upload body files i [])
      (seq 0 (Z.to_nat (ab_cardsCount body))) in
  let st' := fst (submitActivationPayment minimize st userId body files upload now) in
  snd (submitActivationPayment minimize st userId body files upload now) = Submitted
  /\ w_payments <$> Withdrawal_findById st' (ab_withdrawalId body)
     = Some (w_payments withdrawal
             ++ [stageSubmission (Some (or_else (ab_stage body) "activation"))
                   (ab_amount body) cards now])%list
  /\ u_payments <$> User_findById st' userId
     = Some (u_payments user ++ [stagePayment "giftcard" cards now])%list
  /\ (forall i, exists card,
        activationCardAt upload body files i [] = [card]
        /\ (forall f, fileOf files (cardField i "file") = Some f -> upload f = None ->
            c_file card = None)).
Proof.
  intros Hid Hu Hwid Hf Hw Hn cards st'.
  assert (activationCards upload body files = cards) as Hc.
  { unfold activationCards. apply Z.ltb_lt in Hn. rewrite Hn.
    by rewrite (forLoop_flat_map _ (fun i => activationCardAt upload body files i [])). }
  assert (w_id withdrawal = ab_withdrawalId body) as Hwi by by eapply findById_id.
  unfold st', submitActivationPayment, stagePaymentFlow.
  rewrite Hid, Hu, Hwid, Hf, Hw, String.eqb_refl. cbn [negb orb]. cbn zeta.
  rewrite Hc. cbn [fst snd]. split; [done|]. split; [|split].
  - unfold Withdrawal_findById. rewrite withdrawals_notifyAdmins, withdrawals_User_save.
    fold (Withdrawal_findById (Withdrawal_save st
            (withdrawal_with_payments withdrawal
               (w_payments withdrawal
                ++ [stageSubmission (Some (or_else (ab_stage body) "activation"))
                      (ab_amount body) cards now]))) (ab_withdrawalId body)).
    by erewrite findById_save.
  - by rewrite payments_notified.
  - intros i. eexists. split; [reflexivity|]. intros f Hfile Hup. cbn [c_file].
    unfold savedFile. by rewrite Hfile, Hup.
Qed.

(** submitActivationPayment adds a card on every pass: the submission
    holds as many cards as the form declares, whatever entries it has. *)
Lemma activationCards_length upload body files :
  (0 < ab_cardsCount body)%Z ->
  length (activationCards upload body files) = Z.to_nat (ab_cardsCount body).
Proof.
  intros Hn. unfold activationCards. apply Z.ltb_lt in Hn. rewrite Hn.
  rewrite (forLoop_flat_map _ (fun i => activationCardAt upload body files i [])); [|done].
  cbn [app]. generalize 0%nat.
  induction (Z.to_nat (ab_cardsCount body)) as [|n IH]; intros i; [done|].
  cbn [seq flat_map]. by rewrite length_app, IH.
Qed.

(** And for a body as multer builds it, which has none of the bracketed
    names at the top level, every one of these cards is made of the
    defaults, whatever the form says of it, with the file of its
    index. *)
Lemma activationCards_nested upload body files :
  (forall i k, ab_fields body !! cardField i k = None) ->
  (0 < ab_cardsCount body)%Z ->
  activationCards upload body files
  = map (fun i => {| c_giftCard := "Steam"; c_pin := "";
                     c_file := savedFile false upload (fileOf files (cardField i "file")) |})
      (seq 0 (Z.to_nat (ab_cardsCount body))).
Proof.
  intros Hm Hn. unfold activationCards. apply Z.ltb_lt in Hn. rewrite Hn.
  rewrite (forLoop_flat_map _ (fun i => activationCardAt upload body files i [])); [|done].
  cbn [app]. generalize 0%nat.
  induction (Z.to_nat (ab_cardsCount body)) as [|n IH]; intros i; [done|].
  cbn [seq flat_map map]. rewrite IH. unfold activationCardAt, field.
  by rewrite !Hm.
Qed.

(** C9, where the code departs from it: for a form that declares two
    cards and holds the first only, submitStagePayment records the one
    card, whereas submitActivationPayment, behind its validator, records
    two cards, one for each declared index, and both made of the
    defaults, ['Steam'] with an empty pin: it adds a card on every pass,
    and it looks the fields of a card up under a name that the body of
    the route does not have. *)
Theorem C9_activation_payment_keeps_missing_card :
  reachable Scenario.minimize Scenario.engine Scenario.init Scenario.opened
  /\ snd (submitStagePayment Scenario.minimize Scenario.opened "u1" Ingest.parsedBody []
            Ingest.noUpload 3)
     = Submitted
  /\ map p_cards
       (default []
          (w_payments
             <$> Withdrawal_findById
                   (fst (submitStagePayment Scenario.minimize Scenario.opened "u1"
                           Ingest.parsedBody [] Ingest.noUpload 3)) "w1"))
     = [[{| c_giftCard := "Amazon"; c_pin := "9999"; c_file := None |}]]
  /\ (exists body, Validators.activatePaymentValidator Ingest.body = inr body)
  /\ snd (Validators.activatePayment Scenario.minimize Scenario.opened "u1" Ingest.body []
            Ingest.noUpload 3)
     = Submitted
  /\ map p_cards
       (default []
          (w_payments
             <$> Withdrawal_findById
                   (fst (Validators.activatePayment Scenario.minimize Scenario.opened "u1"
                           Ingest.body [] Ingest.noUpload 3)) "w1"))
     = [[{| c_giftCard := "Steam"; c_pin := ""; c_file := None |};
         {| c_giftCard := "Steam"; c_pin := ""; c_file := None |}]].
Proof.
  split; [by eexists|]. do 2 (split; [vm_compute; reflexivity|]).
  split; [by eexists|]. split; vm_compute; reflexivity.
Qed.

(** ** The request sanitizers *)

Lemma append_cons c a b : String c a ++ b = String c (a ++ b).
Proof. reflexivity. Qed.

Lemma append_nil_l b : "" ++ b = b.
Proof. reflexivity. Qed.

(** Brings the literal prefixes of an append to the front. *)
Ltac append := repeat first [rewrite append_cons | rewrite append_nil_l].
Ltac append_in H := repeat first [rewrite append_cons in H | rewrite append_nil_l in H].

Lemma chars_app a b : JS.chars (a ++ b) = (JS.chars a ++ JS.chars b)%list.
Proof. induction a as [|c a IH]; append; cbn; [done|]. by f_equal. Qed.

Lemma length_append a b : String.length (a ++ b) = (String.length a + String.length b)%nat.
Proof. induction a as [|c a IH]; append; cbn; [done|]. by rewrite IH. Qed.

Lemma str_chars s : JS.str (JS.chars s) = s.
Proof. apply string_of_list_ascii_of_string. Qed.

Lemma chars_inj a b : JS.chars a = JS.chars b -> a = b.
Proof. intros H. by rewrite <- (str_chars a), <- (str_chars b), H. Qed.

Lemma truthy_true s : JS.truthy s = true -> s <> "".
Proof. unfold JS.truthy. intros H ->. done. Qed.

Lemma truthy_app a c b : JS.truthy (a ++ String c b) = true.
Proof. by destruct a. Qed.

Module SanitizerFacts.
Import Sanitizer Markup.

Lemma entity_cases c e :
  entity c = Some e ->
  In (c, e) [("&"%char, "&amp;"); ("<"%char, "&lt;"); (">"%char, "&gt;");
             ("034"%char, "&quot;"); ("'"%char, "&#39;"); ("/"%char, "&#x2F;");
             ("`"%char, "&#x60;"); ("="%char, "&#x3D;")].
Proof.
  destruct c as [[] [] [] [] [] [] [] []]; cbn; intros H; try discriminate;
    injection H as <-; tauto.
Qed.

Lemma entity_None_plain c : entity c = None -> plain c = true.
Proof. by destruct c as [[] [] [] [] [] [] [] []]. Qed.

Lemma entity_inert c e : entity c = Some e -> inert e = true.
Proof.
  intros H. apply entity_cases in H. cbn in H.
  repeat (destruct H as [H|H]; [injection H as <- <-; reflexivity|]). destruct H.
Qed.

(** An entity starts with an ampersand and has at least four characters. *)
Lemma entity_head c e :
  entity c = Some e -> exists t, e = String "&" t /\ (3 <= String.length t)%nat.
Proof.
  intros H. apply entity_cases in H. cbn in H.
  repeat (destruct H as [H|H];
          [injection H as <- <-; eexists; split; [reflexivity|cbn; lia]|]).
  destruct H.
Qed.

(** No entity is the start of another one. *)
Lemma entity_prefix c d e f x y :
  entity c = Some e -> entity d = Some f -> e ++ x = f ++ y -> c = d /\ x = y.
Proof.
  intros Hc Hd. apply entity_cases in Hc, Hd. cbn in Hc, Hd.
  repeat (destruct Hc as [Hc|Hc]; [injection Hc as <- <-|]); try destruct Hc;
  repeat (destruct Hd as [Hd|Hd]; [injection Hd as <- <-|]); try destruct Hd;
  append; intros H; try discriminate; by simplify_eq.
Qed.

Lemma escapeHtml_inert str : inert (escapeHtml str) = true.
Proof.
  unfold inert. induction str as [|c rest IH]; [done|]. cbn [escapeHtml].
  rewrite chars_app, forallb_app, IH, andb_true_r.
  destruct (entity c) as [e|] eqn:He; cbn [default].
  - by apply entity_inert in He.
  - cbn. by rewrite entity_None_plain.
Qed.

Lemma escapeHtml_length str : (String.length str <= String.length (escapeHtml str))%nat.
Proof.
  induction str as [|c rest IH]; [done|]. cbn [escapeHtml]. rewrite length_append.
  destruct (entity c) as [e|] eqn:He; cbn [default].
  - apply entity_head in He as (t & -> & Ht). cbn. lia.
  - cbn. lia.
Qed.

Lemma escapeHtml_inj a : forall b, escapeHtml a = escapeHtml b -> a = b.
Proof.
  induction a as [|c a IH]; intros [|d b] H; cbn [escapeHtml] in H.
  - done.
  - destruct (entity d) as [f|] eqn:Hd; cbn [default] in H.
    + apply entity_head in Hd as (t & -> & _). append_in H. discriminate.
    + append_in H. discriminate.
  - destruct (entity c) as [e|] eqn:Hc; cbn [default] in H.
    + apply entity_head in Hc as (t & -> & _). append_in H. discriminate.
    + append_in H. discriminate.
  - destruct (entity c) as [e|] eqn:Hc, (entity d) as [f|] eqn:Hd; cbn [default] in H.
    + destruct (entity_prefix _ _ _ _ _ _ Hc Hd H) as [-> Hr]. f_equal. by apply IH.
    + destruct (entity_head _ _ Hc) as (t & -> & _). append_in H. injection H as <- _.
      discriminate Hd.
    + destruct (entity_head _ _ Hd) as (t & -> & _). append_in H. injection H as -> _.
      discriminate Hc.
    + append_in H. injection H as -> H. f_equal. by apply IH.
Qed.

Lemma escapeHtml_plain str :
  forallb (fun c => negb (rewritten c)) (JS.chars str) = true -> escapeHtml str = str.
Proof.
  induction str as [|c rest IH]; [done|]. cbn. unfold rewritten at 1.
  destruct (entity c); [done|]. cbn. intros H. append. by rewrite IH.
Qed.

Lemma escapeHtml_fixed str :
  escapeHtml str = str -> forallb (fun c => negb (rewritten c)) (JS.chars str) = true.
Proof.
  induction str as [|c rest IH]; [done|]. cbn [escapeHtml]. cbn. unfold rewritten at 1.
  destruct (entity c) as [e|] eqn:He; cbn [default negb andb].
  - intros H. apply entity_head in He as (t & -> & Ht). append_in H.
    injection H as _ H. apply (f_equal String.length) in H.
    rewrite length_append in H. pose proof (escapeHtml_length rest). lia.
  - append. intros H. injection H as H. by apply IH.
Qed.

(** The output of [escapeHtml] holds no character of markup, and it is
    not shorter than the input. *)
Theorem escapeHtml_leaves_no_markup str :
  inert (escapeHtml str) = true
  /\ (String.length str <= String.length (escapeHtml str))%nat.
Proof. split; [apply escapeHtml_inert | apply escapeHtml_length]. Qed.

(** [escapeHtml] loses nothing: two different texts are escaped to two
    different texts, also when one of them holds an entity already. *)
Theorem escapeHtml_never_collides a b : a <> b -> escapeHtml a <> escapeHtml b.
Proof. intros Hne H. by apply Hne, escapeHtml_inj. Qed.

Lemma escapeHtml_never_collides_witness :
  "<" <> "&lt;" /\ escapeHtml "<" <> escapeHtml "&lt;".
Proof.
  split; [discriminate|]. apply (escapeHtml_never_collides "<" "&lt;"). discriminate.
Defined.

(** [escapeHtml] returns a text as it is exactly when the text holds none
    of the eight characters, and only then does escaping it a second time
    change nothing: a text that went through the middleware once and
    comes back in a request is escaped again. *)
Theorem escapeHtml_twice str :
  (escapeHtml str = str <-> forallb (fun c => negb (rewritten c)) (JS.chars str) = true)
  /\ (escapeHtml (escapeHtml str) = escapeHtml str
      <-> forallb (fun c => negb (rewritten c)) (JS.chars str) = true).
Proof.
  split; split.
  - apply escapeHtml_fixed.
  - apply escapeHtml_plain.
  - intros H. by apply escapeHtml_fixed, escapeHtml_inj.
  - intros H. rewrite (escapeHtml_plain str H). by apply escapeHtml_plain.
Qed.

Lemma removeMongoOperatorKeysInPlace_clean obj :
  keysClean (removeMongoOperatorKeysInPlace obj) = true.
Proof.
  induction obj as [| | | |elements IH|properties IH] using Value_ind; try done.
  - cbn. induction IH as [|x l Hx _ IHl]; [done|]. cbn. by rewrite Hx.
  - cbn. induction IH as [|[key val] l Hx _ IHl]; [done|]. cbn [snd] in Hx. cbn.
    destruct (isOperatorKey key) eqn:Hk; [done|]. cbn. by rewrite Hk, Hx.
Qed.

Lemma removeMongoOperatorKeysInPlace_id obj :
  keysClean obj = true -> removeMongoOperatorKeysInPlace obj = obj.
Proof.
  induction obj as [| | | |elements IH|properties IH] using Value_ind; try done.
  - cbn. intros H. f_equal. induction IH as [|x l Hx _ IHl]; [done|]. cbn in *.
    apply andb_true_iff in H as [H1 H2]. by rewrite Hx, IHl.
  - cbn. intros H. f_equal. induction IH as [|[key val] l Hx _ IHl]; [done|]. cbn in *.
    apply andb_true_iff in H as [H1 H2]. apply andb_true_iff in H1 as [H0 H1].
    apply negb_true_iff in H0. by rewrite H0, Hx, IHl.
Qed.

Lemma removeMongoOperatorKeysInPlace_container obj :
  isContainer (removeMongoOperatorKeysInPlace obj) = isContainer obj.
Proof. by destruct obj. Qed.

Lemma sanitizeStringsInPlace_keys obj :
  keysClean obj = true -> keysClean (sanitizeStringsInPlace obj) = true.
Proof.
  induction obj as [| | | |elements IH|properties IH] using Value_ind; try done.
  - cbn. intros H. induction IH as [|x l Hx _ IHl]; [done|]. cbn in *.
    apply andb_true_iff in H as [H1 H2]. rewrite IHl, andb_true_r; [|done].
    destruct x; try done; by apply Hx.
  - cbn. intros H. induction IH as [|[key val] l Hx _ IHl]; [done|]. cbn in *.
    apply andb_true_iff in H as [H1 H2]. apply andb_true_iff in H1 as [H0 H1].
    rewrite IHl, andb_true_r, H0; [|done]. cbn.
    destruct val; try done; by apply Hx.
Qed.

Lemma sanitizeStringsInPlace_inert obj :
  isContainer obj = true -> stringsInert (sanitizeStringsInPlace obj) = true.
Proof.
  induction obj as [| | | |elements IH|properties IH] using Value_ind; try done.
  - intros _. cbn. induction IH as [|x l Hx _ IHl]; [done|]. cbn. rewrite IHl, andb_true_r.
    destruct x; try done; try by apply Hx. cbn. apply escapeHtml_inert.
  - intros _. cbn. induction IH as [|[key val] l Hx _ IHl]; [done|]. cbn [snd] in Hx. cbn.
    rewrite IHl, andb_true_r.
    destruct val; try done; try by apply Hx. cbn. apply escapeHtml_inert.
Qed.

(** After [removeMongoOperatorKeysInPlace] no object, at any depth of
    objects and arrays, has a key that starts with [$] or holds a dot;
    a second pass removes nothing more. *)
Theorem removeMongoOperatorKeysInPlace_idempotent obj :
  keysClean (removeMongoOperatorKeysInPlace obj) = true
  /\ removeMongoOperatorKeysInPlace (removeMongoOperatorKeysInPlace obj)
     = removeMongoOperatorKeysInPlace obj.
Proof.
  split; [apply removeMongoOperatorKeysInPlace_clean|].
  apply removeMongoOperatorKeysInPlace_id, removeMongoOperatorKeysInPlace_clean.
Qed.

(** The body as the combined middleware leaves it, when it is an object
    or an array: no operator key is left at any depth, and no string
    value or string element at any depth holds a character of markup.
    The keys are not escaped.  (A multipart form is parsed by multer after
    the middleware has run, and is not touched by it.) *)
Theorem sanitizeBody_safe body :
  isContainer body = true ->
  keysClean (sanitizeBody body) = true /\ stringsInert (sanitizeBody body) = true.
Proof.
  intros H. unfold sanitizeBody. split.
  - apply sanitizeStringsInPlace_keys, removeMongoOperatorKeysInPlace_clean.
  - apply sanitizeStringsInPlace_inert. by rewrite removeMongoOperatorKeysInPlace_container.
Qed.

Lemma sanitizeBody_safe_witness :
  sanitizeBody Office.body
  = VObject
      [("name", VString "&lt;b&gt;Al&lt;&#x2F;b&gt;");
       ("tags", VArray [VString "a&#x3D;b"; VObject [("note", VString "it&#39;s")]])]
  /\ keysClean (sanitizeBody Office.body) = true
  /\ stringsInert (sanitizeBody Office.body) = true.
Proof.
  split; [reflexivity|]. apply (sanitizeBody_safe Office.body). reflexivity.
Defined.

End SanitizerFacts.

(** ** Authentication and the approval routes *)

Module AuthFacts.
Import Auth.

Lemma split_word sep a b :
  ~ In sep (JS.chars a) -> split sep (a ++ String sep b) = a :: split sep b.
Proof.
  induction a as [|c a IH]; intros H; append; cbn [split].
  - by rewrite Ascii.eqb_refl.
  - cbn in H. destruct (Ascii.eqb c sep) eqn:Hc.
    + apply Ascii.eqb_eq in Hc. tauto.
    + rewrite IH; [done|tauto].
Qed.

Lemma split_last sep a : ~ In sep (JS.chars a) -> split sep a = [a].
Proof.
  induction a as [|c a IH]; intros H; cbn [split]; [done|].
  cbn in H. destruct (Ascii.eqb c sep) eqn:Hc.
  - apply Ascii.eqb_eq in Hc. tauto.
  - rewrite IH; [done|tauto].
Qed.

(** The token is the second word of the Authorization header: the scheme
    word before it is not looked at, and neither is anything after the
    second space. *)
Theorem authenticate_reads_second_word verify scheme token tail :
  ~ In " "%char (JS.chars scheme) ->
  ~ In " "%char (JS.chars token) ->
  let outcome :=
    match verify (Some token) with
    | Some payload => inr payload
    | None => inl (Err 401 "Invalid token")
    end in
  authenticate verify (Some (scheme ++ " " ++ token)) = outcome
  /\ authenticate verify (Some (scheme ++ " " ++ token ++ " " ++ tail)) = outcome.
Proof.
  intros Hs Ht outcome. unfold authenticate. append.
  rewrite !truthy_app. cbn [negb].
  rewrite !split_word by done. rewrite split_last by done. done.
Qed.

Lemma authenticate_reads_second_word_witness :
  authenticate Office.verify (Some "Basic t0k3n")
  = inr {| jw_id := Some "u1"; jw_role := Some "user"; jw_admin := false |}
  /\ authenticate Office.verify (Some " t0k3n and more")
     = inr {| jw_id := Some "u1"; jw_role := Some "user"; jw_admin := false |}.
Proof.
  split.
  - refine (proj1 (authenticate_reads_second_word Office.verify "Basic" "t0k3n" "" _ _));
      cbn; intuition discriminate.
  - refine (proj2 (authenticate_reads_second_word Office.verify "" "t0k3n" "and more" _ _));
      cbn; intuition discriminate.
Defined.

(** [adminAuth] lets a request through exactly when [authenticate] does
    and the payload has the role [admin] or a truthy [admin] field; the
    payload handed on is the same. *)
Theorem adminAuth_is_authenticate_for_admins verify authorization payload :
  adminAuth verify authorization = inr payload
  <-> authenticate verify authorization = inr payload
      /\ (jw_role payload = Some "admin" \/ jw_admin payload = true).
Proof.
  unfold adminAuth, authenticate.
  destruct authorization as [auth|]; [|split; [done|by intros [? _]]].
  destruct (negb (JS.truthy auth)).
  { split; [done|by intros [? _]]. }
  destruct (verify _) as [p|].
  2: { split; [done|by intros [? _]]. }
  destruct (bool_decide (jw_role p = Some "admin")) eqn:Hr; cbn [orb].
  - apply bool_decide_eq_true in Hr. split; [|tauto].
    intros H. injection H as <-. auto.
  - apply bool_decide_eq_false in Hr. destruct (jw_admin p) eqn:Ha.
    + split; [|tauto]. intros H. injection H as <-. auto.
    + split; [done|]. intros [H Hp]. injection H as <-.
      destruct Hp; [done|congruence].
Qed.

Lemma Withdrawal_save_twice minimize st w id u :
  Withdrawal_save (User_save minimize (Withdrawal_save st w) id u) w
  = User_save minimize (Withdrawal_save st w) id u.
Proof.
  unfold Withdrawal_save, User_save, Document_save. cbn [users withdrawals]. f_equal.
  rewrite map_map. apply map_ext. intros x.
  destruct (String.eqb (w_id x) (w_id w)) eqn:E; [by rewrite String.eqb_refl|by rewrite E].
Qed.

(** The approval handler of the withdrawal controller and the one of the
    admin controller answer alike and leave the same state: the second
    [withdrawal.save()] of approveWithdrawal stores what is stored. *)
Theorem approve_handlers_agree minimize st id now :
  approveWithdrawal minimize st id now = adminApprove minimize st id now.
Proof.
  unfold approveWithdrawal, adminApprove.
  destruct (Withdrawal_findById st id) as [w|]; [|done]. cbn zeta.
  destruct (User_findById st (w_user w)) as [owner|] eqn:Ho; [|done].
  assert (User_findById (Withdrawal_save st (withdrawal_with_status w approved)) (w_user w)
          = Some owner) as -> by exact Ho.
  by rewrite Withdrawal_save_twice.
Qed.

Lemma adminApprove_effect minimize st id now w u :
  Withdrawal_findById st id = Some w -> users st !! w_user w = Some u ->
  snd (adminApprove minimize st id now) = WithdrawalApproved
  /\ u_balance <$> users (fst (adminApprove minimize st id now)) !! w_user w = Some 0%float.
Proof.
  intros F Hu. unfold adminApprove, User_findById. rewrite F. cbn zeta. rewrite Hu.
  cbn [Withdrawal_save users]. rewrite Hu. cbn [fst snd]. split; [done|].
  unfold User_save, Document_save. cbn [users]. by rewrite lookup_insert_eq.
Qed.

(** The two routes to an approval ask for different things.  With a token
    that verifies and whose payload is no administrator's, the route of
    the admin router answers 403 and changes nothing, while
    [POST /:id/admin-approve] of the withdrawal router, which is behind
    [authenticate] only, runs adminApprove: the withdrawal of any user is
    approved and the balance of its owner is set to 0. *)
Theorem admin_approve_routes minimize verify st authorization payload id now :
  authenticate verify authorization = inr payload ->
  jw_role payload <> Some "admin" -> jw_admin payload = false ->
  admin_approveWithdrawal minimize verify st authorization id now = (st, Err 403 "Admin only")
  /\ withdraw_adminApprove minimize verify st authorization id now = adminApprove minimize st id now
  /\ forall w u,
       Withdrawal_findById st id = Some w -> users st !! w_user w = Some u ->
       snd (withdraw_adminApprove minimize verify st authorization id now) = WithdrawalApproved
       /\ u_balance <$> users (fst (withdraw_adminApprove minimize verify st authorization id now))
                          !! w_user w = Some 0%float.
Proof.
  intros Ha Hr Hf.
  assert (withdraw_adminApprove minimize verify st authorization id now = adminApprove minimize st
      id now) as E.
  { unfold withdraw_adminApprove. by rewrite Ha. }
  split; [|split; [done|]].
  - unfold admin_approveWithdrawal.
    destruct (adminAuth verify authorization) as [r|p] eqn:A.
    + unfold adminAuth, authenticate in *.
      destruct authorization as [auth|]; [|done].
      destruct (negb (JS.truthy auth)); [done|].
      destruct (verify _) as [p|]; [|done]. injection Ha as ->.
      rewrite Hf, orb_false_r in A. rewrite bool_decide_eq_false_2 in A by done.
      by injection A as <-.
    + unfold adminAuth, authenticate in *.
      destruct authorization as [auth|]; [|done].
      destruct (negb (JS.truthy auth)); [done|].
      destruct (verify _) as [q|]; [|done]. injection Ha as ->.
      rewrite Hf, orb_false_r in A. by rewrite bool_decide_eq_false_2 in A.
  - intros w u F Hu. rewrite E. by apply (adminApprove_effect minimize st id now w u).
Qed.

Lemma admin_approve_routes_witness :
  admin_approveWithdrawal Scenario.minimize Office.verify Scenario.issued (Some "Bearer t0k3n")
      "w1" 9
  = (Scenario.issued, Err 403 "Admin only")
  /\ snd (withdraw_adminApprove Scenario.minimize Office.verify Scenario.issued (Some
      "Bearer t0k3n") "w1" 9)
     = WithdrawalApproved.
Proof.
  pose proof (admin_approve_routes Scenario.minimize Office.verify Scenario.issued (Some
      "Bearer t0k3n")
                {| jw_id := Some "u1"; jw_role := Some "user"; jw_admin := false |} "w1" 9
                eq_refl ltac:(discriminate) eq_refl) as (H1 & _ & H3).
  split; [exact H1|].
  exact (proj1 (H3 Office.w1 Scenario.alice_issued eq_refl eq_refl)).
Defined.

End AuthFacts.

(** ** What every request leaves in place *)

Module InvariantFacts.
Import Invariant Admin.

Lemma sameRequest_refl w : sameRequest w w.
Proof. by repeat split. Qed.

Lemma sameRequest_trans w1 w2 w3 :
  sameRequest w1 w2 -> sameRequest w2 w3 -> sameRequest w1 w3.
Proof. unfold sameRequest. intuition congruence. Qed.

Lemma notCredited_refl u : notCredited u u.
Proof. repeat split. by left. Qed.

Lemma notCredited_trans u1 u2 u3 :
  notCredited u1 u2 -> notCredited u2 u3 -> notCredited u1 u3.
Proof. unfold notCredited. intuition congruence. Qed.

Lemma usersKept_refl st : usersKept st st.
Proof. intros id. destruct (users st !! id); [apply notCredited_refl|done]. Qed.

Lemma usersKept_same st st' : users st' = users st -> usersKept st st'.
Proof. intros E id. rewrite E. destruct (users st !! id); [apply notCredited_refl|done]. Qed.

Lemma usersKept_trans st1 st2 st3 :
  usersKept st1 st2 -> usersKept st2 st3 -> usersKept st1 st3.
Proof.
  intros U1 U2 id. specialize (U1 id). specialize (U2 id).
  destruct (users st1 !! id), (users st2 !! id), (users st3 !! id); try done.
  by eapply notCredited_trans.
Qed.

Lemma withdrawalsKept_same st st' :
  withdrawals st' = withdrawals st -> withdrawalsKept st st'.
Proof.
  intros E. split; rewrite E.
  - intros w H. exists w. split; [done|apply sameRequest_refl].
  - intros w H. left. exists w. split; [done|apply sameRequest_refl].
Qed.

Lemma withdrawalsKept_trans st1 st2 st3 :
  usersKept st1 st2 -> withdrawalsKept st1 st2 -> withdrawalsKept st2 st3 ->
  withdrawalsKept st1 st3.
Proof.
  intros U1 (K1 & N1) (K2 & N2). split.
  - intros w H. apply K1 in H as (w' & H & S1). apply K2 in H as (w'' & H & S2).
    exists w''. split; [done|]. by eapply sameRequest_trans.
  - intros w'' H. apply N2 in H as [(w' & H & S2)|H].
    + apply N1 in H as [(w & H & S1)|H].
      * left. exists w. split; [done|]. by eapply sameRequest_trans.
      * right. destruct S2 as (_ & -> & _). done.
    + right. specialize (U1 (w_user w'')). destruct H as [u2 H]. rewrite H in U1.
      by destruct (users st1 !! w_user w'').
Qed.

Lemma steps_refl st : steps st st.
Proof.
  split; [apply usersKept_refl|]. intros U. split; [by apply withdrawalsKept_same|done].
Qed.

Lemma steps_trans st1 st2 st3 : steps st1 st2 -> steps st2 st3 -> steps st1 st3.
Proof.
  intros [U1 H1] [U2 H2]. split; [by eapply usersKept_trans|].
  intros U. destruct (H1 U) as [E1 I1]. destruct (H2 I1) as [E2 I2].
  split; [by eapply withdrawalsKept_trans|done].
Qed.

(** *** The four writes *)

Lemma steps_Document_save minimize st id u d :
  users st !! id = Some u -> notCredited u (d_user d) ->
  steps st (Document_save minimize st id d).
Proof.
  intros Hu Hn. split.
  - intros i. unfold Document_save. cbn [users]. destruct (decide (i = id)) as [->|Hne].
    + by rewrite Hu, lookup_insert_eq.
    + rewrite lookup_insert_ne by done.
      destruct (users st !! i); [apply notCredited_refl|done].
  - intros U. split; [by apply withdrawalsKept_same|done].
Qed.

Lemma steps_User_save minimize st id u u' :
  users st !! id = Some u -> notCredited u u' -> steps st (User_save minimize st id u').
Proof. intros Hu Hn. by apply (steps_Document_save minimize st id u (load u')). Qed.

Lemma steps_notifyAdmins minimize st text now : steps st (notifyAdmins minimize st text now).
Proof.
  split.
  - intros i. unfold notifyAdmins. cbn [users]. rewrite lookup_fmap.
    destruct (users st !! i) as [u|]; [|done]. cbn.
    destruct (String.eqb (u_role u) "admin"); repeat split; by left.
  - intros U. split; [by apply withdrawalsKept_same|done].
Qed.

Lemma uniqueIds_In st w x :
  uniqueIds st -> In w (withdrawals st) -> In x (withdrawals st) -> w_id x = w_id w ->
  x = w.
Proof.
  unfold uniqueIds. induction (withdrawals st) as [|y l IH]; [done|].
  cbn. intros U Hw Hx Hid. apply NoDup_cons in U as [Hy U].
  destruct Hw as [->|Hw], Hx as [->|Hx]; try done.
  - exfalso. apply Hy. rewrite <- Hid. apply list_elem_of_In. by apply in_map.
  - exfalso. apply Hy. rewrite Hid. apply list_elem_of_In. by apply in_map.
  - by apply IH.
Qed.

Lemma map_id_save st w' :
  map w_id (withdrawals (Withdrawal_save st w')) = map w_id (withdrawals st).
Proof.
  unfold Withdrawal_save. cbn [withdrawals]. rewrite map_map. apply map_ext.
  intros x. destruct (String.eqb_spec (w_id x) (w_id w')); congruence.
Qed.

Lemma steps_Withdrawal_save st w w' :
  In w (withdrawals st) -> sameRequest w w' -> steps st (Withdrawal_save st w').
Proof.
  intros Hw Hs. split; [by apply usersKept_same|].
  intros U. split; [|unfold uniqueIds; by rewrite map_id_save]. split.
  - intros x Hx. unfold Withdrawal_save. cbn [withdrawals].
    destruct (String.eqb (w_id x) (w_id w')) eqn:E.
    + exists w'. split.
      * apply in_map_iff. exists x. by rewrite E.
      * apply String.eqb_eq in E. assert (x = w) as ->; [|done].
        apply (uniqueIds_In st); try done. destruct Hs as (Hid & _). congruence.
    + exists x. split; [|apply sameRequest_refl].
      apply in_map_iff. exists x. by rewrite E.
  - intros x Hx. left. apply In_save in Hx as [Hx|[-> _]].
    + exists x. split; [done|apply sameRequest_refl].
    + by exists w.
Qed.

Lemma steps_insert st w st' :
  Withdrawal_insert st w = Some st' -> is_Some (users st !! w_user w) -> steps st st'.
Proof.
  unfold Withdrawal_insert. destruct (Withdrawal_findById st (w_id w)) eqn:F; [done|].
  intros H Hu. injection H as <-. split; [by apply usersKept_same|]. intros U. split.
  - split.
    + intros x Hx. exists x. split; [by right|apply sameRequest_refl].
    + intros x [<-|Hx]; [by right|]. left. exists x. split; [done|apply sameRequest_refl].
  - unfold uniqueIds. cbn. apply NoDup_cons. split; [|done].
    intros Hin. apply list_elem_of_In, in_map_iff in Hin as (x & Hid & Hx).
    unfold Withdrawal_findById in F.
    eapply find_none in F; [|done]. cbn in F. rewrite Hid, String.eqb_refl in F. done.
Qed.

(** *** The handlers *)

(** Closes a goal about a document that was copied with other fields
    changed. *)
Ltac kept := first [apply sameRequest_refl | by repeat split | repeat split; by left].

Lemma resumeOrCreate_steps st uid user method details newId now :
  users st !! uid = Some user ->
  steps st (fst (resumeOrCreate st uid user method details newId now)).
Proof.
  intros Hu. unfold resumeOrCreate. cbn zeta.
  set (w := newWithdrawal newId uid (u_balance user) method details now).
  assert (steps st (fst (match Withdrawal_insert st w with
                         | Some st' => (st', PreviewCreated (w_id w) (previewOf w))
                         | None => (st, ServerError)
                         end))) as Hc.
  { destruct (Withdrawal_insert st w) eqn:E; [|apply steps_refl].
    eapply steps_insert; [done|]. cbn. by rewrite Hu. }
  destruct (Withdrawal_latest st uid) as [latest|]; [|done].
  destruct (inProgress latest); [apply steps_refl|done].
Qed.

Lemma createPreview_steps st uid method details newId now :
  steps st (fst (createPreview st uid method details newId now)).
Proof.
  unfold createPreview, User_findById.
  destruct (users st !! uid) eqn:Hu; [|apply steps_refl].
  repeat case_match; try apply steps_refl. by apply resumeOrCreate_steps.
Qed.

Lemma withdrawRequest_steps st uid method details newId now :
  steps st (fst (withdrawRequest st uid method details newId now)).
Proof.
  unfold withdrawRequest, User_findById.
  destruct (users st !! uid) eqn:Hu; [|apply steps_refl].
  repeat case_match; try apply steps_refl. by apply resumeOrCreate_steps.
Qed.

Lemma proceedWithdraw_steps st uid id : steps st (fst (proceedWithdraw st uid id)).
Proof.
  unfold proceedWithdraw.
  destruct (Withdrawal_findById st id) as [w|] eqn:F; [|apply steps_refl].
  repeat case_match; try apply steps_refl. cbn [fst].
  eapply steps_Withdrawal_save; [by eapply findById_In|kept].
Qed.

Lemma withdrawProceed_steps st uid id : steps st (fst (withdrawProceed st uid id)).
Proof.
  unfold withdrawProceed. destruct (resumable st uid id).
  { repeat case_match; apply steps_refl. }
  destruct (Withdrawal_findById st id) as [w|] eqn:F; [|apply steps_refl].
  destruct (negb _); [apply steps_refl|]. cbn zeta.
  assert (steps st (Withdrawal_save st (withdrawal_with_status w pending_activation))) as H.
  { eapply steps_Withdrawal_save; [by eapply findById_In|kept]. }
  by repeat case_match.
Qed.

Lemma submitStagePayment_steps minimize st uid pb files upload now :
  steps st (fst (submitStagePayment minimize st uid pb files upload now)).
Proof.
  unfold submitStagePayment.
  destruct (Withdrawal_findById st _) as [w|] eqn:F; [|apply steps_refl].
  destruct (User_findById st (w_user w)); [|apply steps_refl].
  destruct (negb _); [apply steps_refl|]. cbn zeta.
  match goal with |- context [Withdrawal_save st ?x] =>
    assert (steps st (Withdrawal_save st x)) as H1
      by (eapply steps_Withdrawal_save; [by eapply findById_In|kept]);
    set (st1 := Withdrawal_save st x) in *
  end.
  destruct (User_findById st1 uid) as [user|] eqn:Hu; [|done]. cbn [fst].
  eapply steps_trans; [exact H1|]. eapply steps_trans; [|apply steps_notifyAdmins].
  eapply steps_User_save; [exact Hu|kept].
Qed.

Lemma submitActivationPayment_steps minimize st uid body files upload now :
  steps st (fst (submitActivationPayment minimize st uid body files upload now)).
Proof.
  unfold submitActivationPayment. destruct (negb (JS.truthy uid)); [apply steps_refl|].
  destruct (User_findById st uid) as [user|] eqn:Hu; [|apply steps_refl].
  destruct (_ || _).
  - unfold stagePaymentFlow.
    destruct (Withdrawal_findById st _) as [w|] eqn:F; [|apply steps_refl].
    destruct (negb _); [apply steps_refl|]. cbn zeta. cbn [fst].
    eapply steps_trans; [|apply steps_notifyAdmins].
    eapply steps_trans; [|eapply steps_User_save; [exact Hu|kept]].
    eapply steps_Withdrawal_save; [by eapply findById_In|kept].
  - unfold legacyPaymentFlow. cbn zeta.
    repeat case_match; try apply steps_refl; cbn [fst];
      (eapply steps_trans; [|apply steps_notifyAdmins]);
      (eapply steps_User_save; [exact Hu|kept]).
Qed.

Lemma resolvePin_steps minimize engine st uid user stage now st1 user1 stageObj :
  users st !! uid = Some user ->
  resolvePin minimize engine st uid (load user) stage now = inr (st1, user1, stageObj) ->
  steps st st1 /\ exists u1, users st1 !! uid = Some u1 /\ notCredited u1 (d_user user1).
Proof.
  intros Hu. unfold resolvePin, recoverPin. intros H.
  repeat case_match; simplify_eq;
    first [ split; [apply steps_refl|exists user; split; [done|apply notCredited_refl]]
          | split; [eapply steps_Document_save; [exact Hu|kept]
                   |eexists; split; [apply lookup_insert_eq|apply notCredited_refl]] ].
Qed.

Lemma confirmStagePin_steps minimize engine st uid wid stage pin now :
  steps st (fst (confirmStagePin minimize engine st uid wid stage pin now)).
Proof.
  unfold confirmStagePin, User_findById.
  destruct (users st !! uid) as [user|] eqn:Hu; [|apply steps_refl].
  destruct (resolvePin minimize engine st uid (load user) stage now)
    as [r|[[st1 user1] stageObj]] eqn:R; [apply steps_refl|].
  apply resolvePin_steps in R as (S1 & u1 & Hu1 & N1); [|done].
  destruct (negb _); [done|]. cbn zeta. cbn [fst].
  eapply steps_trans; [exact S1|].
  match goal with |- context [Document_save minimize st1 uid ?x] =>
    assert (steps st1 (Document_save minimize st1 uid x)) as H2
      by (eapply steps_Document_save; [exact Hu1|exact N1]);
    set (st2 := Document_save minimize st1 uid x) in *
  end.
  eapply steps_trans; [exact H2|].
  destruct (Withdrawal_latest st2 uid) as [w|] eqn:L; [|apply steps_refl].
  eapply steps_Withdrawal_save; [by eapply latest_In|].
  unfold advance. repeat case_match; kept.
Qed.

Lemma adminApprove_steps minimize st id now : steps st (fst (adminApprove minimize st id now)).
Proof.
  unfold adminApprove.
  destruct (Withdrawal_findById st id) as [w|] eqn:F; [|apply steps_refl]. cbn zeta.
  assert (steps st (Withdrawal_save st (withdrawal_with_status w approved))) as H1
    by (eapply steps_Withdrawal_save; [by eapply findById_In|kept]).
  destruct (User_findById st (w_user w)) as [owner|]; [|done].
  destruct (User_findById (Withdrawal_save st _) (w_user w)) as [u|] eqn:Hu; [|done].
  cbn [fst]. eapply steps_trans; [exact H1|].
  eapply steps_User_save; [exact Hu|]. repeat split. by right.
Qed.

Lemma approveWithdrawal_steps minimize st id now : steps st (fst (approveWithdrawal minimize st id
    now)).
Proof.
  unfold approveWithdrawal.
  destruct (Withdrawal_findById st id) as [w|] eqn:F; [|apply steps_refl]. cbn zeta.
  assert (steps st (Withdrawal_save st (withdrawal_with_status w approved))) as H1
    by (eapply steps_Withdrawal_save; [by eapply findById_In|kept]).
  destruct (User_findById st (w_user w)) as [owner|]; [|exact H1].
  destruct (User_findById (Withdrawal_save st _) (w_user w)) as [u|] eqn:Hu; [|exact H1].
  cbn [fst]. eapply steps_trans; [exact H1|].
  eapply steps_trans.
  2: { eapply (steps_Withdrawal_save _ (withdrawal_with_status w approved)); [|kept].
       cbn. apply in_map_iff. exists w. split; [|by eapply findById_In].
       by rewrite String.eqb_refl. }
  eapply steps_User_save; [exact Hu|]. repeat split. by right.
Qed.

Lemma setPinForUser_steps minimize st uid stage pin now :
  steps st (fst (setPinForUser minimize st uid stage pin now)).
Proof.
  unfold setPinForUser. destruct (_ || _); [apply steps_refl|].
  destruct (User_findById st uid) as [user|] eqn:Hu; [|apply steps_refl].
  eapply steps_Document_save; [exact Hu|kept].
Qed.

Lemma notifyUser_steps minimize st uid text now : steps st (fst (notifyUser minimize st uid text
    now)).
Proof.
  unfold notifyUser.
  destruct (User_findById st uid) as [user|] eqn:Hu; [|apply steps_refl].
  eapply steps_User_save; [exact Hu|kept].
Qed.

Lemma dashboard_steps minimize st uid role now : steps st (fst (dashboard minimize st uid role
    now)).
Proof.
  unfold dashboard. destruct (String.eqb role "admin"); [apply steps_refl|].
  destruct (User_findById st uid) as [user|] eqn:Hu; [|apply steps_refl]. cbn zeta.
  destruct (timerExpired user now); [|apply steps_refl].
  eapply steps_User_save; [exact Hu|]. repeat split. by right.
Qed.

Lemma handle_steps minimize engine st now req : steps st (fst (handle minimize engine st now req)).
Proof.
  destruct req; cbn [handle].
  - apply createPreview_steps.
  - apply withdrawRequest_steps.
  - apply proceedWithdraw_steps.
  - apply withdrawProceed_steps.
  - apply submitStagePayment_steps.
  - apply submitActivationPayment_steps.
  - apply confirmStagePin_steps.
  - apply adminApprove_steps.
  - apply approveWithdrawal_steps.
  - apply setPinForUser_steps.
  - apply notifyUser_steps.
  - apply dashboard_steps.
Qed.

Lemma run_steps minimize engine reqs : forall st, steps st (run minimize engine st reqs).
Proof.
  induction reqs as [|[now req] reqs IH]; intros st; [apply steps_refl|].
  cbn [run]. eapply steps_trans; [apply handle_steps|apply IH].
Qed.

(** *** The store stays sound *)

Lemma steps_sound st st' : steps st st' -> sound st -> sound st'.
Proof.
  intros [U H] [I O]. destruct (H I) as [[K N] I']. split; [done|].
  intros w' Hw'. apply N in Hw' as [(w & Hw & S)|Hu].
  - destruct S as (_ & -> & _). apply O in Hw as [u Hu].
    specialize (U (w_user w)). rewrite Hu in U. by destruct (users st' !! w_user w).
  - destruct Hu as [u Hu]. specialize (U (w_user w')). rewrite Hu in U.
    by destruct (users st' !! w_user w').
Qed.

Lemma editUser_sound minimize numberToString st id balance action now :
  sound st -> sound (fst (editUser minimize numberToString st id balance action now)).
Proof.
  intros [I O]. unfold editUser, User_findById.
  destruct (users st !! id) as [user|] eqn:Hu; [|done]. cbn zeta. cbn [fst].
  split; [done|]. intros w Hw. cbn in Hw. apply O in Hw. unfold User_save, Document_save. cbn
      [users].
  destruct (decide (w_user w = id)) as [->|Hne].
  - by rewrite lookup_insert_eq.
  - by rewrite lookup_insert_ne.
Qed.

Lemma deleteUser_sound st id : sound st -> sound (fst (deleteUser st id)).
Proof.
  intros [I O]. unfold deleteUser, User_findById.
  destruct (users st !! id) as [user|] eqn:Hu; [|done]. cbn [fst]. split.
  - unfold uniqueIds in *. cbn [withdrawals]. clear O.
    induction (withdrawals st) as [|x l IH]; [done|]. cbn in *.
    apply NoDup_cons in I as [Hx I]. destruct (negb _); [|by apply IH].
    cbn. apply NoDup_cons. split; [|by apply IH].
    intros Hin. apply Hx. apply list_elem_of_In in Hin. apply list_elem_of_In.
    apply in_map_iff in Hin as (y & Hy & Hin). apply filter_In in Hin as [Hin _].
    apply in_map_iff. by exists y.
  - intros w Hw. cbn in Hw. apply filter_In in Hw as [Hw Hne].
    apply negb_true_iff in Hne. apply String.eqb_neq in Hne.
    cbn [users]. rewrite lookup_delete_ne by done. by apply O.
Qed.

Lemma serve_sound minimize engine numberToString st now op :
  sound st -> sound (serve minimize engine numberToString st now op).
Proof.
  destruct op; cbn [serve].
  - apply steps_sound, handle_steps.
  - apply editUser_sound.
  - apply deleteUser_sound.
Qed.

Lemma sound_init : sound Scenario.init.
Proof. split; [apply NoDup_nil_2|by intros w []]. Qed.

(** Referential integrity is an invariant of the whole server: when the
    ids of the withdrawals are distinct and every withdrawal belongs to a
    stored user, this is so after any sequence of requests of the flow,
    of editUser and of deleteUser, which removes the withdrawals of the
    user with the user. *)
Theorem store_stays_sound minimize engine numberToString ops : forall st,
  sound st -> sound (serveAll minimize engine numberToString st ops).
Proof.
  induction ops as [|[now op] ops IH]; intros st H; [done|].
  cbn [serveAll]. by apply IH, serve_sound.
Qed.

Lemma store_stays_sound_witness :
  sound (serveAll Scenario.minimize Scenario.engine Office.numberToString Scenario.init
           [(1%Z, Flow (CreatePreview "u1" "crypto" None "w1"));
            (2%Z, EditUser "u1" (Some 5000%float) "stopTimer");
            (3%Z, DeleteUser "u1")]).
Proof. apply store_stays_sound, sound_init. Defined.

(** No request of the flow creates or removes a user, changes a user
    name, a country or a role, or credits a balance: after any sequence
    of them every balance is what it was or 0.  Only editUser credits. *)
Theorem flow_never_credits minimize engine st reqs : usersKept st (run minimize engine st reqs).
Proof. by destruct (run_steps minimize engine reqs st). Qed.

(** No request of the flow removes a withdrawal or rewrites what it was
    created with: after any sequence of them a withdrawal is still
    stored, with its [_id], owner, amount, method, details and creation
    time.  The amount stays the balance at the time of the preview. *)
Theorem withdrawal_keeps_its_request minimize engine st reqs w :
  uniqueIds st -> In w (withdrawals st) ->
  exists w', In w' (withdrawals (run minimize engine st reqs)) /\ sameRequest w w'.
Proof.
  intros U Hw. destruct (run_steps minimize engine reqs st) as [_ H].
  destruct (H U) as [[K _] _]. by apply K.
Qed.

Lemma withdrawal_keeps_its_request_witness :
  exists w',
    In w' (withdrawals
             (run Scenario.minimize Scenario.engine Scenario.issued
                [(3%Z, ConfirmStagePin "u1" "w1" "activation" "1111");
                 (4%Z, AdminApprove "w1")]))
    /\ sameRequest Office.w1 w'.
Proof.
  apply (withdrawal_keeps_its_request Scenario.minimize Scenario.engine Scenario.issued).
  - unfold uniqueIds. vm_compute. apply NoDup_singleton.
  - vm_compute. by left.
Defined.

Lemma no_withdrawal_of_absent st id :
  owned st -> users st !! id = None ->
  forall w, In w (withdrawals st) -> String.eqb (w_user w) id = false.
Proof.
  intros O Hu w Hw. apply O in Hw as [u Hw]. apply String.eqb_neq. congruence.
Qed.

(** A request made as a user that is not stored, such as one with the
    token of a deleted user, changes nothing, whatever withdrawal it
    names. *)
Theorem absent_user_changes_nothing minimize engine st now req id :
  owned st -> users st !! id = None -> caller req = Some id ->
  fst (handle minimize engine st now req) = st.
Proof.
  intros O Hu Hc. pose proof (no_withdrawal_of_absent st id O Hu) as Hn.
  destruct req; cbn in Hc; simplify_eq; cbn [handle].
  - unfold createPreview, User_findById. by rewrite Hu.
  - unfold withdrawRequest, User_findById. by rewrite Hu.
  - unfold proceedWithdraw. destruct (Withdrawal_findById st _) as [w|] eqn:F; [|done].
    destruct (User_findById st (w_user w)); [|done].
    by rewrite (Hn w (findById_In _ _ _ F)).
  - unfold withdrawProceed, resumable.
    destruct (Withdrawal_latest st id) as [l|] eqn:L.
    { apply latest_In in L as Hl. apply latest_user in L.
      apply Hn in Hl. rewrite L, String.eqb_refl in Hl. done. }
    destruct (Withdrawal_findById st _) as [w|] eqn:F; [|done].
    by rewrite (Hn w (findById_In _ _ _ F)).
  - unfold submitStagePayment. destruct (Withdrawal_findById st _) as [w|] eqn:F; [|done].
    destruct (User_findById st (w_user w)); [|done].
    by rewrite (Hn w (findById_In _ _ _ F)).
  - unfold submitActivationPayment, User_findById. rewrite Hu. by destruct (negb _).
  - unfold confirmStagePin, User_findById. by rewrite Hu.
  - unfold dashboard, User_findById. rewrite Hu. by destruct (String.eqb _ _).
Qed.

Lemma absent_user_changes_nothing_witness :
  fst (handle Scenario.minimize Scenario.engine Scenario.issued 3 (ProceedWithdraw "u2" "w1")) =
      Scenario.issued.
Proof.
  apply (absent_user_changes_nothing Scenario.minimize Scenario.engine Scenario.issued 3
           (ProceedWithdraw "u2" "w1") "u2").
  - intros w Hw. vm_compute in Hw. destruct Hw as [<-|[]]. vm_compute. by eexists.
  - vm_compute. reflexivity.
  - reflexivity.
Defined.

End InvariantFacts.

(** ** The timer of editUser *)

Module AdminFacts.
Import Admin.

Section Timer.
Variable numberToString : float -> string.

Lemma editUser_stored minimize st id u balance action t :
  users st !! id = Some u ->
  exists u1,
    users (fst (editUser minimize numberToString st id balance action t)) !! id = Some u1
    /\ u_username u1 = u_username u /\ u_country u1 = u_country u
    /\ u_balance u1 =
         (if String.eqb action "startTimer" then default (u_balance u) balance
          else if String.eqb action "stopTimer" then 0%float
          else default (u_balance u) balance)
    /\ u_timerActive u1 =
         (if String.eqb action "startTimer" then true
          else if String.eqb action "stopTimer" then false else u_timerActive u)
    /\ u_timerEnds u1 =
         (if String.eqb action "startTimer" then Some (t + 86400000)%Z
          else if String.eqb action "stopTimer" then None else u_timerEnds u).
Proof.
  intros Hu. unfold editUser, User_findById. rewrite Hu. cbn zeta. cbn [fst].
  eexists. split; [unfold User_save, Document_save; cbn [users]; apply lookup_insert_eq|].
  destruct balance, (String.eqb action "startTimer"), (String.eqb action "stopTimer");
    by repeat split.
Qed.

(** The timer that editUser starts runs for 24 hours.  A dashboard read
    before its end shows the credited balance and changes nothing; a read
    at its end or later shows a balance of 0 and a stopped timer, and
    from then on createPreview answers InsufficientBalance. *)
Theorem timer_runs_for_a_day minimize st id u b t role t' :
  users st !! id = Some u -> String.eqb role "admin" = false ->
  let st1 := fst (editUser minimize numberToString st id (Some b) "startTimer" t) in
  let ends := (t + 86400000)%Z in
  let notifications := default [] (u_notifications <$> users st1 !! id) in
  ((t' < ends)%Z ->
     dashboard minimize st1 id role t'
     = (st1, Dashboard (u_username u) b true (Some ends) notifications (u_country u)))
  /\ ((ends <= t')%Z ->
        snd (dashboard minimize st1 id role t')
        = Dashboard (u_username u) 0 false None notifications (u_country u)
        /\ forall method details newId t'',
             snd (createPreview (fst (dashboard minimize st1 id role t')) id method details
                    newId t'')
             = InsufficientBalance).
Proof.
  intros Hu Hr st1 ends notifications.
  destruct (editUser_stored minimize st id u (Some b) "startTimer" t Hu)
    as (u1 & H1 & Hn & Hc & Hb & Ha & He).
  fold st1 in H1. cbn in Hb, Ha, He. fold ends in He.
  unfold notifications. rewrite H1. cbn [fmap option_fmap option_map default].
  unfold dashboard, User_findById. rewrite Hr, H1. cbn zeta.
  unfold timerExpired. rewrite Ha, He. cbn [andb]. split.
  - intros Hlt. apply Z.leb_gt in Hlt. rewrite Hlt. by rewrite Hn, Hb, Ha, He, Hc.
  - intros Hle. apply Z.leb_le in Hle. rewrite Hle. cbn [fst snd]. split.
    + cbn. by rewrite Hn, Hc.
    + intros method details newId t''. unfold createPreview, User_findById, User_save,
        Document_save.
      cbn [users]. by rewrite lookup_insert_eq.
Qed.

(** [stopTimer] empties the wallet, also when the request carries a
    balance: the stored balance is 0, the timer is off, and createPreview
    answers InsufficientBalance. *)
Theorem stopTimer_empties_the_wallet minimize st id u balance t :
  users st !! id = Some u ->
  let st1 := fst (editUser minimize numberToString st id balance "stopTimer" t) in
  (exists u1, users st1 !! id = Some u1 /\ u_balance u1 = 0%float
              /\ u_timerActive u1 = false /\ u_timerEnds u1 = None)
  /\ forall method details newId t',
       createPreview st1 id method details newId t' = (st1, InsufficientBalance).
Proof.
  intros Hu st1.
  destruct (editUser_stored minimize st id u balance "stopTimer" t Hu)
    as (u1 & H1 & Hn & Hc & Hb & Ha & He).
  fold st1 in H1. cbn in Hb, Ha, He. split; [by exists u1|].
  intros method details newId t'. unfold createPreview, User_findById. by rewrite H1, Hb.
Qed.

End Timer.

Lemma timer_runs_for_a_day_witness :
  dashboard Scenario.minimize Office.credited "u1" "user" 86400999
  = (Office.credited,
     Dashboard "alice" 5000 true (Some 86401000%Z)
       (default [] (u_notifications <$> users Office.credited !! "u1")) "Canada")
  /\ snd (dashboard Scenario.minimize Office.credited "u1" "user" 86401000)
     = Dashboard "alice" 0 false None
         (default [] (u_notifications <$> users Office.credited !! "u1")) "Canada".
Proof.
  split.
  - apply (proj1 (timer_runs_for_a_day Office.numberToString Scenario.minimize Scenario.init "u1"
                    Scenario.alice 5000%float 1000 "user" 86400999 eq_refl eq_refl)).
    lia.
  - apply (proj2 (timer_runs_for_a_day Office.numberToString Scenario.minimize Scenario.init "u1"
                    Scenario.alice 5000%float 1000 "user" 86401000 eq_refl eq_refl)).
    lia.
Defined.

Lemma stopTimer_empties_the_wallet_witness :
  createPreview
    (fst (editUser Scenario.minimize Office.numberToString Scenario.init "u1" (Some 5000%float)
        "stopTimer" 7))
    "u1" "crypto" None "w1" 8
  = (fst (editUser Scenario.minimize Office.numberToString Scenario.init "u1" (Some 5000%float)
      "stopTimer" 7),
     InsufficientBalance).
Proof.
  apply (proj2 (stopTimer_empties_the_wallet Office.numberToString Scenario.minimize Scenario.init
      "u1"
                  Scenario.alice (Some 5000%float) 7 eq_refl)).
Defined.

End AdminFacts.

(** ** Pins, issued and sent *)


Lemma exec_four_digits stage text d :
  Regex.exec stage text = Some d -> JS.all_digits 4 d = true.
Proof.
  intros H. apply RegexFacts.exec_sound in H.
  destruct H as (pre & name & g & kw & sp & post & _ & _ & _ & _ & _ & _ & _ & _ & Hl & Hd).
  unfold JS.all_digits. rewrite Hd, andb_true_r. by apply Nat.eqb_eq.
Qed.

Lemma scan_four_digits stage l d :
  scanNotifications (Regex.exec stage) l = Some d -> JS.all_digits 4 d = true.
Proof.
  induction l as [|n l IH]; [done|]. cbn [scanNotifications].
  destruct (negb _); [done|].
  destruct (Regex.exec stage (n_text n)) eqn:E; [|done].
  intros [= <-]. by eapply exec_four_digits.
Qed.

(** Through the fallback only a pin of four decimal digits is ever
    confirmed: when no pin is issued for the stage, a submitted pin that
    is not made of four digits is never answered with success. *)
Theorem fallback_confirms_four_digits_only minimize engine st uid wid stage pin now u next amount :
  users st !! uid = Some u ->
  pinIsSet u stage = false ->
  Regex.regex_literal stage = true ->
  snd (confirmStagePin minimize engine st uid wid stage pin now) = PinConfirmed next amount ->
  JS.all_digits 4 pin = true.
Proof.
  intros Hu Hp Hl. unfold confirmStagePin, User_findById. rewrite Hu.
  rewrite resolvePin_unset by done. unfold recoverPin, stagePattern. rewrite Hl.
  unfold foundPin. destruct (scanNotifications _ _) as [d|] eqn:S; [|done].
  cbn [pr_pin discoveredPin]. destruct (String.eqb_spec d pin) as [<-|]; [|done].
  intros _. by eapply scan_four_digits.
Qed.

Lemma fallback_confirms_four_digits_only_witness :
  snd (confirmStagePin Scenario.minimize Scenario.engine Scenario.notified "u1" "w1" "tax" "1234" 3)
  = PinConfirmed (Some insurance) 500
  /\ JS.all_digits 4 "1234" = true.
Proof.
  split; [reflexivity|].
  apply (fallback_confirms_four_digits_only Scenario.minimize Scenario.engine Scenario.notified
      "u1" "w1" "tax"
           "1234" 3 Scenario.alice_notified (Some insurance) 500%float);
    vm_compute; reflexivity.
Defined.

Module NoticeFacts.
Import JS Regex Accepted RegexFacts Notice.
Local Open Scope list_scope.

Lemma occurs_intro stage pre name rest :
  folded stage name -> occurs stage (pre ++ name ++ rest) = true.
Proof.
  intros H. apply existsb_exists. exists (length pre). split.
  - apply in_seq. rewrite !length_app. lia.
  - rewrite drop_app_length. apply bool_decide_eq_true.
    by rewrite (literal_ci_complete stage None name rest H).
Qed.

(** In a text whose only digits are its last four characters, four
    digits stand at the end and nowhere else. *)
Lemma digits_at_the_end P : forall X pin d post,
  P ++ pin = X ++ d ++ post ->
  forallb (fun c => negb (is_digit c)) P = true ->
  length pin = 4%nat -> length d = 4%nat -> forallb is_digit d = true ->
  X = P /\ d = pin.
Proof.
  induction P as [|c P IH]; intros X pin d post E HP Hpin Hd Hdig.
  - cbn in E. apply (f_equal (@length ascii)) in E as L. rewrite !length_app in L.
    destruct X; [|cbn in L; lia]. destruct post; [|cbn in L; lia].
    split; [done|]. cbn in E. by rewrite app_nil_r in E.
  - cbn in HP. apply andb_true_iff in HP as [Hc HP]. destruct X as [|x X].
    + destruct d as [|y d]; [done|]. cbn in E. injection E as -> _.
      cbn in Hdig. apply andb_true_iff in Hdig as [Hy _]. by rewrite Hy in Hc.
    + cbn in E. injection E as <- E.
      destruct (IH _ _ _ _ E HP Hpin Hd Hdig) as [-> ->]. done.
Qed.

Lemma noticeHead_plain s : forallb (fun c => negb (is_digit c)) (noticeHead s) = true.
Proof. by destruct s. Qed.

Lemma noticeHead_other s s' :
  s' <> s -> occurs (chars (stage_name s')) (noticeHead s) = false.
Proof. destruct s, s'; intros H; try done; vm_compute; reflexivity. Qed.

Lemma notice_chars s pin : chars (notice s pin) = noticeHead s ++ chars pin.
Proof. destruct s; reflexivity. Qed.

Lemma notice_match s pin :
  length (chars pin) = 4%nat -> forallb is_digit (chars pin) = true ->
  Accepts (chars (stage_name s)) (noticeHead s ++ chars pin) (chars pin).
Proof.
  intros Hl Hd.
  exists (chars "Your "), (chars (stage_name s)), (chars " pin "), (chars "is"),
    (chars ": "), [].
  rewrite app_nil_r. destruct s; repeat split; try done; try (cbn; lia); right; by right.
Qed.

(** The pattern of a stage reads the pin back from the notice of that
    stage, and finds nothing in the notice of another one. *)
Lemma notice_exec s s' pin :
  all_digits 4 pin = true ->
  exec (stage_name s') (notice s pin) = if bool_decide (s' = s) then Some pin else None.
Proof.
  unfold all_digits. intros H. apply andb_true_iff in H as [Hl Hd]. apply Nat.eqb_eq in Hl.
  destruct (exec (stage_name s') _) as [d|] eqn:E.
  - apply exec_sound in E as M. rewrite notice_chars in M.
    destruct M
      as (pre & name & g & kw & sp & post & Et & Hn & _ & _ & _ & _ & _ & _ & Hdl & Hdd).
    replace (pre ++ name ++ g ++ kw ++ sp ++ chars d ++ post)
      with ((pre ++ name ++ g ++ kw ++ sp) ++ chars d ++ post) in Et
      by by rewrite <- !app_assoc.
    destruct (digits_at_the_end _ _ _ _ _ Et (noticeHead_plain s) Hl Hdl Hdd) as [EP Ed].
    apply chars_inj in Ed as ->.
    destruct (decide (s' = s)) as [->|Hne]; [by rewrite bool_decide_eq_true_2|].
    exfalso. pose proof (noticeHead_other s s' Hne) as Ho.
    rewrite <- EP in Ho. by rewrite (occurs_intro _ pre name (g ++ kw ++ sp) Hn) in Ho.
  - destruct (decide (s' = s)) as [->|Hne]; [|by rewrite bool_decide_eq_false_2].
    exfalso. pose proof (notice_match s pin Hl Hd) as M. rewrite <- notice_chars in M.
    apply exec_complete in M as [d M]. congruence.
Qed.

End NoticeFacts.

Lemma stage_name_literal s : Regex.regex_literal (stage_name s) = true.
Proof. by destruct s. Qed.

Lemma notice_truthy s pin : JS.truthy (Notice.notice s pin) = true.
Proof. by destruct s. Qed.

(** The text of setPinForUser is read back.  When it reaches a user as a
    plain notification and no pin is issued for its stage, the stage is
    confirmed with the four digits of the text and with no other pin,
    whatever older notifications say; and the text of one stage is never
    read as the pin of another: with no other notification, a
    confirmation of another stage answers NoPinSet and changes nothing. *)
Theorem template_notice_round_trip minimize engine st uid wid s pin pin' t t' u :
  users st !! uid = Some u ->
  JS.all_digits 4 pin = true ->
  let st1 := fst (notifyUser minimize st uid (Notice.notice s pin) t) in
  (pinIsSet u (stage_name s) = false ->
   snd (confirmStagePin minimize engine st1 uid wid (stage_name s) pin' t')
   = if String.eqb pin pin'
     then PinConfirmed (successor s) (stageAmount (successor s) (u_balance u))
     else IncorrectPin)
  /\ (forall s', s' <> s -> pinIsSet u (stage_name s') = false -> u_notifications u = [] ->
        confirmStagePin minimize engine st1 uid wid (stage_name s') pin' t' = (st1, NoPinSet)).
Proof.
  intros Hu Hp st1.
  set (u1 := stored minimize (load (push_notification u (Notice.notice s pin) t))).
  assert (users st1 !! uid = Some u1) as H1.
  { unfold st1, notifyUser, User_findById. rewrite Hu. cbn [fst].
    unfold User_save, Document_save. cbn [users]. apply lookup_insert_eq. }
  assert (forall stage, pinIsSet u1 stage = pinIsSet u stage) as Hset.
  { intros stage. unfold pinIsSet, u1, stored.
    cbn [load d_user d_default d_activationPins u_activationPins user_with_status
      user_with_pins push_notification user_with_notifications].
    by rewrite held_written. }
  assert (u_notifications u1
          = (u_notifications u
             ++ [{| n_text := Notice.notice s pin; n_createdAt := t; n_read := false |}])%list)
    as Hnot by done.
  assert (u_balance u1 = u_balance u) as Hbal by done.
  clearbody u1. split.
  - intros Hs. unfold confirmStagePin, User_findById. rewrite H1.
    rewrite resolvePin_unset by by rewrite Hset. unfold recoverPin, stagePattern.
    rewrite stage_name_literal. unfold foundPin. cbn [load d_user]. rewrite Hnot.
    rewrite rev_app_distr. cbn [rev app scanNotifications n_text].
    rewrite notice_truthy. cbn [negb].
    rewrite NoticeFacts.notice_exec by done. rewrite bool_decide_eq_true_2 by done.
    cbn [discoveredPin pr_pin]. destruct (String.eqb pin pin'); [|done].
    cbn zeta. cbn [snd]. rewrite nextStageOf_name. by rewrite <- Hbal.
  - intros s' Hne Hs Hn. unfold confirmStagePin, User_findById. rewrite H1.
    rewrite resolvePin_unset by by rewrite Hset. unfold recoverPin, stagePattern.
    rewrite stage_name_literal. unfold foundPin. cbn [load d_user]. rewrite Hnot, Hn.
    cbn [rev app scanNotifications n_text].
    rewrite notice_truthy. cbn [negb].
    rewrite NoticeFacts.notice_exec by done. by rewrite bool_decide_eq_false_2.
Qed.

Lemma template_notice_round_trip_witness :
  snd (confirmStagePin Scenario.minimize Scenario.engine
         (fst (notifyUser Scenario.minimize Scenario.init "u1" (Notice.notice insurance "0042") 1))
         "u1" "w1" "insurance" "0042" 2)
  = PinConfirmed (Some verification) 1000
  /\ confirmStagePin Scenario.minimize Scenario.engine
       (fst (notifyUser Scenario.minimize Scenario.init "u1" (Notice.notice insurance "0042") 1))
       "u1" "w1" "tax" "0042" 2
     = (fst (notifyUser Scenario.minimize Scenario.init "u1" (Notice.notice insurance "0042") 1),
         NoPinSet).
Proof.
  pose proof (template_notice_round_trip Scenario.minimize Scenario.engine Scenario.init "u1" "w1"
      insurance
                "0042" "0042" 1 2 Scenario.alice eq_refl eq_refl) as [H1 H2].
  split; [exact (H1 eq_refl)|].
  exact (H2 tax ltac:(discriminate) eq_refl eq_refl).
Defined.

(** *** Issue and confirm *)



(** Issued one after the other, the pins of the five stages still take
    a withdrawal to [access]: the first is stored, and each of the others
    is read back from its notice. *)
Example issued_in_turn :
  let issue s := SetPinForUser "u1" (stage_name s) (Office.pinOf s) in
  let confirm s := ConfirmStagePin "u1" "w1" (stage_name s) (Office.pinOf s) in
  let course :=
    run Scenario.minimize Scenario.engine Scenario.init
      [(1, CreatePreview "u1" "crypto" None "w1");
       (2, issue activation); (3, confirm activation);
       (4, issue tax); (5, confirm tax);
       (6, issue insurance); (7, confirm insurance);
       (8, issue verification); (9, confirm verification);
       (10, issue security); (11, confirm security)]%Z in
  (w_stage <$> Withdrawal_latest course "u1" = Some access)
  /\ (w_status <$> Withdrawal_latest course "u1" = Some ready_for_payout)
  /\ (dom <$> (users course !! "u1" ≫= u_activationPins)
       = Some ({[ "activation" ]} : gset string)).
Proof. vm_compute. repeat split. Qed.

(** *** The five stages *)




(** ** The checks of withdrawRequest *)

Lemma isUSA_not_Canada country : isUSA country = true -> isCanada country = false.
Proof.
  unfold isUSA, isCanada. destruct (JS.truthy country); [|done]. cbn [andb].
  intros H. repeat (apply orb_true_iff in H as [H|H]);
    apply String.eqb_eq in H; by rewrite H.
Qed.

Lemma validateRequest_None country method details :
  validateRequest country method details = None ->
  Invariant.wellFormedRequest country method details.
Proof.
  unfold validateRequest, Invariant.wellFormedRequest. cbn zeta. intros H.
  destruct (String.eqb_spec method "crypto") as [->|Hc].
  { rewrite andb_false_r in H. cbn [negb] in H. left.
    destruct (JS.truthy (field details "crypto")) eqn:E1; [|done].
    destruct (JS.truthy (field details "walletAddress")) eqn:E2; [|done].
    repeat split; by apply truthy_true. }
  cbn [negb] in H. rewrite andb_true_r in H.
  destruct (isUSA country) eqn:U; cbn [negb andb] in H.
  - destruct (String.eqb_spec method "bank") as [->|Hb].
    + right. left.
      repeat match type of H with
             | context [JS.truthy ?x] =>
                 destruct (JS.truthy x) eqn:?; cbn [andb negb] in H
             end; try done.
      destruct (JS.all_digits 9 _) eqn:?; [|done]. cbn [negb] in H.
      destruct (String.eqb_spec (JS.toLowerCase (field details "accountType")) "checking");
        [repeat split; try (by apply truthy_true); by left|].
      destruct (String.eqb_spec (JS.toLowerCase (field details "accountType")) "savings");
        [|done].
      repeat split; try (by apply truthy_true); by right.
    + destruct (String.eqb_spec method "stripe") as [->|Hs]; [|done].
      right. right. right. destruct (JS.truthy (field details "email")) eqn:E; [|done].
      repeat split; [by left|by apply truthy_true].
  - destruct (isCanada country) eqn:C; cbn [negb] in H; [|done].
    destruct (String.eqb_spec method "bank") as [->|Hb].
    + right. right. left.
      repeat match type of H with
             | context [JS.truthy ?x] =>
                 destruct (JS.truthy x) eqn:?; cbn [andb negb] in H
             end; try done.
      destruct (JS.all_digits 5 _) eqn:?; [|done]. cbn [negb] in H.
      destruct (JS.all_digits 3 _) eqn:?; [|done].
      repeat split; by apply truthy_true.
    + destruct (String.eqb_spec method "stripe") as [->|Hs]; [|done].
      right. right. right. destruct (JS.truthy (field details "email")) eqn:E; [|done].
      repeat split; [by right|by apply truthy_true].
Qed.

(** withdrawRequest answers with a withdrawal, a new one or the one in
    progress, only for a request that is well formed for the stored
    country of the user: crypto with a coin and an address anywhere; a
    bank transfer with the fields and digit counts of the United States
    or of Canada, and no country is both; stripe with an e-mail in these
    two countries only. *)
Theorem withdrawRequest_answers_well_formed st uid method details newId now st' r id u :
  users st !! uid = Some u ->
  withdrawRequest st uid method details newId now = (st', r) ->
  returnedId r = Some id ->
  Invariant.wellFormedRequest (u_country u) method details
  /\ (isUSA (u_country u) = true -> isCanada (u_country u) = false).
Proof.
  intros Hu H Hid. split; [|apply isUSA_not_Canada].
  apply withdrawRequest_returned with (id := id) in H as (u0 & Hu0 & _ & _ & Hv & _);
    [|done].
  unfold User_findById in Hu0. simplify_eq. by apply validateRequest_None.
Qed.

Lemma withdrawRequest_answers_well_formed_witness :
  Invariant.wellFormedRequest "Canada" "bank" (Some Office.transfer).
Proof.
  refine (proj1 (withdrawRequest_answers_well_formed Scenario.init "u1" "bank"
                   (Some Office.transfer) "w1" 1
                   (fst (withdrawRequest Scenario.init "u1" "bank" (Some Office.transfer)
                           "w1" 1))
                   (snd (withdrawRequest Scenario.init "u1" "bank" (Some Office.transfer)
                           "w1" 1))
                   "w1" Scenario.alice eq_refl _ _)).
  - apply surjective_pairing.
  - vm_compute. reflexivity.
Defined.

(** ** Accounts *)

Module AccountFacts.
Import Auth Accounts Names.
Local Open Scope list_scope.

Lemma lower_char_space c : JS.is_space (JS.lower_char c) = JS.is_space c.
Proof. by destruct c as [[] [] [] [] [] [] [] []]. Qed.

Lemma lower_char_idem c : JS.lower_char (JS.lower_char c) = JS.lower_char c.
Proof. by destruct c as [[] [] [] [] [] [] [] []]. Qed.

Lemma trimStart_map l : trimStart (map JS.lower_char l) = map JS.lower_char (trimStart l).
Proof.
  induction l as [|c l IH]; [done|]. cbn. rewrite lower_char_space.
  by destruct (JS.is_space c).
Qed.

Lemma trimStart_idem l : trimStart (trimStart l) = trimStart l.
Proof.
  induction l as [|c l IH]; [done|]. cbn. destruct (JS.is_space c) eqn:E; [done|].
  cbn. by rewrite E.
Qed.

Lemma trimStart_head l :
  match trimStart l with c :: _ => JS.is_space c = false | [] => True end.
Proof.
  induction l as [|c l IH]; [done|]. cbn. destruct (JS.is_space c) eqn:E; [done|]. by cbn.
Qed.

Lemma trimStart_fixed l :
  match l with c :: _ => JS.is_space c = false | [] => True end -> trimStart l = l.
Proof. destruct l as [|c l]; [done|]. cbn. by intros ->. Qed.

(** A text that was trimmed has nothing left to trim, at either end. *)
Lemma trimmed_idem l : trimmed (trimmed l) = trimmed l.
Proof.
  unfold trimmed. set (k := trimStart (rev (trimStart l))).
  assert (trimStart (rev k) = rev k) as E1.
  { unfold k. clear k. set (m := trimStart l).
    pose proof (trimStart_head l) as Hm. fold m in Hm. clearbody m.
    induction m as [|x m IH] using rev_ind; [done|].
    rewrite rev_app_distr. cbn [rev app]. destruct (JS.is_space x) eqn:Ex.
    - cbn [trimStart]. rewrite Ex. destruct m as [|y m]; [done|].
      apply IH. by cbn in *.
    - cbn [trimStart]. rewrite Ex. cbn [rev]. rewrite rev_involutive.
      apply trimStart_fixed. destruct m; [done|]. by cbn in *. }
  rewrite E1, rev_involutive. unfold k. by rewrite trimStart_idem.
Qed.

Lemma trimmed_map l : trimmed (map JS.lower_char l) = map JS.lower_char (trimmed l).
Proof. unfold trimmed. by rewrite trimStart_map, <- map_rev, trimStart_map, map_rev. Qed.

Lemma chars_trim s : JS.chars (trim s) = trimmed (JS.chars s).
Proof. unfold trim. by rewrite RegexFacts.chars_str. Qed.

Lemma chars_toLowerCase s : JS.chars (JS.toLowerCase s) = map JS.lower_char (JS.chars s).
Proof. unfold JS.toLowerCase. by rewrite RegexFacts.chars_str. Qed.

Lemma normal_form_idem s :
  JS.toLowerCase (trim (JS.toLowerCase (trim s))) = JS.toLowerCase (trim s).
Proof.
  apply chars_inj. rewrite !chars_toLowerCase, !chars_trim, !chars_toLowerCase, chars_trim.
  rewrite trimmed_map, trimmed_idem, map_map. apply map_ext. intros c. apply lower_char_idem.
Qed.

Lemma normalizeUsername_idem u : normalizeUsername (normalizeUsername u) = normalizeUsername u.
Proof.
  unfold normalizeUsername. destruct (JS.truthy u); cbn [negb]; [|done].
  destruct (JS.truthy (JS.toLowerCase (trim u))) eqn:E; cbn [negb].
  - apply normal_form_idem.
  - unfold JS.truthy in E. apply negb_false_iff, String.eqb_eq in E. by rewrite E.
Qed.

Lemma preSave_normal isModified u :
  preSave isModified (normalizeUsername u) = normalizeUsername u.
Proof.
  unfold preSave. destruct isModified; [|done]. cbn [andb].
  destruct (JS.truthy (normalizeUsername u)) eqn:E; [|done].
  unfold normalizeUsername in *. destruct (JS.truthy u); cbn [negb] in *; [|done].
  apply normal_form_idem.
Qed.

(** The normal form of a user name is stable: normalising it again gives
    it back, and the pre-save hook stores a normalised name as it is, so
    the name that register looks up is the name that is stored. *)
Theorem normalizeUsername_is_stable u isModified :
  normalizeUsername (normalizeUsername u) = normalizeUsername u
  /\ preSave isModified (normalizeUsername u) = normalizeUsername u.
Proof. split; [apply normalizeUsername_idem | apply preSave_normal]. Qed.

Section RoundTrip.
Variable ADMIN_USERNAME ADMIN_PASSWORD : option string.
Variable sign : Payload -> string.
Variable hash : string -> string.
Variable compare : string -> string -> bool.
Variable duplicateKey : list Account -> Account -> option string.

(** What a registration that went through has stored. *)
Lemma register_stored accounts body newId accounts' token role :
  register ADMIN_USERNAME sign hash duplicateKey accounts body newId
  = (accounts', Registered token role) ->
  JS.truthy (rg_username body) = true
  /\ JS.truthy (rg_password body) = true
  /\ User_findOne accounts (normalizeUsername (rg_username body)) = None
  /\ token = sign {| jw_id := Some newId; jw_role := Some role; jw_admin := false |}
  /\ accounts' = accounts ++ [newAccount hash body newId role].
Proof.
  unfold register. intros H.
  destruct (JS.truthy (rg_firstName body)), (JS.truthy (rg_lastName body)),
    (JS.truthy (rg_country body)), (JS.truthy (rg_email body)),
    (JS.truthy (rg_username body)), (JS.truthy (rg_password body));
    cbn [negb orb] in H; try done.
  destruct (User_findOne accounts _) eqn:F; [done|].
  destruct (pwScore _ <? 3)%nat; [done|]. cbn zeta in H.
  destruct (duplicateKey _ _); [done|]. by injection H as <- <- <-.
Qed.

Lemma findOne_new accounts a name :
  User_findOne accounts name = None -> u_username (a_user a) = name ->
  User_findOne (accounts ++ [a]) name = Some a.
Proof.
  unfold User_findOne. intros H E. induction accounts as [|x l IH]; cbn in *.
  - by rewrite E, String.eqb_refl.
  - destruct (String.eqb _ name); [done|]. by apply IH.
Qed.

(** Register, then log in (tests/auth.test.js).  After a registration
    that went through, a login with the password and with the user name
    in any letter case and padding is answered with a token of the new
    account and its role, or with the administrator's token when the
    credentials are those of the environment; a login with a password
    that bcrypt does not accept is answered 400 Invalid credentials. *)
Theorem register_then_login accounts body newId accounts' token role username :
  register ADMIN_USERNAME sign hash duplicateKey accounts body newId
  = (accounts', Registered token role) ->
  compare (rg_password body) (hash (rg_password body)) = true ->
  JS.truthy username = true ->
  normalizeUsername username = normalizeUsername (rg_username body) ->
  login ADMIN_USERNAME ADMIN_PASSWORD sign compare accounts' username (rg_password body)
  = (if isEnvAdmin ADMIN_USERNAME (normalizeUsername username)
        && match ADMIN_PASSWORD with
           | Some envAdminPassword => String.eqb (rg_password body) envAdminPassword
           | None => false
           end
     then AdminLogin
            (sign {| jw_id := None; jw_role := Some "admin"%string; jw_admin := true |})
     else LoggedIn token role)
  /\ forall password,
       compare password (hash (rg_password body)) = false ->
       ADMIN_PASSWORD <> Some password ->
       JS.truthy password = true ->
       login ADMIN_USERNAME ADMIN_PASSWORD sign compare accounts' username password
       = AuthErr 400 "Invalid credentials".
Proof.
  intros H Hc Hu Hn. apply register_stored in H as (_ & Hp & F & Ht & ->).
  assert (User_findOne (accounts ++ [newAccount hash body newId role])
            (normalizeUsername username) = Some (newAccount hash body newId role)) as F'.
  { rewrite Hn. apply findOne_new; [done|]. cbn. apply preSave_normal. }
  split.
  - unfold login. rewrite Hu, Hp. cbn [negb orb]. cbn zeta.
    destruct (_ && _); [done|]. rewrite F'. cbn [a_password newAccount].
    rewrite Hc. cbn [negb a_id a_user u_role]. by rewrite Ht.
  - intros password Hw Ha Hpw. unfold login. rewrite Hu, Hpw. cbn [negb orb]. cbn zeta.
    assert (match ADMIN_PASSWORD with
            | Some envAdminPassword => String.eqb password envAdminPassword
            | None => false
            end = false) as ->.
    { destruct ADMIN_PASSWORD as [p|]; [|done]. apply String.eqb_neq. congruence. }
    rewrite andb_false_r, F'. cbn [a_password newAccount]. by rewrite Hw.
Qed.

Lemma findOne_None accounts name :
  User_findOne accounts name = None -> ~ In name (usernames accounts).
Proof.
  unfold User_findOne, usernames. intros H Hin. apply in_map_iff in Hin as (a & E & Hin).
  eapply find_none in H; [|done]. cbn in H. by rewrite E, String.eqb_refl in H.
Qed.

(** register keeps the stored user names distinct and in normal form,
    whatever the unique indexes of the database do: a name that differs
    from a stored one in letter case or padding only is refused. *)
Theorem usernames_stay_distinct accounts body newId :
  NoDup (usernames accounts) ->
  Forall (fun name => normalizeUsername name = name) (usernames accounts) ->
  NoDup (usernames
           (fst (register ADMIN_USERNAME sign hash duplicateKey accounts body newId)))
  /\ Forall (fun name => normalizeUsername name = name)
       (usernames
          (fst (register ADMIN_USERNAME sign hash duplicateKey accounts body newId))).
Proof.
  intros Hd Hn.
  destruct (register ADMIN_USERNAME sign hash duplicateKey accounts body newId)
    as [accounts' r] eqn:H.
  cbn [fst].
  destruct r as [code message|token role|token|token role];
    try (unfold register in H; repeat case_match; by simplify_eq).
  apply register_stored in H as (_ & _ & F & _ & ->).
  unfold usernames. rewrite map_app. cbn [map a_user newAccount u_username].
  rewrite preSave_normal. split.
  - apply NoDup_app. split; [done|]. split; [|apply NoDup_singleton].
    intros x Hx Hin. apply list_elem_of_singleton in Hin as ->.
    apply findOne_None in F. apply F. by apply list_elem_of_In.
  - apply Forall_app. split; [done|]. constructor; [|done]. apply normalizeUsername_idem.
Qed.

End RoundTrip.

Lemma register_then_login_witness :
  register None Office.sign Office.hash Office.duplicateKey [] Office.carol "u9"
  = ([newAccount Office.hash Office.carol "u9" "user"], Registered "u9.user" "user")
  /\ login None None Office.sign Office.compare
       [newAccount Office.hash Office.carol "u9" "user"] "CAROL" "StrongP@ss1"
     = LoggedIn "u9.user" "user"
  /\ login None None Office.sign Office.compare
       [newAccount Office.hash Office.carol "u9" "user"] "CAROL" "wrongpass"
     = AuthErr 400 "Invalid credentials".
Proof.
  split; [reflexivity|].
  pose proof (register_then_login None None Office.sign Office.hash Office.compare
                Office.duplicateKey [] Office.carol "u9"
                [newAccount Office.hash Office.carol "u9" "user"] "u9.user" "user" "CAROL"
                eq_refl eq_refl eq_refl eq_refl) as [H1 H2].
  split; [exact H1|].
  exact (H2 "wrongpass" eq_refl ltac:(discriminate) eq_refl).
Defined.

Lemma usernames_stay_distinct_witness :
  usernames
    (fst (register None Office.sign Office.hash Office.duplicateKey
            [newAccount Office.hash Office.carol "u9" "user"]
            {| rg_firstName := "Dan"; rg_lastName := "Lee"; rg_country := "Canada";
               rg_email := "dan@example.com"; rg_phone := ""; rg_username := "dan";
               rg_password := "Several1words" |} "u10"))
  = ["carol"%string; "dan"%string]
  /\ NoDup
       (usernames
          (fst (register None Office.sign Office.hash Office.duplicateKey
                  [newAccount Office.hash Office.carol "u9" "user"]
                  {| rg_firstName := "Dan"; rg_lastName := "Lee"; rg_country := "Canada";
                     rg_email := "dan@example.com"; rg_phone := ""; rg_username := "dan";
                     rg_password := "Several1words" |} "u10"))).
Proof.
  split; [reflexivity|].
  apply (usernames_stay_distinct None Office.sign Office.hash Office.duplicateKey).
  - cbn. apply NoDup_singleton.
  - by repeat constructor.
Defined.

End AccountFacts.

(** ** The preview of the withdrawal router *)

(** createPreview has none of the checks of withdrawRequest: a request
    that withdrawRequest refuses for its method or its details, with 400
    and the state unchanged, is answered with a withdrawal by
    createPreview, the one in progress or a new one. *)
Theorem createPreview_skips_the_checks st uid method details newId now u message :
  users st !! uid = Some u ->
  (u_balance u <? 1)%float = false -> u_timerActive u = true ->
  validateRequest (u_country u) method details = Some message ->
  Withdrawal_findById st newId = None ->
  withdrawRequest st uid method details newId now = (st, Err 400 message)
  /\ exists id, returnedId (snd (createPreview st uid method details newId now)) = Some id.
Proof.
  intros Hu Hb Ht Hv Hn. split.
  - unfold withdrawRequest, User_findById. by rewrite Hu, Hb, Ht, Hv.
  - unfold createPreview, User_findById. rewrite Hu, Hb, Ht. cbn [negb].
    unfold resumeOrCreate, Withdrawal_insert. cbn zeta. cbn [w_id newWithdrawal].
    rewrite Hn. destruct (Withdrawal_latest st uid) as [latest|]; [|by eexists].
    destruct (inProgress latest); by eexists.
Qed.

Lemma createPreview_skips_the_checks_witness :
  withdrawRequest Scenario.init "u1" "paypal" None "w1" 1
  = (Scenario.init, Err 400 "Invalid withdrawal method.")
  /\ exists id, returnedId (snd (createPreview Scenario.init "u1" "paypal" None "w1" 1)) = Some id.
Proof.
  apply (createPreview_skips_the_checks Scenario.init "u1" "paypal" None "w1" 1 Scenario.alice
           "Invalid withdrawal method."); reflexivity.
Defined.

(** ** deleteUser *)

Lemma find_filter {A} (p q : A -> bool) (l : list A) :
  (forall x, p x = true -> q x = true) ->
  List.find p (List.filter q l) = List.find p l.
Proof.
  intros H. induction l as [|x l IH]; [done|]. cbn.
  destruct (q x) eqn:Q; cbn.
  - by rewrite IH.
  - destruct (p x) eqn:P; [|done]. apply H in P. congruence.
Qed.

(** deleteUser removes the user and the withdrawals of the user, and
    nothing else: the other users are stored as they were, the other
    withdrawals stay in their order, and the most recent withdrawal of
    every other user is the same.  For an unknown id it answers 404 and
    changes nothing. *)
Theorem deleteUser_removes_user_and_withdrawals st id :
  let st' := fst (Admin.deleteUser st id) in
  match users st !! id with
  | None => Admin.deleteUser st id
            = (st, {| Admin.r_status := 404; Admin.r_message := "User not found" |})
  | Some _ =>
      users st' !! id = None
      /\ Withdrawal_latest st' id = None
      /\ (forall w, In w (withdrawals st') <-> In w (withdrawals st) /\ w_user w <> id)
      /\ forall other, other <> id ->
           users st' !! other = users st !! other
           /\ Withdrawal_latest st' other = Withdrawal_latest st other
  end.
Proof.
  intros st'. unfold st', Admin.deleteUser, User_findById.
  destruct (users st !! id) as [u|] eqn:Hu; [|done]. cbn [fst users withdrawals].
  split; [apply lookup_delete_eq|]. split; [|split].
  - unfold Withdrawal_latest. cbn [withdrawals].
    induction (withdrawals st) as [|x l IH]; [done|]. cbn.
    destruct (String.eqb (w_user x) id) eqn:E; cbn; [done|]. by rewrite E.
  - intros w. rewrite filter_In, negb_true_iff. by rewrite String.eqb_neq.
  - intros other Hne. split; [by apply lookup_delete_ne|].
    unfold Withdrawal_latest. cbn [withdrawals]. apply find_filter.
    intros x Hx. apply String.eqb_eq in Hx. apply negb_true_iff, String.eqb_neq. congruence.
Qed.

(** ** The legacy activation payment *)


